(** * Quarto preview plugin (qmd-as-md-obsidian): preview session handling

    A shallow embedding of the preview code of [src/main.ts] (the plugin
    that is built), of the second plugin source kept next to it
    ([unnamed/part_001]) and of the environment set-up of the snapshot
    reproduced in [README.md], followed by the properties of the
    specification that concern them.

    JavaScript strings are sequences of UTF-16 code units; the two maps of
    the plugin ([activePreviewProcesses], [activeWebViewers]) are finite
    maps; [ChildProcess] objects live in a store and the maps hold
    references into it, as the JavaScript [Map]s hold object references. *)

From Stdlib Require Import NArith String Ascii List Bool Lia DecimalString.
From stdpp Require Import base option list gmap fin_maps.
Import ListNotations.

Local Open Scope N_scope.

(** ** JavaScript strings *)

(** A string is its list of UTF-16 code units. *)
Abbreviation jsstring := (list N).

(** The code units of an ASCII literal of the source. *)
Definition js (s : string) : jsstring :=
  map (fun c => N_of_ascii c) (list_ascii_of_string s).

(** [WhiteSpace] and [LineTerminator] of ECMAScript: what [\s] matches and
    what [String.prototype.trim] strips. *)
Definition isWhiteSpace (c : N) : bool :=
  ((9 <=? c) && (c <=? 13))            (* \t \n \v \f \r *)
  || (c =? 32)                         (* space *)
  || (c =? 160)                        (* U+00A0 *)
  || (c =? 5760)                       (* U+1680 *)
  || ((8192 <=? c) && (c <=? 8202))    (* U+2000 .. U+200A *)
  || (c =? 8232) || (c =? 8233)        (* U+2028, U+2029 *)
  || (c =? 8239)                       (* U+202F *)
  || (c =? 8287)                       (* U+205F *)
  || (c =? 12288)                      (* U+3000 *)
  || (c =? 65279).                     (* U+FEFF *)

(** [s.startsWith(p)], returning what follows the prefix. *)
Fixpoint stripPrefix (p s : jsstring) : option jsstring :=
  match p, s with
  | [], _ => Some s
  | a :: p', b :: s' => if a =? b then stripPrefix p' s' else None
  | _ :: _, [] => None
  end.

(** [s.includes(sub)] *)
Fixpoint includes (s sub : jsstring) : bool :=
  match stripPrefix sub s with
  | Some _ => true
  | None => match s with
            | [] => false
            | _ :: s' => includes s' sub
            end
  end.

(** The longest prefix of [s] whose code units satisfy [f], and the rest. *)
Fixpoint span (f : N -> bool) (s : jsstring) : jsstring * jsstring :=
  match s with
  | [] => ([], [])
  | c :: s' => if f c then let '(a, b) := span f s' in (c :: a, b)
               else ([], s)
  end.

(** [String.prototype.trim] *)
Definition trim (s : jsstring) : jsstring :=
  let s1 := snd (span isWhiteSpace s) in
  rev (snd (span isWhiteSpace (rev s1))).

(** ** The readiness pattern

    [output.match(/Browse at\s+(http:\/\/[^\s]+)/)]: the match is tried at
    each start index from the left.  At one index the literal is followed
    by a greedy [\s+]; as the next pattern character [h] is no white
    space, giving back white space cannot help, so the longest run is the
    only candidate.  The group is ["http://"] and the greedy [[^\s]+], at
    the end of the pattern, hence the longest run of other characters. *)

Definition BrowseAt : jsstring := Eval cbv in js "Browse at".
Definition httpScheme : jsstring := Eval cbv in js "http://".
Definition httpsScheme : jsstring := Eval cbv in js "https://".

(** The match anchored at the start of [s]: the captured group 1. *)
Definition matchHere (s : jsstring) : option jsstring :=
  match stripPrefix BrowseAt s with
  | None => None
  | Some r1 =>
      match span isWhiteSpace r1 with
      | ([], _) => None
      | (_ :: _, r2) =>
          match stripPrefix httpScheme r2 with
          | None => None
          | Some r3 =>
              match fst (span (fun c => negb (isWhiteSpace c)) r3) with
              | [] => None
              | u => Some (httpScheme ++ u)
              end
          end
      end
  end.

(** [output.match(...)], reduced to [match[1]]; [None] is [null]. *)
Fixpoint regexMatch (output : jsstring) : option jsstring :=
  match matchHere output with
  | Some u => Some u
  | None => match output with
            | [] => None
            | _ :: rest => regexMatch rest
            end
  end.

(** The body of the [stdout] ['data'] handler up to the decision: the URL
    the handler resolves with, if any.
<<
    if (output.includes('Browse at')) {
      const match = output.match(/Browse at\s+(http:\/\/[^\s]+)/);
      if (match && match[1]) { ... resolve(match[1]) }
>>
    [match[1]] is truthy when it is not the empty string. *)
Definition readinessUrl (output : jsstring) : option jsstring :=
  if includes output BrowseAt then
    match regexMatch output with
    | Some (c :: u) => Some (c :: u)
    | _ => None
    end
  else None.

(** ** Objects of the platform *)

(** [TFile] of Obsidian: the vault path and the extension. *)
Record TFile := mkTFile {
  path : jsstring;
  extension : jsstring }.

(** What the plugin takes from Obsidian and Node and does not define:
    [this.app.vault.adapter.getFullPath], [path.dirname],
    [Platform.isMobile], and [refuses command args cwd]: the arguments,
    besides an empty command, for which [spawn] of the Node at hand throws
    (recent versions refuse a NUL character in any of them). *)
Record Host := mkHost {
  getFullPath : jsstring -> jsstring;
  dirname : jsstring -> jsstring;
  isMobile : bool;
  refuses : jsstring -> list jsstring -> jsstring -> bool }.

(** The promise [startPreviewAndGetUrl] attaches to the process it
    spawned; its [resolve] is the only function the executor hands to the
    listeners, so once the process exists the promise is only ever
    resolved, with a URL or with [null].  The promise of a call whose
    executor throws is rejected: see [Main.Outcome]. *)
Inductive Promise :=
| Pending
| Resolved (value : option jsstring).

(** A [ChildProcess] of Node together with what the function that spawned
    it attached to it.  [signals] counts the [kill()] calls made on the
    object, [killed] is Node's flag of the same name, [exited] tells that
    the process has ended.  [timeoutId] is the
    instant at which the armed timer fires.  [promise] is [None] for a
    process spawned by [startPreview], which has no promise of a URL;
    [awaited] tells that [toggleWebViewer] waits for the promise.  [key] is
    the [file.path] the listeners closed over. *)
Record ChildProcess := mkChildProcess {
  spawnfile : jsstring;
  spawnargs : list jsstring;
  cwd : jsstring;
  shell : bool;
  env : option (gmap jsstring jsstring);
  killed : bool;
  signals : nat;
  exited : bool;
  key : jsstring;
  dataListener : bool;
  errorListener : bool;
  closeListener : bool;
  timeoutId : option N;
  promise : option Promise;
  awaited : bool }.

(** The object [spawn(command, args, { cwd, shell, env })] returns when
    it returns: a process that has not ended, nothing attached.
    [environment] is the [env] option; without it ([None]) the child
    inherits [process.env]. *)
Definition child (command : jsstring) (args : list jsstring)
    (workingDir : jsstring) (useShell : bool)
    (environment : option (gmap jsstring jsstring)) : ChildProcess :=
  {| spawnfile := command; spawnargs := args; cwd := workingDir;
     shell := useShell; env := environment;
     killed := false; signals := 0%nat; exited := false; key := [];
     dataListener := false; errorListener := false; closeListener := false;
     timeoutId := None; promise := None; awaited := false |}.

(** Does [spawn] throw?  Node checks the arguments before it starts
    anything and throws, synchronously, for a command that is the empty
    string, with or without the [shell] option, and for what the host
    refuses besides. *)
Definition spawnThrows (h : Host) (command : jsstring) (args : list jsstring)
    (workingDir : jsstring) : bool :=
  match command with
  | [] => true
  | _ :: _ => refuses h command args workingDir
  end.

(** [spawn(command, args, { cwd, shell, env })]: [None] when the call
    throws.  A command that cannot be run (no such program) is not such a
    case: [spawn] returns the object, and the process then emits
    ['error']. *)
Definition spawn (h : Host) (command : jsstring) (args : list jsstring)
    (workingDir : jsstring) (useShell : bool)
    (environment : option (gmap jsstring jsstring)) : option ChildProcess :=
  if spawnThrows h command args workingDir then None
  else Some (child command args workingDir useShell environment).

(** [process.kill()]: one more call counted in [signals].  Node delivers
    the signal and sets [killed] when the process has not ended; for a
    process that has ended the call returns [false] and leaves the flag as
    it is.  The properties below count the calls; none of them concludes
    that the flag is set. *)
Definition kill (p : ChildProcess) : ChildProcess :=
  {| spawnfile := spawnfile p; spawnargs := spawnargs p; cwd := cwd p;
     shell := shell p; env := env p;
     killed := if exited p then killed p else true;
     signals := S (signals p); exited := exited p; key := key p;
     dataListener := dataListener p; errorListener := errorListener p;
     closeListener := closeListener p;
     timeoutId := timeoutId p; promise := promise p; awaited := awaited p |}.

(** The process ends. *)
Definition exits (p : ChildProcess) : ChildProcess :=
  {| spawnfile := spawnfile p; spawnargs := spawnargs p; cwd := cwd p;
     shell := shell p; env := env p;
     killed := killed p; signals := signals p; exited := true; key := key p;
     dataListener := dataListener p; errorListener := errorListener p;
     closeListener := closeListener p;
     timeoutId := timeoutId p; promise := promise p; awaited := awaited p |}.

(** [if (!process.killed) process.kill()] *)
Definition killUnlessKilled (p : ChildProcess) : ChildProcess :=
  if killed p then p else kill p.

(** The listeners and the timer a spawning function sets up; the
    listeners close over [file_path]. *)
Definition attach (file_path : jsstring) (data err close : bool)
    (timer : option N) (pr : option Promise) (p : ChildProcess)
    : ChildProcess :=
  {| spawnfile := spawnfile p; spawnargs := spawnargs p; cwd := cwd p;
     shell := shell p; env := env p;
     killed := killed p; signals := signals p; exited := exited p;
     key := file_path;
     dataListener := data; errorListener := err; closeListener := close;
     timeoutId := timer; promise := pr; awaited := awaited p |}.

(** [cleanup]: [clearTimeout(timeoutId); process.removeAllListeners()].
    The listeners removed are those of the process, ['error'] and
    ['close']; the ['data'] listener is on [process.stdout] and stays. *)
Definition cleanup (p : ChildProcess) : ChildProcess :=
  attach (key p) (dataListener p) false false None (promise p) p.

Definition setPromise (pr : Promise) (p : ChildProcess) : ChildProcess :=
  attach (key p) (dataListener p) (errorListener p) (closeListener p)
         (timeoutId p) (Some pr) p.

Definition setAwaited (p : ChildProcess) : ChildProcess :=
  {| spawnfile := spawnfile p; spawnargs := spawnargs p; cwd := cwd p;
     shell := shell p; env := env p;
     killed := killed p; signals := signals p; exited := exited p;
     key := key p;
     dataListener := dataListener p; errorListener := errorListener p;
     closeListener := closeListener p;
     timeoutId := timeoutId p; promise := promise p; awaited := true |}.

(** A [WorkspaceLeaf] showing a web view. *)
Record WorkspaceLeaf := mkLeaf {
  viewUrl : jsstring;
  detached : bool }.

Definition detach (l : WorkspaceLeaf) : WorkspaceLeaf :=
  {| viewUrl := viewUrl l; detached := true |}.

(** [number.toString()] of a non-negative integer, as in a template
    literal. *)
Definition numberToString (n : N) : jsstring :=
  js (NilZero.string_of_uint (N.to_uint n)).

#[local] Set Warnings "-register-all".

(** ** Plain objects

    The values a settings file can hold.  Numbers are kept as integers:
    no code modelled here computes with them. *)
Inductive JsValue :=
| JNull
| JBool (b : bool)
| JNumber (n : Z)
| JString (s : jsstring)
| JArray (items : list JsValue)
| JObject (fields : list (jsstring * JsValue)).

(** An object as the map of its own enumerable properties. *)
Abbreviation JsObject := (gmap jsstring JsValue).

(** [Object.assign(target, ...sources)]: the properties of each source are
    copied onto the target, a later source over an earlier one; a source
    that is [null] or [undefined] ([None]) is skipped. *)
Definition objectAssign (target : JsObject) (sources : list (option JsObject))
    : JsObject :=
  foldl (fun t src => match src with
                      | Some o => o ∪ t
                      | None => t
                      end) target sources.

(** * [src/main.ts] *)

Module Main.

Record QmdPluginSettings := mkSettings {
  quartoPath : jsstring;
  autoPreview : bool;
  enableQmdLinking : bool;
  useWebViewer : bool }.

Definition DEFAULT_SETTINGS : QmdPluginSettings :=
  {| quartoPath := js "quarto";
     autoPreview := false;
     enableQmdLinking := false;
     useWebViewer := true |}.

(** The object the constant [DEFAULT_SETTINGS] denotes at run time. *)
Definition toObject (st : QmdPluginSettings) : JsObject :=
  <[js "quartoPath" := JString (quartoPath st)]>
  (<[js "autoPreview" := JBool (autoPreview st)]>
  (<[js "enableQmdLinking" := JBool (enableQmdLinking st)]>
  (<[js "useWebViewer" := JBool (useWebViewer st)]> ∅))).

(** [loadSettings]: [data] is what [loadData()] resolves to, [None] when
    nothing was saved. *)
Definition loadSettings (data : option JsObject) : JsObject :=
  objectAssign ∅ [Some (toObject DEFAULT_SETTINGS); data].

(** [saveSettings]: what [saveData(this.settings)] writes. *)
Definition saveSettings (st : QmdPluginSettings) : JsObject := toObject st.

(** The settings object read at the types [QmdPluginSettings] declares. *)
Definition fromObject (o : JsObject) : option QmdPluginSettings :=
  match o !! js "quartoPath", o !! js "autoPreview",
        o !! js "enableQmdLinking", o !! js "useWebViewer" with
  | Some (JString p), Some (JBool a), Some (JBool l), Some (JBool w) =>
      Some {| quartoPath := p; autoPreview := a; enableQmdLinking := l;
              useWebViewer := w |}
  | _, _, _, _ => None
  end.

(** The plugin object and what it acts on: the store of the processes it
    spawned ([activePreviewProcesses] maps a path to an index of
    [processes]), the leaves it obtained from the workspace, the notices it
    showed, oldest first, and the time in milliseconds. *)
Record Plugin := mkPlugin {
  host : Host;
  settings : QmdPluginSettings;
  fileOpenRegistered : bool;
  activePreviewProcesses : gmap jsstring nat;
  activeWebViewers : gmap jsstring nat;
  processes : list ChildProcess;
  leaves : list WorkspaceLeaf;
  notices : list jsstring;
  clock : N }.

Definition setSettings (st : QmdPluginSettings) (s : Plugin) : Plugin :=
  mkPlugin (host s) st (fileOpenRegistered s) (activePreviewProcesses s)
           (activeWebViewers s) (processes s) (leaves s) (notices s) (clock s).

Definition setRegistry (r : gmap jsstring nat) (s : Plugin) : Plugin :=
  mkPlugin (host s) (settings s) (fileOpenRegistered s) r
           (activeWebViewers s) (processes s) (leaves s) (notices s) (clock s).

Definition setViewers (v : gmap jsstring nat) (s : Plugin) : Plugin :=
  mkPlugin (host s) (settings s) (fileOpenRegistered s)
           (activePreviewProcesses s) v (processes s) (leaves s) (notices s)
           (clock s).

Definition setProcesses (ps : list ChildProcess) (s : Plugin) : Plugin :=
  mkPlugin (host s) (settings s) (fileOpenRegistered s)
           (activePreviewProcesses s) (activeWebViewers s) ps (leaves s)
           (notices s) (clock s).

Definition setLeaves (ls : list WorkspaceLeaf) (s : Plugin) : Plugin :=
  mkPlugin (host s) (settings s) (fileOpenRegistered s)
           (activePreviewProcesses s) (activeWebViewers s) (processes s) ls
           (notices s) (clock s).

Definition setClock (t : N) (s : Plugin) : Plugin :=
  mkPlugin (host s) (settings s) (fileOpenRegistered s)
           (activePreviewProcesses s) (activeWebViewers s) (processes s)
           (leaves s) (notices s) t.

(** [new Notice(msg)] *)
Definition Notice (msg : jsstring) (s : Plugin) : Plugin :=
  mkPlugin (host s) (settings s) (fileOpenRegistered s)
           (activePreviewProcesses s) (activeWebViewers s) (processes s)
           (leaves s) (notices s ++ [msg]) (clock s).

(** A method call on the process object [pid] refers to. *)
Definition onProcess (pid : nat) (f : ChildProcess -> ChildProcess)
    (s : Plugin) : Plugin :=
  setProcesses (alter f pid (processes s)) s.

(** The plugin after [onload] read the settings [st]: the ['file-open']
    handler is registered when [autoPreview] is set at that moment. *)
Definition onload (h : Host) (st : QmdPluginSettings) : Plugin :=
  {| host := h; settings := st; fileOpenRegistered := autoPreview st;
     activePreviewProcesses := ∅; activeWebViewers := ∅;
     processes := []; leaves := []; notices := []; clock := 0 |}.

Definition isQuartoFile (file : TFile) : bool :=
  bool_decide (extension file = js "qmd").

(** ** Starting *)

(** The delay of the start-up timer, in milliseconds. *)
Definition startupTimeout : N := 10000.

(** What the executor of the promise of [startPreviewAndGetUrl] leaves:
    the process that carries the promise, or, when [spawn] threw inside
    the executor, a promise that is rejected. *)
Inductive Outcome :=
| Spawned (pid : nat)
| Rejected.

(** [startPreviewAndGetUrl]: the state after the executor of the promise
    ran, and its outcome.  When [spawn] throws nothing has been set up
    yet: no timer, no listener, no entry. *)
Definition startPreviewAndGetUrl (file : TFile) (s : Plugin)
    : Plugin * Outcome :=
  let filePath := getFullPath (host s) (path file) in
  let workingDir := dirname (host s) filePath in
  match spawn (host s) (quartoPath (settings s)) [js "preview"; filePath]
              workingDir false None with
  | Some process =>
      let process :=
        attach (path file) true true true (Some (clock s + startupTimeout))
               (Some Pending) process in
      let pid := length (processes s) in
      (setRegistry (<[path file := pid]> (activePreviewProcesses s))
         (setProcesses (processes s ++ [process]) s), Spawned pid)
  | None => (s, Rejected)
  end.

(** [startPreview]; when [spawn] throws the call is rejected and the
    plugin is left as it was. *)
Definition startPreview (file : TFile) (s : Plugin) : Plugin :=
  match activePreviewProcesses s !! path file with
  | Some _ => s
  | None =>
      let filePath := getFullPath (host s) (path file) in
      let workingDir := dirname (host s) filePath in
      match spawn (host s) (quartoPath (settings s)) [js "preview"; filePath]
                  workingDir false None with
      | Some process =>
          let process :=
            attach (path file) false false true None None process in
          let pid := length (processes s) in
          setRegistry (<[path file := pid]> (activePreviewProcesses s))
            (setProcesses (processes s ++ [process]) s)
      | None => s
      end
  end.

(** ** Stopping *)

(** [stopPreview] *)
Definition stopPreview (file : TFile) (s : Plugin) : Plugin :=
  match activePreviewProcesses s !! path file with
  | Some pid =>
      setRegistry (delete (path file) (activePreviewProcesses s))
        (onProcess pid killUnlessKilled s)
  | None => s
  end.

(** [stopAllPreviews]: the [forEach] visits the entries one after the
    other; the visits touch the visited process only, so the order in
    which the map is listed does not show in the result. *)
Definition stopAllPreviews (s : Plugin) : Plugin :=
  setRegistry ∅
    (setProcesses
       (foldl (fun ps entry => alter killUnlessKilled (snd entry) ps)
              (processes s) (map_to_list (activePreviewProcesses s)))
       s).

(** ** What happens when the promise of a URL settles *)

(** The rest of [toggleWebViewer] after [await]; [rightLeaf] tells whether
    [getRightLeaf(false)] hands out a leaf.  [if (previewUrl)] holds for a
    string that is not empty. *)
Definition afterAwait (file_path : jsstring) (previewUrl : option jsstring)
    (rightLeaf : bool) (s : Plugin) : Plugin :=
  match previewUrl with
  | Some (c :: u) =>
      if rightLeaf then
        let leaf := length (leaves s) in
        setViewers (<[file_path := leaf]> (activeWebViewers s))
          (setLeaves (leaves s ++ [{| viewUrl := c :: u; detached := false |}])
                     s)
      else Notice (js "Failed to create preview pane") s
  | _ => s
  end.

(** [resolve(value)]: settles the promise if it is pending, which resumes
    the caller that awaits it; does nothing on a settled promise. *)
Definition resolve (pid : nat) (value : option jsstring) (rightLeaf : bool)
    (s : Plugin) : Plugin :=
  match processes s !! pid with
  | Some p =>
      match promise p with
      | Some Pending =>
          let s1 := onProcess pid (setPromise (Resolved value)) s in
          if awaited p then afterAwait (key p) value rightLeaf s1 else s1
      | _ => s
      end
  | None => s
  end.

(** ** Events of a process *)

(** [process.stdout] emits ['data']. *)
Definition onStdoutData (pid : nat) (output : jsstring) (rightLeaf : bool)
    (s : Plugin) : Plugin :=
  match processes s !! pid with
  | Some p =>
      if dataListener p then
        match readinessUrl output with
        | Some url => resolve pid (Some url) rightLeaf (onProcess pid cleanup s)
        | None => s
        end
      else s
  | None => s
  end.

(** The process emits ['error'].  Without a listener Node raises the
    error in the host application; the plugin is then left as it is. *)
Definition onError (pid : nat) (s : Plugin) : Plugin :=
  match processes s !! pid with
  | Some p =>
      if errorListener p then resolve pid None false (onProcess pid cleanup s)
      else s
  | None => s
  end.

(** The process ends; no listener of the plugin hears of it. *)
Definition onExit (pid : nat) (s : Plugin) : Plugin :=
  onProcess pid exits s.

(** The process emits ['close'] with its exit code ([None] is [null]); it
    has ended by then. *)
Definition onClose (pid : nat) (code : option N) (s : Plugin) : Plugin :=
  match processes s !! pid with
  | Some p =>
      let s1 := onProcess pid exits s in
      if closeListener p then
        setRegistry (delete (key p) (activePreviewProcesses s1)) s1
      else s1
  | None => s
  end.

(** The callback of [setTimeout]. *)
Definition onTimeout (pid : nat) (s : Plugin) : Plugin :=
  Notice (js "Preview startup timed out")
    (resolve pid None false (onProcess pid cleanup s)).

(** Is the timer of [pid] armed and due at instant [t]? *)
Definition due (t : N) (pid : nat) (s : Plugin) : bool :=
  match processes s !! pid with
  | Some p => match timeoutId p with
              | Some d => d <=? t
              | None => false
              end
  | None => false
  end.

(** One timer, looked at when the clock shows [t]. *)
Definition fireIfDue (t : N) (st : Plugin) (pid : nat) : Plugin :=
  if due t pid st then onTimeout pid st else st.

(** [dt] milliseconds pass: the timers that come due fire, the older
    process first. *)
Definition elapse (dt : N) (s : Plugin) : Plugin :=
  let t := clock s + dt in
  foldl (fireIfDue t) (setClock t s) (seq 0 (length (processes s))).

(** ** Toggling *)

(** [toggleExternalPreview] *)
Definition toggleExternalPreview (file : TFile) (s : Plugin) : Plugin :=
  match activePreviewProcesses s !! path file with
  | Some _ => stopPreview file s
  | None => startPreview file s
  end.

(** [toggleWebViewer], up to its [await]; [afterAwait] is the rest.  A
    rejected promise makes the [await] throw: the rest is never run. *)
Definition toggleWebViewer (file : TFile) (s : Plugin) : Plugin :=
  match activeWebViewers s !! path file with
  | Some leaf =>
      stopPreview file
        (setViewers (delete (path file) (activeWebViewers s))
           (setLeaves (alter detach leaf (leaves s)) s))
  | None =>
      match startPreviewAndGetUrl file s with
      | (s1, Spawned pid) => onProcess pid setAwaited s1
      | (s1, Rejected) => s1
      end
  end.

(** [togglePreview] *)
Definition togglePreview (file : TFile) (s : Plugin) : Plugin :=
  if useWebViewer (settings s) && negb (isMobile (host s))
  then toggleWebViewer file s
  else toggleExternalPreview file s.

Definition notQuarto : jsstring := js "Current file is not a Quarto document".

(** The callback of the ribbon icon; [activeFile] is [activeView?.file]. *)
Definition ribbonToggle (activeFile : option TFile) (s : Plugin) : Plugin :=
  match activeFile with
  | Some file =>
      if isQuartoFile file then togglePreview file s else Notice notQuarto s
  | None => Notice notQuarto s
  end.

(** The callback of the command [toggle-quarto-preview]. *)
Definition commandToggle (activeFile : option TFile) (s : Plugin) : Plugin :=
  match activeFile with
  | Some file =>
      if isQuartoFile file then togglePreview file s else Notice notQuarto s
  | None => Notice notQuarto s
  end.

(** The ['file-open'] handler, when [onload] registered it. *)
Definition onFileOpen (opened : option TFile) (s : Plugin) : Plugin :=
  if fileOpenRegistered s then
    match opened with
    | Some file => if isQuartoFile file then togglePreview file s else s
    | None => s
    end
  else s.

(** [onunload] *)
Definition onunload (s : Plugin) : Plugin :=
  let s1 := stopAllPreviews s in
  setViewers ∅
    (setLeaves
       (foldl (fun ls entry => alter detach (snd entry) ls)
              (leaves s1) (map_to_list (activeWebViewers s1)))
       s1).

(** ** Runs of the plugin *)

(** What can happen to a loaded plugin: calls of its methods, the user
    interface callbacks, a change in the settings tab, events of the
    processes and the passing of time. *)
Inductive Action :=
| Ribbon (activeFile : option TFile)
| Command (activeFile : option TFile)
| FileOpen (opened : option TFile)
| TogglePreview (file : TFile)
| ToggleWebViewer (file : TFile)
| ToggleExternalPreview (file : TFile)
| StartPreviewAndGetUrl (file : TFile)
| StartPreview (file : TFile)
| StopPreview (file : TFile)
| StopAllPreviews
| Unload
| ChangeSettings (st : QmdPluginSettings)
| StdoutData (pid : nat) (output : jsstring) (rightLeaf : bool)
| ProcessError (pid : nat)
| ProcessExit (pid : nat)
| ProcessClose (pid : nat) (code : option N)
| Elapse (dt : N).

Definition step (s : Plugin) (a : Action) : Plugin :=
  match a with
  | Ribbon f => ribbonToggle f s
  | Command f => commandToggle f s
  | FileOpen f => onFileOpen f s
  | TogglePreview f => togglePreview f s
  | ToggleWebViewer f => toggleWebViewer f s
  | ToggleExternalPreview f => toggleExternalPreview f s
  | StartPreviewAndGetUrl f => fst (startPreviewAndGetUrl f s)
  | StartPreview f => startPreview f s
  | StopPreview f => stopPreview f s
  | StopAllPreviews => stopAllPreviews s
  | Unload => onunload s
  | ChangeSettings st => setSettings st s
  | StdoutData pid output rightLeaf => onStdoutData pid output rightLeaf s
  | ProcessError pid => onError pid s
  | ProcessExit pid => onExit pid s
  | ProcessClose pid code => onClose pid code s
  | Elapse dt => elapse dt s
  end.

Definition run (s : Plugin) (actions : list Action) : Plugin :=
  foldl step s actions.

(** ** The settings tab

    Each control changes one field of [this.settings] and saves; the
    result is the plugin and what [saveData] was given. *)

Definition onQuartoPathChange (value : jsstring) (s : Plugin)
    : Plugin * JsObject :=
  let st := {| quartoPath := value;
               autoPreview := autoPreview (settings s);
               enableQmdLinking := enableQmdLinking (settings s);
               useWebViewer := useWebViewer (settings s) |} in
  (setSettings st s, saveSettings st).

Definition onUseWebViewerChange (value : bool) (s : Plugin)
    : Plugin * JsObject :=
  let st := {| quartoPath := quartoPath (settings s);
               autoPreview := autoPreview (settings s);
               enableQmdLinking := enableQmdLinking (settings s);
               useWebViewer := value |} in
  (setSettings st s, saveSettings st).

Definition onAutoPreviewChange (value : bool) (s : Plugin)
    : Plugin * JsObject :=
  let st := {| quartoPath := quartoPath (settings s);
               autoPreview := value;
               enableQmdLinking := enableQmdLinking (settings s);
               useWebViewer := useWebViewer (settings s) |} in
  (setSettings st s, saveSettings st).

End Main.

(** * The second plugin source ([unnamed/part_001]) *)

Module Part001.

Record QmdPluginSettings := mkSettings {
  quartoPath : jsstring;
  autoPreview : bool }.

Definition DEFAULT_SETTINGS : QmdPluginSettings :=
  {| quartoPath := js "quarto"; autoPreview := false |}.

Record Plugin := mkPlugin {
  host : Host;
  settings : QmdPluginSettings;
  activePreviewProcesses : gmap jsstring nat;
  processes : list ChildProcess;
  notices : list jsstring }.

Definition setRegistry (r : gmap jsstring nat) (s : Plugin) : Plugin :=
  mkPlugin (host s) (settings s) r (processes s) (notices s).

Definition setProcesses (ps : list ChildProcess) (s : Plugin) : Plugin :=
  mkPlugin (host s) (settings s) (activePreviewProcesses s) ps (notices s).

Definition Notice (msg : jsstring) (s : Plugin) : Plugin :=
  mkPlugin (host s) (settings s) (activePreviewProcesses s) (processes s)
           (notices s ++ [msg]).

Definition onload (h : Host) (st : QmdPluginSettings) : Plugin :=
  {| host := h; settings := st; activePreviewProcesses := ∅;
     processes := []; notices := [] |}.

(** [startPreview]: the [try] block, and the [catch] block when [spawn]
    throws.  The second argument of the child is [file.path], the path
    inside the vault, although [filePath] has been computed. *)
Definition startPreview (file : TFile) (s : Plugin) : Plugin :=
  match activePreviewProcesses s !! path file with
  | Some _ => s
  | None =>
      let filePath := getFullPath (host s) (path file) in
      let workingDir := dirname (host s) filePath in
      match spawn (host s) (quartoPath (settings s))
                  [js "preview"; path file] workingDir true None with
      | Some process =>
          let process :=
            attach (path file) true false true None None process in
          let pid := length (processes s) in
          Notice (js "Quarto preview started")
            (setRegistry (<[path file := pid]> (activePreviewProcesses s))
               (setProcesses (processes s ++ [process]) s))
      | None => Notice (js "Failed to start Quarto preview") s
      end
  end.

(** The ['data'] listener of [process.stdout]. *)
Definition onStdoutData (pid : nat) (output : jsstring) (s : Plugin) : Plugin :=
  match processes s !! pid with
  | Some p =>
      if dataListener p then
        match readinessUrl output with
        | Some url => Notice (js "Preview available at " ++ url) s
        | None => s
        end
      else s
  | None => s
  end.

(** The process ends; no listener of the plugin hears of it. *)
Definition onExit (pid : nat) (s : Plugin) : Plugin :=
  setProcesses (alter exits pid (processes s)) s.

(** The process emits ['close']; it has ended by then.  The listener: *)
Definition onClose (pid : nat) (code : option N) (s : Plugin) : Plugin :=
  match processes s !! pid with
  | Some p =>
      let s0 := onExit pid s in
      if closeListener p then
        let s1 :=
          match code with
          | Some (Npos c) =>
              Notice (js "Quarto preview process exited with code "
                        ++ numberToString (Npos c)) s0
          | _ => s0
          end in
        setRegistry (delete (key p) (activePreviewProcesses s1)) s1
      else s0
  | None => s
  end.

(** The ['data'] listener of [process.stderr]; [startPreview] attaches it
    together with the one of [process.stdout] and neither is removed. *)
Definition onStderrData (pid : nat) (data : jsstring) (s : Plugin) : Plugin :=
  match processes s !! pid with
  | Some p =>
      if dataListener p then Notice (js "Quarto Preview Error: " ++ data) s
      else s
  | None => s
  end.

(** [stopPreview]: the process is killed without a look at its [killed]
    flag. *)
Definition stopPreview (file : TFile) (s : Plugin) : Plugin :=
  match activePreviewProcesses s !! path file with
  | Some pid =>
      Notice (js "Quarto preview stopped")
        (setRegistry (delete (path file) (activePreviewProcesses s))
           (setProcesses (alter kill pid (processes s)) s))
  | None => s
  end.

(** One round of the loop of [stopAllPreviews]. *)
Definition stopEntry (s : Plugin) (entry : jsstring * nat) : Plugin :=
  setRegistry (delete (fst entry) (activePreviewProcesses s))
    (setProcesses (alter kill (snd entry) (processes s)) s).

(** [stopAllPreviews]: the entries are copied into an array first, each is
    killed and deleted, and the size of the map is tested afterwards. *)
Definition stopAllPreviews (s : Plugin) : Plugin :=
  let s1 := foldl stopEntry s (map_to_list (activePreviewProcesses s)) in
  if (0 <? size (activePreviewProcesses s1))%nat
  then Notice (js "All Quarto previews stopped") s1
  else s1.

(** [togglePreview] *)
Definition togglePreview (file : TFile) (s : Plugin) : Plugin :=
  match activePreviewProcesses s !! path file with
  | Some _ => stopPreview file s
  | None => startPreview file s
  end.

Definition isQuartoFile (file : TFile) : bool :=
  bool_decide (extension file = js "qmd").

(** The callback of the ribbon icon and of the command
    [toggle-quarto-preview]; [activeFile] is [activeView?.file]. *)
Definition toggleActive (activeFile : option TFile) (s : Plugin) : Plugin :=
  match activeFile with
  | Some file =>
      if isQuartoFile file then togglePreview file s
      else Notice (js "Current file is not a Quarto document") s
  | None => Notice (js "Current file is not a Quarto document") s
  end.

(** The ['active-leaf-change'] handler; [viewFile] is the file of the
    leaf when the leaf shows a Markdown view, [None] otherwise.  The
    setting is read when the event arrives. *)
Definition onActiveLeafChange (viewFile : option TFile) (s : Plugin) : Plugin :=
  if autoPreview (settings s) then
    match viewFile with
    | Some file => if isQuartoFile file then startPreview file s else s
    | None => s
    end
  else s.

Definition setSettings (st : QmdPluginSettings) (s : Plugin) : Plugin :=
  mkPlugin (host s) st (activePreviewProcesses s) (processes s) (notices s).

(** What can happen to the loaded plugin. *)
Inductive Action :=
| ToggleActive (activeFile : option TFile)
| ActiveLeafChange (viewFile : option TFile)
| StopAll
| TogglePreview (file : TFile)
| StartPreview (file : TFile)
| StopPreview (file : TFile)
| ChangeSettings (st : QmdPluginSettings)
| StdoutData (pid : nat) (output : jsstring)
| StderrData (pid : nat) (data : jsstring)
| ProcessExit (pid : nat)
| ProcessClose (pid : nat) (code : option N).

Definition step (s : Plugin) (a : Action) : Plugin :=
  match a with
  | ToggleActive f => toggleActive f s
  | ActiveLeafChange f => onActiveLeafChange f s
  | StopAll => stopAllPreviews s
  | TogglePreview f => togglePreview f s
  | StartPreview f => startPreview f s
  | StopPreview f => stopPreview f s
  | ChangeSettings st => setSettings st s
  | StdoutData pid output => onStdoutData pid output s
  | StderrData pid data => onStderrData pid data s
  | ProcessExit pid => onExit pid s
  | ProcessClose pid code => onClose pid code s
  end.

Definition run (s : Plugin) (actions : list Action) : Plugin :=
  foldl step s actions.

End Part001.

(** * The snapshot reproduced in [README.md] (settings [quartoTypst],
      [emitCompilationLogs]) *)

Module Readme.

Record QmdPluginSettings := mkSettings {
  quartoPath : jsstring;
  enableQmdLinking : bool;
  quartoTypst : jsstring;
  emitCompilationLogs : bool }.

Definition DEFAULT_SETTINGS : QmdPluginSettings :=
  {| quartoPath := js "quarto"; enableQmdLinking := true;
     quartoTypst := []; emitCompilationLogs := true |}.

(** [processEnv] is [process.env] of the host application; [isFile] tells
    whether [getAbstractFileByPath] finds a [TFile] at a path. *)
Record Plugin := mkPlugin {
  host : Host;
  processEnv : gmap jsstring jsstring;
  isFile : jsstring -> bool;
  settings : QmdPluginSettings;
  activePreviewProcesses : gmap jsstring nat;
  processes : list ChildProcess;
  notices : list jsstring }.

Definition setRegistry (r : gmap jsstring nat) (s : Plugin) : Plugin :=
  mkPlugin (host s) (processEnv s) (isFile s) (settings s) r (processes s)
           (notices s).

Definition setProcesses (ps : list ChildProcess) (s : Plugin) : Plugin :=
  mkPlugin (host s) (processEnv s) (isFile s) (settings s)
           (activePreviewProcesses s) ps (notices s).

Definition Notice (msg : jsstring) (s : Plugin) : Plugin :=
  mkPlugin (host s) (processEnv s) (isFile s) (settings s)
           (activePreviewProcesses s) (processes s) (notices s ++ [msg]).

(** The environment handed to [spawn]:
<<
    const envVars = { ...process.env };
    if (this.settings.quartoTypst.trim()) {
      envVars.QUARTO_TYPST = this.settings.quartoTypst.trim();
    }
>> *)
Definition envVars (st : QmdPluginSettings) (inherited : gmap jsstring jsstring)
    : gmap jsstring jsstring :=
  let copy := inherited in
  match trim (quartoTypst st) with
  | [] => copy
  | c :: v => <[js "QUARTO_TYPST" := c :: v]> copy
  end.

(** The overrides the user configured, in the words of the specification:
    the settings offer one variable, [QUARTO_TYPST], set when the field is
    not blank. *)
Definition environmentOverrides (st : QmdPluginSettings)
    : gmap jsstring jsstring :=
  match trim (quartoTypst st) with
  | [] => ∅
  | v => {[ js "QUARTO_TYPST" := v ]}
  end.

(** [startPreview] of the snapshot: the [try] block, and the [catch]
    block when [spawn] throws. *)
Definition startPreview (file : TFile) (s : Plugin) : Plugin :=
  match activePreviewProcesses s !! path file with
  | Some _ => s
  | None =>
      if isFile s (path file) then
        let filePath := getFullPath (host s) (path file) in
        let workingDir := dirname (host s) filePath in
        match spawn (host s) (quartoPath (settings s))
                    [js "preview"; filePath] workingDir false
                    (Some (envVars (settings s) (processEnv s))) with
        | Some quartoProcess =>
            let quartoProcess :=
              attach (path file) true false true None None quartoProcess in
            let pid := length (processes s) in
            Notice (js "Quarto preview started")
              (setRegistry (<[path file := pid]> (activePreviewProcesses s))
                 (setProcesses (processes s ++ [quartoProcess]) s))
        | None => Notice (js "Failed to start Quarto preview") s
        end
      else Notice (js "File " ++ path file ++ js " not found") s
  end.

End Readme.

(** A vault at [/vault] on a POSIX system, for the examples: the directory
    of a path is what stands before its last slash. *)
Definition posixDirname (p : jsstring) : jsstring :=
  match span (fun c => negb (c =? 47)) (rev p) with
  | (_, []) => js "."
  | (_, _ :: r) => match rev r with
                   | [] => js "/"
                   | d => d
                   end
  end.

Definition vaultHost : Host :=
  {| getFullPath := fun p => js "/vault/" ++ p;
     dirname := posixDirname;
     isMobile := false;
     refuses := fun _ _ _ => false |}.

Definition doc : TFile := {| path := js "notes/doc.qmd"; extension := js "qmd" |}.

Definition marker : jsstring := js "Browse at http://localhost:4000/
".


(** * Notions used to state the properties *)

(** [rest] is empty or starts with a code unit that fails [f]: a run of
    code units satisfying [f] cannot be extended into [rest]. *)
Definition stopsAt (f : N -> bool) (rest : jsstring) : Prop :=
  match rest with
  | [] => True
  | c :: _ => f c = false
  end.

Definition notWhiteSpace (c : N) : bool := negb (isWhiteSpace c).

(** [output] holds, after [pre], the words "Browse at", the white space
    [ws], the scheme and the rest [body] of a URL, and then [post]. *)
Definition markerAt (scheme output pre ws body post : jsstring) : Prop :=
  output = pre ++ BrowseAt ++ ws ++ scheme ++ body ++ post
  /\ ws <> []
  /\ Forall (fun c => isWhiteSpace c = true) ws
  /\ body <> []
  /\ Forall (fun c => notWhiteSpace c = true) body.

(** The marker of the specification: "Browse at", white space, and a URL
    that begins with [http://] or [https://]. *)
Definition specMarker (output : jsstring) : Prop :=
  exists scheme pre ws body post,
    (scheme = httpScheme \/ scheme = httpsScheme)
    /\ markerAt scheme output pre ws body post.

(** The marker the code looks for. *)
Definition httpMarker (output : jsstring) : Prop :=
  exists pre ws body post, markerAt httpScheme output pre ws body post.

(** The URL of the first chunk that carries a marker. *)
Fixpoint firstMarker (chunks : list jsstring) : option jsstring :=
  match chunks with
  | [] => None
  | output :: later =>
      match readinessUrl output with
      | Some url => Some url
      | None => firstMarker later
      end
  end.

(** The registry and the store agree: every entry refers to a process of
    the store on which [kill()] was never called, and no process is entered
    under two paths. *)
Definition consistent (s : Main.Plugin) : Prop :=
  (forall k pid, Main.activePreviewProcesses s !! k = Some pid ->
     exists p, Main.processes s !! pid = Some p
               /\ killed p = false /\ signals p = 0%nat)
  /\ (forall k1 k2 pid,
        Main.activePreviewProcesses s !! k1 = Some pid ->
        Main.activePreviewProcesses s !! k2 = Some pid -> k1 = k2).

(** [s'] has no entry that [s] lacks, and its processes are those of [s]
    with the signals they had. *)
Definition quiet (s s' : Main.Plugin) : Prop :=
  (forall k pid, Main.activePreviewProcesses s' !! k = Some pid ->
                 Main.activePreviewProcesses s !! k = Some pid)
  /\ (forall pid p, Main.processes s !! pid = Some p ->
        exists p', Main.processes s' !! pid = Some p'
                   /\ killed p' = killed p /\ signals p' = signals p).

(** A method that leaves the signal count and the [killed] flag alone. *)
Definition harmless (f : ChildProcess -> ChildProcess) : Prop :=
  forall p, killed (f p) = killed p /\ signals (f p) = signals p.

Definition timedOut : jsstring := js "Preview startup timed out".

(** A second document of the example vault. *)
Definition doc2 : TFile := {| path := js "paper.qmd"; extension := js "qmd" |}.

(** What the promise becomes when chunks arrive: nothing changes a settled
    promise, the first marker settles a pending one. *)
Definition settle (pr : Promise) (chunks : list jsstring) : Promise :=
  match pr with
  | Pending => match firstMarker chunks with
               | Some url => Resolved (Some url)
               | None => Pending
               end
  | Resolved v => Resolved v
  end.

(** The notice the second source shows when a process closes: none for
    [null] and for [0]. *)
Definition exitNotice (code : option N) : list jsstring :=
  match code with
  | Some (Npos c) =>
      [js "Quarto preview process exited with code " ++ numberToString (Npos c)]
  | _ => []
  end.

(** The environment the child of [spawn] runs in: the [env] option when
    one was given, the environment of the parent otherwise. *)
Definition childEnvironment (inherited : gmap jsstring jsstring)
    (p : ChildProcess) : gmap jsstring jsstring :=
  match env p with
  | Some e => e
  | None => inherited
  end.

(** A host whose environment already defines [QUARTO_TYPST], and settings
    that override it. *)
Definition typstEnv : gmap jsstring jsstring :=
  <[js "QUARTO_TYPST" := js "/usr/bin/typst"]> (<[js "HOME" := js "/home/u"]> ∅).

Definition typstSettings : Readme.QmdPluginSettings :=
  {| Readme.quartoPath := js "quarto"; Readme.enableQmdLinking := true;
     Readme.quartoTypst := js "  /opt/typst  ";
     Readme.emitCompilationLogs := true |}.

Definition typstPlugin : Readme.Plugin :=
  {| Readme.host := vaultHost; Readme.processEnv := typstEnv;
     Readme.isFile := fun _ => true; Readme.settings := typstSettings;
     Readme.activePreviewProcesses := ∅; Readme.processes := [];
     Readme.notices := [] |}.

(** An action that brings neither a marker nor an event of a process:
    output without the marker, or time passing. *)
Definition silent (a : Main.Action) : Prop :=
  match a with
  | Main.StdoutData _ output _ => readinessUrl output = None
  | Main.Elapse _ => True
  | _ => False
  end.

(** The time a list of actions lets pass. *)
Definition elapsed (actions : list Main.Action) : N :=
  foldr (fun a t => match a with
                    | Main.Elapse dt => dt + t
                    | _ => t
                    end) 0 actions.

(** The process [startPreviewAndGetUrl file] adds to the store of [s]. *)
Definition started (s : Main.Plugin) (file : TFile) : ChildProcess :=
  attach (path file) true true true
    (Some (Main.clock s + Main.startupTimeout)) (Some Pending)
    (child (Main.quartoPath (Main.settings s))
       [js "preview"; getFullPath (Main.host s) (path file)]
       (dirname (Main.host s) (getFullPath (Main.host s) (path file)))
       false None).

(** [st] is what the session started from [s] for [file] has become when
    [e] milliseconds have passed in silence: the process as it was
    started until the deadline, timed out from then on. *)
Definition waiting (s : Main.Plugin) (file : TFile) (st : Main.Plugin) (e : N)
    : Prop :=
  Main.clock st = Main.clock s + e
  /\ Main.activePreviewProcesses st !! path file
     = Some (length (Main.processes s))
  /\ Main.processes st !! length (Main.processes s)
     = Some (if e <? Main.startupTimeout then started s file
             else setPromise (Resolved None) (cleanup (started s file)))
  /\ exists n, Main.notices st = Main.notices s ++ replicate n timedOut
               /\ (Main.startupTimeout <= e -> n <> 0%nat).

(** [p'] is [p] later in its life: spawned as [p] was, for the same
    document, and with the promise [p] had if that was settled. *)
Definition keeps (p p' : ChildProcess) : Prop :=
  spawnfile p' = spawnfile p /\ spawnargs p' = spawnargs p
  /\ cwd p' = cwd p /\ key p' = key p
  /\ (forall v, promise p = Some (Resolved v) -> promise p' = Some (Resolved v)).

(** [pid] has no entry in the registry of [s]. *)
Definition unregistered (s : Main.Plugin) (pid : nat) : Prop :=
  forall k, Main.activePreviewProcesses s !! k <> Some pid.

(** [s'] comes after [s]: the store has only grown, an entry of the
    registry is an entry of [s] or refers to a process spawned since, and
    a process of [s] is kept, with the signals it had if it had no entry
    in [s]. *)
Definition follows (s s' : Main.Plugin) : Prop :=
  (length (Main.processes s) <= length (Main.processes s'))%nat
  /\ (forall k pid, Main.activePreviewProcesses s' !! k = Some pid ->
        Main.activePreviewProcesses s !! k = Some pid
        \/ (length (Main.processes s) <= pid)%nat)
  /\ (forall pid p, Main.processes s !! pid = Some p ->
        exists p', Main.processes s' !! pid = Some p' /\ keeps p p'
                   /\ (unregistered s pid -> signals p' = signals p)).

(** At most one call of [kill()] was made on the process, and one was
    made if its [killed] flag is set. *)
Definition tidy (p : ChildProcess) : Prop :=
  (signals p <= 1)%nat /\ (killed p = true -> signals p = 1%nat).

(** [spawn] returns for the call that [startPreviewAndGetUrl file] and
    [startPreview file] of [src/main.ts] make in [s]. *)
Definition spawns (s : Main.Plugin) (file : TFile) : Prop :=
  spawnThrows (Main.host s) (Main.quartoPath (Main.settings s))
    [js "preview"; getFullPath (Main.host s) (path file)]
    (dirname (Main.host s) (getFullPath (Main.host s) (path file))) = false.

(** The same for [startPreview file] of the second source. *)
Definition spawns001 (s : Part001.Plugin) (file : TFile) : Prop :=
  spawnThrows (Part001.host s) (Part001.quartoPath (Part001.settings s))
    [js "preview"; path file]
    (dirname (Part001.host s) (getFullPath (Part001.host s) (path file)))
  = false.

(** The same for [startPreview file] of the snapshot in the README. *)
Definition spawnsReadme (s : Readme.Plugin) (file : TFile) : Prop :=
  spawnThrows (Readme.host s) (Readme.quartoPath (Readme.settings s))
    [js "preview"; getFullPath (Readme.host s) (path file)]
    (dirname (Readme.host s) (getFullPath (Readme.host s) (path file)))
  = false.

(** The process [startPreview file] of [src/main.ts] adds to the store of
    [s]. *)
Definition startedExternal (s : Main.Plugin) (file : TFile) : ChildProcess :=
  attach (path file) false false true None None
    (child (Main.quartoPath (Main.settings s))
       [js "preview"; getFullPath (Main.host s) (path file)]
       (dirname (Main.host s) (getFullPath (Main.host s) (path file)))
       false None).

(** [url] was extracted from some chunk of output. *)
Definition announced (url : jsstring) : Prop :=
  exists output, readinessUrl output = Some url.

(** Every viewer the plugin has recorded is an open leaf, the leaf of that
    document only, and shows a URL that was extracted from the output and
    that settled the promise of a process spawned for that document. *)
Definition shown (s : Main.Plugin) : Prop :=
  (forall k l, Main.activeWebViewers s !! k = Some l ->
     exists leaf,
       Main.leaves s !! l = Some leaf /\ detached leaf = false
       /\ announced (viewUrl leaf)
       /\ exists pid p,
            Main.processes s !! pid = Some p /\ key p = k
            /\ promise p = Some (Resolved (Some (viewUrl leaf))))
  /\ (forall k1 k2 l, Main.activeWebViewers s !! k1 = Some l ->
                      Main.activeWebViewers s !! k2 = Some l -> k1 = k2).

(** What the user and the processes can do to the plugin through the
    ribbon icon, the command, the settings tab, the opening of files, the
    events of the processes, time and the unloading; the methods the
    plugin calls on itself are left out. *)
Definition external (a : Main.Action) : Prop :=
  match a with
  | Main.Ribbon _ | Main.Command _ | Main.FileOpen _ | Main.Unload
  | Main.ChangeSettings _ | Main.StdoutData _ _ _ | Main.ProcessError _
  | Main.ProcessExit _ | Main.ProcessClose _ _ | Main.Elapse _ => True
  | _ => False
  end.

(** A process as [startPreview] sets it up: it is listened to for its
    ['close'] only, has no timer and no promise. *)
Definition unwatched (p : ChildProcess) : Prop :=
  dataListener p = false /\ errorListener p = false
  /\ timeoutId p = None /\ promise p = None.

(** The plugin on a host without web viewer: no leaf, no viewer, and only
    processes that are not watched. *)
Definition plain (s : Main.Plugin) : Prop :=
  isMobile (Main.host s) = true
  /\ Main.leaves s = [] /\ Main.activeWebViewers s = ∅
  /\ Forall unwatched (Main.processes s)
  /\ Forall (fun msg => msg = Main.notQuarto) (Main.notices s).

(** The registry and the store of the second source agree, as [consistent]
    says for [src/main.ts]. *)
Definition consistent001 (s : Part001.Plugin) : Prop :=
  (forall k pid, Part001.activePreviewProcesses s !! k = Some pid ->
     exists p, Part001.processes s !! pid = Some p
               /\ killed p = false /\ signals p = 0%nat)
  /\ (forall k1 k2 pid,
        Part001.activePreviewProcesses s !! k1 = Some pid ->
        Part001.activePreviewProcesses s !! k2 = Some pid -> k1 = k2).

(** The notices the second source shows for a list of chunks of
    standard output: one for each chunk that carries a marker. *)
Definition urlNotices (chunks : list jsstring) : list jsstring :=
  omap (fun output =>
          match readinessUrl output with
          | Some url => Some (js "Preview available at " ++ url)
          | None => None
          end) chunks.

(** * Properties *)

(** ** Strings and the readiness pattern *)

(** The line of the specification's example, and one that is not a
    marker. *)
Example readiness_localhost :
  readinessUrl marker = Some (js "http://localhost:4000/").
Proof. reflexivity. Qed.

Example readiness_not_ready :
  readinessUrl (js "Preparing to preview") = None.
Proof. reflexivity. Qed.

Section Strings.

Implicit Types (s p r u pre post ws body : jsstring) (f : N -> bool).

Lemma stripPrefix_Some p s r : stripPrefix p s = Some r <-> s = p ++ r.
Proof.
  revert s; induction p as [|a p IH]; intros [|b s]; simpl.
  - split; congruence.
  - split; congruence.
  - split; [discriminate | intros H; discriminate H].
  - destruct (N.eqb_spec a b) as [->|Hab].
    + rewrite IH. split; [intros ->; reflexivity | intros [= ->]; reflexivity].
    + split; [discriminate | intros [= E _]; congruence].
Qed.

Lemma stripPrefix_app p r : stripPrefix p (p ++ r) = Some r.
Proof. by apply stripPrefix_Some. Qed.

Lemma includes_true s p :
  includes s p = true <-> exists pre post, s = pre ++ p ++ post.
Proof.
  induction s as [|c s IH]; simpl.
  - destruct (stripPrefix p []) as [r|] eqn:E.
    + apply stripPrefix_Some in E. split; [|done].
      intros _. exists [], r. done.
    + split; [discriminate|]. intros (pre & post & H).
      destruct pre; [|discriminate H]. simpl in H.
      rewrite H, stripPrefix_app in E. discriminate E.
  - destruct (stripPrefix p (c :: s)) as [r|] eqn:E.
    + apply stripPrefix_Some in E. split; [|done].
      intros _. exists [], r. done.
    + rewrite IH. split.
      * intros (pre & post & ->). by exists (c :: pre), post.
      * intros ([|c' pre] & post & H); simpl in H.
        -- rewrite H, stripPrefix_app in E. discriminate E.
        -- injection H as -> ->. by exists pre, post.
Qed.

Lemma span_spec f s :
  s = fst (span f s) ++ snd (span f s)
  /\ Forall (fun c => f c = true) (fst (span f s))
  /\ stopsAt f (snd (span f s)).
Proof.
  induction s as [|c s (IH1 & IH2 & IH3)]; simpl.
  - repeat split. constructor.
  - destruct (f c) eqn:Hc.
    + destruct (span f s) as [a b]; simpl in *.
      repeat split; [by f_equal | by constructor | done].
    + simpl. repeat split; [constructor | done].
Qed.

Lemma span_unique f a b :
  Forall (fun c => f c = true) a -> stopsAt f b -> span f (a ++ b) = (a, b).
Proof.
  intros Ha Hb. induction Ha as [|c a Hc _ IH]; simpl.
  - destruct b as [|c b]; simpl in *; [done | by rewrite Hb].
  - by rewrite Hc, IH.
Qed.

Lemma span_fst_app f a b :
  Forall (fun c => f c = true) a ->
  fst (span f (a ++ b)) = a ++ fst (span f b).
Proof.
  intros Ha. induction Ha as [|c a Hc _ IH]; simpl; [done|].
  rewrite Hc. destruct (span f (a ++ b)); simpl in *. by f_equal.
Qed.

End Strings.

Section Readiness.

Implicit Types (s r u pre post ws body output : jsstring).

Lemma httpScheme_stops : forall rest, stopsAt isWhiteSpace (httpScheme ++ rest).
Proof. intros rest. reflexivity. Qed.

(** The anchored match, from a decomposition of the input. *)
Lemma matchHere_marker ws body post :
  markerAt httpScheme (BrowseAt ++ ws ++ httpScheme ++ body ++ post)
           [] ws body post ->
  matchHere (BrowseAt ++ ws ++ httpScheme ++ body ++ post)
  = Some (httpScheme ++ body ++ fst (span notWhiteSpace post)).
Proof.
  intros (_ & Hws & Hsp & Hb & Hns).
  unfold matchHere. rewrite stripPrefix_app.
  rewrite (span_unique isWhiteSpace ws _ Hsp (httpScheme_stops _)).
  destruct ws as [|w ws]; [done|].
  rewrite stripPrefix_app.
  change (fun c => negb (isWhiteSpace c)) with notWhiteSpace.
  rewrite (span_fst_app notWhiteSpace body post Hns).
  destruct body as [|b body]; [done|]. reflexivity.
Qed.

(** The anchored match, read back: the white space and the body are the
    longest runs. *)
Lemma matchHere_inv s u :
  matchHere s = Some u ->
  exists ws body post,
    markerAt httpScheme s [] ws body post
    /\ stopsAt notWhiteSpace post /\ u = httpScheme ++ body.
Proof.
  unfold matchHere. intros H.
  destruct (stripPrefix BrowseAt s) as [r1|] eqn:E1; [|done].
  apply stripPrefix_Some in E1.
  destruct (span_spec isWhiteSpace r1) as (A1 & A2 & _).
  destruct (span isWhiteSpace r1) as [ws r2]; cbn [fst snd] in *.
  destruct ws as [|w ws]; [done|].
  destruct (stripPrefix httpScheme r2) as [r3|] eqn:E3; [|done].
  apply stripPrefix_Some in E3.
  change (fun c => negb (isWhiteSpace c)) with notWhiteSpace in H.
  destruct (span_spec notWhiteSpace r3) as (B1 & B2 & B3).
  destruct (span notWhiteSpace r3) as [body post]; cbn [fst snd] in *.
  destruct body as [|b body]; [done|]. injection H as <-.
  exists (w :: ws), (b :: body), post. repeat split; try done.
  subst. reflexivity.
Qed.

Lemma matchHere_is_Some s :
  is_Some (matchHere s) <->
  exists ws body post, markerAt httpScheme s [] ws body post.
Proof.
  split.
  - intros [u Hu]. destruct (matchHere_inv _ _ Hu) as (ws & body & post & H & _).
    by exists ws, body, post.
  - intros (ws & body & post & Hs & H).
    change (s = BrowseAt ++ ws ++ httpScheme ++ body ++ post) in Hs. subst s.
    rewrite (matchHere_marker ws body post); [done | by split].
Qed.

(** The unanchored match is the anchored match at the least start index
    that has one. *)
Lemma regexMatch_Some s u :
  regexMatch s = Some u <->
  exists pre rest,
    s = pre ++ rest /\ matchHere rest = Some u
    /\ forall pre' rest', s = pre' ++ rest' -> is_Some (matchHere rest') ->
                          (length pre <= length pre')%nat.
Proof.
  revert u. induction s as [|c s IH]; intros u; simpl.
  - destruct (matchHere []) eqn:E; [done|]. split; [done|].
    intros (pre & rest & H & Hm & _).
    apply eq_sym, app_eq_nil in H as [-> ->]. congruence.
  - destruct (matchHere (c :: s)) as [u0|] eqn:E.
    + split.
      * intros [= <-]. exists [], (c :: s). repeat split; [done|].
        intros; simpl; lia.
      * intros (pre & rest & H & Hm & Hmin).
        assert (Hl : (length pre <= 0)%nat).
        { apply (Hmin [] (c :: s)); [done | by rewrite E]. }
        destruct pre; [|simpl in Hl; lia]. simpl in H. subst rest. congruence.
    + rewrite IH. split.
      * intros (pre & rest & Hs & Hm & Hmin). subst s.
        exists (c :: pre), rest. repeat split; [done|].
        intros [|c' pre'] rest' H Hs; simpl in H.
        -- subst rest'. rewrite E in Hs. by destruct Hs.
        -- injection H as -> H. simpl. specialize (Hmin pre' rest' H Hs). lia.
      * intros ([|c' pre] & rest & H & Hm & Hmin); simpl in H.
        -- subst rest. congruence.
        -- injection H as Hc' Hs'. subst c' s.
           exists pre, rest. repeat split; [done|].
           intros pre' rest' Heq Hs.
           assert (Hc : c :: pre ++ rest = (c :: pre') ++ rest')
             by (simpl; by f_equal).
           specialize (Hmin (c :: pre') rest' Hc Hs). simpl in Hmin. lia.
Qed.

Lemma regexMatch_None s :
  regexMatch s = None <->
  forall pre rest, s = pre ++ rest -> matchHere rest = None.
Proof.
  induction s as [|c s IH]; simpl.
  - destruct (matchHere []) eqn:E; [done|]. split; [|done].
    intros _ pre rest H. apply eq_sym, app_eq_nil in H as [-> ->]. done.
  - destruct (matchHere (c :: s)) as [u0|] eqn:E.
    + split; [done|]. intros H. specialize (H [] (c :: s) eq_refl). congruence.
    + rewrite IH. split.
      * intros H [|c' pre] rest Hs; simpl in Hs; [by subst|].
        injection Hs as -> Hs. by apply (H pre).
      * intros H pre rest ->. by apply (H (c :: pre)).
Qed.

(** The guard [includes('Browse at')] and the test of [match[1]] never
    reject what the pattern matched. *)
Lemma readinessUrl_regexMatch output : readinessUrl output = regexMatch output.
Proof.
  unfold readinessUrl. destruct (regexMatch output) as [u|] eqn:E.
  - apply regexMatch_Some in E as (pre & rest & -> & Hm & _).
    apply matchHere_inv in Hm as (ws & body & post & (-> & _) & _ & ->).
    replace (includes _ _) with true; [done|].
    symmetry. apply includes_true. simpl. eauto.
  - by destruct (includes output BrowseAt).
Qed.

End Readiness.

Section Marker.

Implicit Types (s r u pre post ws body output scheme : jsstring).

Lemma markerAt_shift scheme pre rest ws body post :
  markerAt scheme rest [] ws body post ->
  markerAt scheme (pre ++ rest) pre ws body post.
Proof.
  intros (Hs & H). split; [|done].
  change (rest = BrowseAt ++ ws ++ scheme ++ body ++ post) in Hs. by subst.
Qed.

Lemma markerAt_unshift scheme output pre ws body post :
  markerAt scheme output pre ws body post ->
  exists rest, output = pre ++ rest /\ markerAt scheme rest [] ws body post.
Proof.
  intros (Hs & H). exists (BrowseAt ++ ws ++ scheme ++ body ++ post).
  split; [done|]. by split.
Qed.

Lemma span_stops f post : stopsAt f post -> fst (span f post) = [].
Proof. destruct post as [|c post]; simpl; [done|]. by intros ->. Qed.

(** A chunk is accepted exactly when it carries the [http://] marker. *)
Lemma readinessUrl_accepts output :
  is_Some (readinessUrl output) <-> httpMarker output.
Proof.
  rewrite readinessUrl_regexMatch. split.
  - intros [u Hu]. apply regexMatch_Some in Hu as (pre & rest & -> & Hm & _).
    apply matchHere_inv in Hm as (ws & body & post & H & _).
    exists pre, ws, body, post. by apply markerAt_shift.
  - intros (pre & ws & body & post & H).
    apply markerAt_unshift in H as (rest & -> & H).
    destruct (regexMatch (pre ++ rest)) as [u|] eqn:E; [done|].
    assert (Hn : matchHere rest = None)
      by (eapply regexMatch_None; [exact E | reflexivity]).
    assert (Hs : is_Some (matchHere rest))
      by (apply matchHere_is_Some; eauto).
    rewrite Hn in Hs. by destruct Hs.
Qed.

(** What is extracted: the URL of the leftmost marker, up to the next
    white space or the end of the chunk. *)
Lemma readinessUrl_extracts output u :
  readinessUrl output = Some u <->
  exists pre ws body post,
    markerAt httpScheme output pre ws body post
    /\ stopsAt notWhiteSpace post
    /\ u = httpScheme ++ body
    /\ forall pre' ws' body' post',
         markerAt httpScheme output pre' ws' body' post' ->
         (length pre <= length pre')%nat.
Proof.
  rewrite readinessUrl_regexMatch, regexMatch_Some. split.
  - intros (pre & rest & -> & Hm & Hmin).
    apply matchHere_inv in Hm as (ws & body & post & H & Hstop & ->).
    exists pre, ws, body, post.
    split; [by apply markerAt_shift|]. do 2 (split; [done|]).
    intros pre' ws' body' post' H'.
    apply markerAt_unshift in H' as (rest' & Heq & H').
    apply (Hmin pre' rest' Heq). apply matchHere_is_Some. eauto.
  - intros (pre & ws & body & post & H & Hstop & -> & Hmin).
    apply markerAt_unshift in H as (rest & -> & H).
    exists pre, rest. split; [done|]. split.
    + pose proof H as (Hs & _).
      change (rest = BrowseAt ++ ws ++ httpScheme ++ body ++ post) in Hs.
      subst rest. rewrite (matchHere_marker ws body post H).
      by rewrite (span_stops _ _ Hstop), app_nil_r.
    + intros pre' rest' Heq Hs.
      apply matchHere_is_Some in Hs as (ws' & body' & post' & H').
      apply (Hmin pre' ws' body' post'). rewrite Heq. by apply markerAt_shift.
Qed.

End Marker.

(** ** The registry of [src/main.ts] *)

Section Registry.

Import Main.

Implicit Types (s : Plugin) (p : ChildProcess) (pid : nat) (k : jsstring).

Lemma quiet_refl s : quiet s s.
Proof. split; [done|]. intros pid p H. by exists p. Qed.

Lemma quiet_trans s1 s2 s3 : quiet s1 s2 -> quiet s2 s3 -> quiet s1 s3.
Proof.
  intros [A1 A2] [B1 B2]. split.
  - intros k pid H. by apply A1, B1.
  - intros pid p H. destruct (A2 _ _ H) as (p2 & H2 & K2 & S2).
    destruct (B2 _ _ H2) as (p3 & H3 & K3 & S3).
    exists p3. split; [done|]. split; congruence.
Qed.

Lemma consistent_quiet s s' : consistent s -> quiet s s' -> consistent s'.
Proof.
  intros [C1 C2] [Q1 Q2]. split.
  - intros k pid H. destruct (C1 _ _ (Q1 _ _ H)) as (p & Hp & Hk & Hs).
    destruct (Q2 _ _ Hp) as (p' & Hp' & Hk' & Hs').
    exists p'. split; [done|]. split; congruence.
  - intros k1 k2 pid H1 H2. eapply C2; eauto.
Qed.

Lemma harmless_cleanup : harmless cleanup.
Proof. by intros p. Qed.

Lemma harmless_setPromise pr : harmless (setPromise pr).
Proof. by intros p. Qed.

Lemma harmless_setAwaited : harmless setAwaited.
Proof. by intros p. Qed.

Lemma harmless_exits : harmless exits.
Proof. by intros p. Qed.

(** The two ways a start can go: [spawn] returns and the process is
    entered, or it throws and nothing has happened. *)
Lemma startPreviewAndGetUrl_spawned file s :
  spawns s file ->
  startPreviewAndGetUrl file s
  = (setRegistry (<[path file := length (processes s)]>
                    (activePreviewProcesses s))
       (setProcesses (processes s ++ [started s file]) s),
     Spawned (length (processes s))).
Proof.
  unfold spawns, startPreviewAndGetUrl, spawn. by intros ->.
Qed.

Lemma startPreviewAndGetUrl_rejected file s :
  ~ spawns s file -> startPreviewAndGetUrl file s = (s, Rejected).
Proof.
  unfold spawns, startPreviewAndGetUrl, spawn. intros H.
  by destruct (spawnThrows _ _ _ _).
Qed.

Lemma spawns_dec file s : spawns s file \/ ~ spawns s file.
Proof. unfold spawns. destruct (spawnThrows _ _ _ _); [by right | by left]. Qed.

Lemma startPreview_spawned file s :
  activePreviewProcesses s !! path file = None -> spawns s file ->
  startPreview file s
  = setRegistry (<[path file := length (processes s)]>
                   (activePreviewProcesses s))
      (setProcesses (processes s ++ [startedExternal s file]) s).
Proof.
  unfold spawns, startPreview, spawn. by intros -> ->.
Qed.

Lemma startPreview_rejected file s :
  ~ spawns s file -> startPreview file s = s.
Proof.
  unfold spawns, startPreview, spawn. intros H.
  destruct (activePreviewProcesses s !! path file); [done|].
  by destruct (spawnThrows _ _ _ _).
Qed.

Lemma quiet_onProcess pid f s : harmless f -> quiet s (onProcess pid f s).
Proof.
  intros Hf. split; [done|]. intros pid' p H. simpl.
  destruct (decide (pid = pid')) as [<-|Hne].
  - exists (f p). rewrite list_lookup_alter_eq, H. split; [done|]. apply Hf.
  - exists p. by rewrite list_lookup_alter_ne.
Qed.

Lemma quiet_afterAwait k v leaf s : quiet s (afterAwait k v leaf s).
Proof.
  unfold afterAwait. destruct v as [[|c u]|]; try apply quiet_refl.
  destruct leaf; split; simpl; eauto.
Qed.

Lemma quiet_resolve pid v leaf s : quiet s (resolve pid v leaf s).
Proof.
  unfold resolve. destruct (processes s !! pid) as [p|]; [|apply quiet_refl].
  destruct (promise p) as [[|r]|]; try apply quiet_refl.
  destruct (awaited p).
  - eapply quiet_trans; [|apply quiet_afterAwait].
    apply quiet_onProcess, harmless_setPromise.
  - apply quiet_onProcess, harmless_setPromise.
Qed.

Lemma quiet_onStdoutData pid output leaf s :
  quiet s (onStdoutData pid output leaf s).
Proof.
  unfold onStdoutData.
  destruct (processes s !! pid) as [p|]; [|apply quiet_refl].
  destruct (dataListener p); [|apply quiet_refl].
  destruct (readinessUrl output); [|apply quiet_refl].
  eapply quiet_trans; [|apply quiet_resolve].
  apply quiet_onProcess, harmless_cleanup.
Qed.

Lemma quiet_onError pid s : quiet s (onError pid s).
Proof.
  unfold onError.
  destruct (processes s !! pid) as [p|]; [|apply quiet_refl].
  destruct (errorListener p); [|apply quiet_refl].
  eapply quiet_trans; [|apply quiet_resolve].
  apply quiet_onProcess, harmless_cleanup.
Qed.

Lemma quiet_onExit pid s : quiet s (onExit pid s).
Proof. apply quiet_onProcess, harmless_exits. Qed.

Lemma quiet_onClose pid code s : quiet s (onClose pid code s).
Proof.
  unfold onClose.
  destruct (processes s !! pid) as [p|]; [|apply quiet_refl].
  destruct (closeListener p); [|apply quiet_onExit].
  eapply quiet_trans; [apply quiet_onExit|].
  split; simpl; [|eauto]. intros k pid' H.
  apply lookup_delete_Some in H. tauto.
Qed.

Lemma quiet_onTimeout pid s : quiet s (onTimeout pid s).
Proof.
  unfold onTimeout.
  eapply quiet_trans; [apply (quiet_onProcess pid cleanup), harmless_cleanup|].
  eapply quiet_trans; [apply quiet_resolve|].
  split; simpl; eauto.
Qed.

Lemma quiet_fires t l s : quiet s (foldl (fireIfDue t) s l).
Proof.
  revert s. induction l as [|pid l IH]; intros s; simpl; [apply quiet_refl|].
  eapply quiet_trans; [|apply IH].
  unfold fireIfDue. destruct (due t pid s); [apply quiet_onTimeout|apply quiet_refl].
Qed.

Lemma quiet_elapse dt s : quiet s (elapse dt s).
Proof.
  unfold elapse.
  eapply quiet_trans; [|apply (quiet_fires (clock s + dt))].
  split; simpl; eauto.
Qed.

End Registry.

Section Sessions.

Import Main.

Implicit Types (s : Plugin) (p : ChildProcess) (pid : nat) (k : jsstring).

Lemma consistent_onload h st : consistent (onload h st).
Proof. split; intros *; simpl; by rewrite lookup_empty. Qed.

(** Entering a fresh process under [k]. *)
Lemma consistent_register k p s :
  killed p = false -> signals p = 0%nat -> consistent s ->
  consistent
    (setRegistry (<[k := length (processes s)]> (activePreviewProcesses s))
       (setProcesses (processes s ++ [p]) s)).
Proof.
  intros Hk Hs [C1 C2].
  assert (Hlt : forall k' pid, activePreviewProcesses s !! k' = Some pid ->
                               (pid < length (processes s))%nat).
  { intros k' pid H. destruct (C1 _ _ H) as (q & Hq & _).
    by apply lookup_lt_Some in Hq. }
  split; simpl.
  - intros k' pid H. apply lookup_insert_Some in H as [[<- <-]|[Hne H]].
    + exists p. by rewrite list_lookup_middle.
    + destruct (C1 _ _ H) as (q & Hq & Hq').
      exists q. split; [by apply lookup_app_l_Some | done].
  - intros k1 k2 pid H1 H2.
    apply lookup_insert_Some in H1 as [[<- <-]|[Hne1 H1]];
      apply lookup_insert_Some in H2 as [[<- E]|[Hne2 H2]]; try done.
    + apply Hlt in H2. lia.
    + apply Hlt in H1. lia.
    + eauto.
Qed.

Lemma consistent_startPreviewAndGetUrl file s :
  consistent s -> consistent (fst (startPreviewAndGetUrl file s)).
Proof.
  intros H. destruct (spawns_dec file s) as [Hs|Hs].
  - rewrite startPreviewAndGetUrl_spawned by done. cbn [fst].
    by apply consistent_register.
  - by rewrite startPreviewAndGetUrl_rejected.
Qed.

Lemma consistent_startPreview file s :
  consistent s -> consistent (startPreview file s).
Proof.
  intros H. destruct (spawns_dec file s) as [Hs|Hs].
  - destruct (activePreviewProcesses s !! path file) eqn:E.
    + unfold startPreview. by rewrite E.
    + rewrite startPreview_spawned by done. by apply consistent_register.
  - by rewrite startPreview_rejected.
Qed.

Lemma consistent_stopPreview file s :
  consistent s -> consistent (stopPreview file s).
Proof.
  intros [C1 C2]. unfold stopPreview.
  destruct (activePreviewProcesses s !! path file) as [pid|] eqn:E; [|done].
  split; simpl.
  - intros k pid' H. apply lookup_delete_Some in H as [Hne H].
    destruct (C1 _ _ H) as (q & Hq & Hq'). exists q. split; [|done].
    rewrite list_lookup_alter_ne; [done|].
    intros <-. apply Hne. by apply (C2 _ _ pid).
  - intros k1 k2 pid' H1 H2.
    apply lookup_delete_Some in H1 as [_ H1].
    apply lookup_delete_Some in H2 as [_ H2]. eauto.
Qed.

Lemma consistent_stopAllPreviews s : consistent (stopAllPreviews s).
Proof. split; intros *; simpl; by rewrite lookup_empty. Qed.

Lemma consistent_toggleExternalPreview file s :
  consistent s -> consistent (toggleExternalPreview file s).
Proof.
  intros H. unfold toggleExternalPreview.
  destruct (activePreviewProcesses s !! path file);
    [by apply consistent_stopPreview | by apply consistent_startPreview].
Qed.

Lemma consistent_toggleWebViewer file s :
  consistent s -> consistent (toggleWebViewer file s).
Proof.
  intros H. unfold toggleWebViewer.
  destruct (activeWebViewers s !! path file) as [leaf|].
  - by apply consistent_stopPreview.
  - pose proof (consistent_startPreviewAndGetUrl file s H) as H1.
    destruct (startPreviewAndGetUrl file s) as [s1 [pid|]]; [|done].
    eapply consistent_quiet; [exact H1|].
    apply quiet_onProcess, harmless_setAwaited.
Qed.

Lemma consistent_togglePreview file s :
  consistent s -> consistent (togglePreview file s).
Proof.
  intros H. unfold togglePreview.
  destruct (_ && _);
    [by apply consistent_toggleWebViewer
    | by apply consistent_toggleExternalPreview].
Qed.

Lemma consistent_step s a : consistent s -> consistent (step s a).
Proof.
  intros H. destruct a as [f|f|f| | | | | | | | | | | | | |]; simpl.
  - destruct f as [file|]; simpl; [|done].
    destruct (isQuartoFile file); [by apply consistent_togglePreview | done].
  - destruct f as [file|]; simpl; [|done].
    destruct (isQuartoFile file); [by apply consistent_togglePreview | done].
  - unfold onFileOpen. destruct (fileOpenRegistered s); [|done].
    destruct f as [file|]; [|done].
    destruct (isQuartoFile file); [by apply consistent_togglePreview | done].
  - by apply consistent_togglePreview.
  - by apply consistent_toggleWebViewer.
  - by apply consistent_toggleExternalPreview.
  - by apply consistent_startPreviewAndGetUrl.
  - by apply consistent_startPreview.
  - by apply consistent_stopPreview.
  - apply consistent_stopAllPreviews.
  - split; intros *; simpl; by rewrite lookup_empty.
  - done.
  - eapply consistent_quiet; [done | apply quiet_onStdoutData].
  - eapply consistent_quiet; [done | apply quiet_onError].
  - eapply consistent_quiet; [done | apply quiet_onExit].
  - eapply consistent_quiet; [done | apply quiet_onClose].
  - eapply consistent_quiet; [done | apply quiet_elapse].
Qed.

Lemma consistent_run actions s : consistent s -> consistent (run s actions).
Proof.
  revert s. induction actions as [|a actions IH]; intros s H; simpl; [done|].
  by apply IH, consistent_step.
Qed.

(** The sweep of [stopAllPreviews], seen from one process: a process no
    entry refers to is passed over, and one that a single entry refers to
    is visited once. *)
Lemma sweep_passes (entries : list (jsstring * nat)) (ps : list ChildProcess) pid :
  pid ∉ entries.*2 ->
  foldl (fun ps entry => alter killUnlessKilled (snd entry) ps) ps entries !! pid
  = ps !! pid.
Proof.
  revert ps. induction entries as [|[k pid'] entries IH]; intros ps H; simpl.
  - reflexivity.
  - rewrite fmap_cons, not_elem_of_cons in H. destruct H as [Hne H].
    rewrite IH by done. by rewrite list_lookup_alter_ne.
Qed.

Lemma sweep_visits (entries : list (jsstring * nat)) (ps : list ChildProcess) pid :
  NoDup entries.*2 -> pid ∈ entries.*2 ->
  foldl (fun ps entry => alter killUnlessKilled (snd entry) ps) ps entries !! pid
  = killUnlessKilled <$> ps !! pid.
Proof.
  revert ps. induction entries as [|[k pid'] entries IH]; intros ps Hn H; simpl.
  - by apply elem_of_nil in H.
  - rewrite fmap_cons in Hn, H. apply NoDup_cons in Hn as [Hfresh Hn].
    apply elem_of_cons in H as [->|H].
    + rewrite sweep_passes by done. by rewrite list_lookup_alter_eq.
    + rewrite IH by done. rewrite list_lookup_alter_ne; [done|].
      simpl. intros ->. done.
Qed.

End Sessions.

Section Teardown.

Import Main.

Lemma registered_elem (r : gmap jsstring nat) pid :
  pid ∈ (map_to_list r).*2 <-> exists k, r !! k = Some pid.
Proof.
  rewrite list_elem_of_fmap. split.
  - intros ([k pid'] & -> & H). exists k. by apply elem_of_map_to_list.
  - intros (k & H). exists (k, pid). split; [done|].
    by apply elem_of_map_to_list.
Qed.

(** No process is listed twice when no process is entered under two
    paths. *)
Lemma registered_NoDup (r : gmap jsstring nat) :
  (forall k1 k2 pid, r !! k1 = Some pid -> r !! k2 = Some pid -> k1 = k2) ->
  NoDup (map_to_list r).*2.
Proof.
  intros Hinj. apply NoDup_fmap_2_strong; [|apply NoDup_map_to_list].
  intros [k1 p1] [k2 p2] H1 H2 E. simpl in E. subst p2.
  apply elem_of_map_to_list in H1, H2. by rewrite (Hinj _ _ _ H1 H2).
Qed.

(** The sweep in a state whose registry enters no process twice: the
    registry is emptied, a process that was entered is visited once, any
    other process is left as it was. *)
Lemma stopAllPreviews_sweep s pid :
  consistent s ->
  activePreviewProcesses (stopAllPreviews s) = ∅
  /\ ((exists k, activePreviewProcesses s !! k = Some pid) ->
      processes (stopAllPreviews s) !! pid
      = killUnlessKilled <$> processes s !! pid)
  /\ ((forall k, activePreviewProcesses s !! k <> Some pid) ->
      processes (stopAllPreviews s) !! pid = processes s !! pid).
Proof.
  intros [_ C2]. split; [done|]. simpl. split; intros H.
  - apply sweep_visits; [by apply registered_NoDup | by apply registered_elem].
  - apply sweep_passes.
    intros (k & Hk)%registered_elem. by apply (H k).
Qed.

(** What [stopAllPreviews] does for the entries it finds: whatever start,
    stop, toggle and process events came before, the registry holds no
    entry afterwards, [kill()] has been called exactly once on every
    process that had an entry (none of which had been killed), and the
    processes without an entry are left as they were. *)
Lemma stopAllPreviews_entries (h : Host) (st : QmdPluginSettings)
    (actions : list Action) :
  let s := run (onload h st) actions in
  let s' := stopAllPreviews s in
  activePreviewProcesses s' = ∅
  /\ size (activePreviewProcesses s') = 0%nat
  /\ (forall k pid, activePreviewProcesses s !! k = Some pid ->
        exists p p',
          processes s !! pid = Some p
          /\ killed p = false /\ signals p = 0%nat
          /\ processes s' !! pid = Some p'
          /\ signals p' = 1%nat)
  /\ (forall pid, (forall k, activePreviewProcesses s !! k <> Some pid) ->
        processes s' !! pid = processes s !! pid).
Proof.
  intros s s'.
  assert (Hc : consistent s) by (apply consistent_run, consistent_onload).
  split; [done|]. split; [done|]. split.
  - intros k pid H. pose proof Hc as [C1 _].
    destruct (C1 _ _ H) as (p & Hp & Hk & Hs).
    exists p, (kill p). do 3 (split; [done|]).
    split; [|by simpl; rewrite Hs].
    destruct (stopAllPreviews_sweep s pid Hc) as (_ & Hin & _).
    unfold s'. rewrite Hin by (by exists k).
    rewrite Hp. simpl. unfold killUnlessKilled. by rewrite Hk.
  - intros pid H. destruct (stopAllPreviews_sweep s pid Hc) as (_ & _ & Hout).
    by apply Hout.
Qed.

(** C4 (the code departs from the claim). The ribbon icon is clicked three
    times on the same document before any preview reported its URL, then
    the first process closes.  Each click spawned a process and entered
    it under the path of the document, the later over the earlier; the
    ['close'] listener of the first deleted the entry, which by then
    referred to the third.  [stopAllPreviews] now finds an empty
    registry: it calls [kill()] on none of the three processes, of which
    the second and the third have not ended. *)
Theorem stopAllPreviews_misses_replaced :
  let s := run (onload vaultHost DEFAULT_SETTINGS)
               [Ribbon (Some doc); Ribbon (Some doc); Ribbon (Some doc);
                ProcessClose 0 (Some 0)] in
  let s' := stopAllPreviews s in
  length (processes s) = 3%nat
  /\ activePreviewProcesses s = ∅
  /\ activePreviewProcesses s' = ∅
  /\ processes s' = processes s
  /\ Forall (fun p => key p = path doc /\ killed p = false
                      /\ signals p = 0%nat) (processes s')
  /\ (exited <$> processes s') = [true; false; false].
Proof.
  vm_compute. split; [reflexivity|]. split; [reflexivity|].
  split; [reflexivity|]. split; [reflexivity|].
  split; [|reflexivity]. repeat constructor.
Qed.

End Teardown.

(** ** The start-up timer *)

Section Timer.

Import Main.

Implicit Types (s st : Plugin) (p : ChildProcess) (pid : nat).

Lemma processes_afterAwait k v leaf s :
  processes (afterAwait k v leaf s) = processes s.
Proof. unfold afterAwait. by destruct v as [[|c u]|], leaf. Qed.

Lemma registry_afterAwait k v leaf s :
  activePreviewProcesses (afterAwait k v leaf s) = activePreviewProcesses s.
Proof. unfold afterAwait. by destruct v as [[|c u]|], leaf. Qed.

(** [resolve] touches the store at [pid] only, and only a pending
    promise. *)
Lemma processes_resolve pid v leaf s :
  processes (resolve pid v leaf s)
  = match processes s !! pid with
    | Some p => match promise p with
                | Some Pending =>
                    alter (setPromise (Resolved v)) pid (processes s)
                | _ => processes s
                end
    | None => processes s
    end.
Proof.
  unfold resolve. destruct (processes s !! pid) as [p|]; [|done].
  destruct (promise p) as [[|r]|]; try done.
  destruct (awaited p); [by rewrite processes_afterAwait | done].
Qed.

Lemma registry_resolve pid v leaf s :
  activePreviewProcesses (resolve pid v leaf s) = activePreviewProcesses s.
Proof.
  unfold resolve. destruct (processes s !! pid) as [p|]; [|done].
  destruct (promise p) as [[|r]|]; try done.
  destruct (awaited p); [by rewrite registry_afterAwait | done].
Qed.

Lemma notices_resolve_null pid leaf s :
  notices (resolve pid None leaf s) = notices s.
Proof.
  unfold resolve. destruct (processes s !! pid) as [p|]; [|done].
  destruct (promise p) as [[|r]|]; try done. by destruct (awaited p).
Qed.

(** The callback of the timer, seen from the store. *)
Lemma processes_onTimeout pid s :
  processes (onTimeout pid s)
  = alter (fun p => match promise p with
                    | Some Pending => setPromise (Resolved None) (cleanup p)
                    | _ => cleanup p
                    end) pid (processes s).
Proof.
  unfold onTimeout. cbn [Notice processes]. rewrite processes_resolve.
  cbn [onProcess setProcesses processes]. rewrite list_lookup_alter_eq.
  destruct (processes s !! pid) as [p|] eqn:E; simpl.
  - change (promise (cleanup p)) with (promise p).
    destruct (promise p) as [[|r]|] eqn:Ep.
    + rewrite list_alter_alter_eq. apply list_alter_ext; [|done].
      intros q Hq. simpl. assert (q = p) as -> by congruence. by rewrite Ep.
    + apply list_alter_ext; [|done].
      intros q Hq. assert (q = p) as -> by congruence. by rewrite Ep.
    + apply list_alter_ext; [|done].
      intros q Hq. assert (q = p) as -> by congruence. by rewrite Ep.
  - apply list_eq. intros i. destruct (decide (pid = i)) as [<-|Hne].
    + by rewrite !list_lookup_alter_eq, E.
    + by rewrite !list_lookup_alter_ne.
Qed.

Lemma registry_onTimeout pid s :
  activePreviewProcesses (onTimeout pid s) = activePreviewProcesses s.
Proof. unfold onTimeout. cbn [Notice activePreviewProcesses]. by rewrite registry_resolve. Qed.

Lemma notices_onTimeout pid s :
  notices (onTimeout pid s) = notices s ++ [timedOut].
Proof. unfold onTimeout. cbn [Notice notices]. by rewrite notices_resolve_null. Qed.

Lemma registry_fires t l st :
  activePreviewProcesses (foldl (fireIfDue t) st l) = activePreviewProcesses st.
Proof.
  revert st. induction l as [|pid l IH]; intros st; simpl; [done|].
  rewrite IH. unfold fireIfDue.
  destruct (due t pid st); [apply registry_onTimeout | done].
Qed.

Lemma notices_fires t l st :
  exists n, notices (foldl (fireIfDue t) st l) = notices st ++ replicate n timedOut.
Proof.
  revert st. induction l as [|pid l IH]; intros st; simpl.
  - exists 0%nat. by rewrite app_nil_r.
  - destruct (IH (fireIfDue t st pid)) as (n & ->). unfold fireIfDue.
    destruct (due t pid st).
    + exists (S n). by rewrite notices_onTimeout, <- app_assoc.
    + by exists n.
Qed.

(** A process whose timer is not due is left alone by the timers of the
    others. *)
Lemma fires_keep t l pid0 p st :
  processes st !! pid0 = Some p ->
  (pid0 ∈ l -> match timeoutId p with
               | Some d => (t < d)%N
               | None => True
               end) ->
  processes (foldl (fireIfDue t) st l) !! pid0 = Some p.
Proof.
  revert st. induction l as [|pid l IH]; intros st Hp Hd; simpl; [done|].
  apply IH; [|intros H; apply Hd; by apply list_elem_of_further].
  unfold fireIfDue. destruct (due t pid st) eqn:Edue; [|done].
  rewrite processes_onTimeout. destruct (decide (pid = pid0)) as [->|Hne].
  - exfalso. unfold due in Edue. rewrite Hp in Edue.
    specialize (Hd (list_elem_of_here _ _)).
    destruct (timeoutId p) as [d|]; [|done].
    apply N.leb_le in Edue. lia.
  - by rewrite list_lookup_alter_ne.
Qed.

End Timer.

Section Elapse.

Import Main.

Implicit Types (s st : Plugin) (p : ChildProcess) (pid : nat).

Lemma registry_elapse dt s :
  activePreviewProcesses (elapse dt s) = activePreviewProcesses s.
Proof. unfold elapse. by rewrite registry_fires. Qed.

(** Before the deadline nothing happens to the process. *)
Lemma elapse_early dt s pid p d :
  processes s !! pid = Some p -> timeoutId p = Some d ->
  (clock s + dt < d)%N ->
  processes (elapse dt s) !! pid = Some p.
Proof.
  intros Hp Hd Hlt. unfold elapse. apply fires_keep; [done|].
  intros _. by rewrite Hd.
Qed.

(** A process without a timer is never touched by the passing of time. *)
Lemma elapse_no_timer dt s pid p :
  processes s !! pid = Some p -> timeoutId p = None ->
  processes (elapse dt s) !! pid = Some p.
Proof.
  intros Hp Hd. unfold elapse. apply fires_keep; [done|].
  intros _. by rewrite Hd.
Qed.

(** From the deadline on the callback has run: the timer is cleared, the
    listeners of the process are removed, the pending promise is resolved
    with [null] and the notice is shown.  No signal is sent. *)
Lemma elapse_fires dt s pid p d :
  processes s !! pid = Some p -> timeoutId p = Some d ->
  promise p = Some Pending -> (d <= clock s + dt)%N ->
  processes (elapse dt s) !! pid = Some (setPromise (Resolved None) (cleanup p))
  /\ exists n, notices (elapse dt s) = notices s ++ replicate (S n) timedOut.
Proof.
  intros Hp Hd Hpr Hle. unfold elapse.
  set (t := (clock s + dt)%N) in *.
  assert (Hlen : (pid < length (processes s))%nat) by by eapply lookup_lt_Some.
  replace (length (processes s))
    with (pid + S (length (processes s) - S pid))%nat by lia.
  rewrite seq_app, foldl_app. cbn [seq foldl Nat.add].
  set (st1 := foldl (fireIfDue t) (setClock t s) (seq 0 pid)).
  assert (H1 : processes st1 !! pid = Some p).
  { apply fires_keep; [done|]. intros Hin. apply elem_of_seq in Hin. lia. }
  assert (Hdue : due t pid st1 = true).
  { unfold due. rewrite H1, Hd. by apply N.leb_le. }
  assert (Hstep : fireIfDue t st1 pid = onTimeout pid st1)
    by (unfold fireIfDue; by rewrite Hdue).
  rewrite Hstep. split.
  - apply fires_keep.
    + rewrite processes_onTimeout, list_lookup_alter_eq, H1. simpl.
      by rewrite Hpr.
    + intros Hin. apply elem_of_seq in Hin. lia.
  - destruct (notices_fires t (seq (S pid) (length (processes s) - S pid))
                (onTimeout pid st1)) as (n3 & ->).
    rewrite notices_onTimeout.
    destruct (notices_fires t (seq 0 pid) (setClock t s)) as (n1 & E1).
    fold st1 in E1. rewrite E1. cbn [setClock notices].
    exists (n1 + n3)%nat. rewrite <- !app_assoc. f_equal.
    change ([timedOut] ++ replicate n3 timedOut)
      with (replicate (S n3) timedOut).
    rewrite <- replicate_add. f_equal. lia.
Qed.

(** A chunk without the marker changes nothing. *)
Lemma onStdoutData_no_marker pid output leaf s :
  readinessUrl output = None -> onStdoutData pid output leaf s = s.
Proof.
  intros H. unfold onStdoutData. rewrite H.
  destruct (processes s !! pid) as [p|]; [|done]. by destruct (dataListener p).
Qed.

Lemma onStdoutData_no_markers pid (chunks : list (jsstring * bool)) s :
  Forall (fun c => readinessUrl (fst c) = None) chunks ->
  foldl (fun st c => onStdoutData pid (fst c) (snd c) st) s chunks = s.
Proof.
  intros H. induction H as [|c chunks Hc _ IH]; simpl; [done|].
  by rewrite onStdoutData_no_marker.
Qed.

End Elapse.

Section StartupTimeout.

Import Main.

Lemma clock_resolve pid v leaf s : clock (resolve pid v leaf s) = clock s.
Proof.
  unfold resolve. destruct (processes s !! pid) as [p|]; [|done].
  destruct (promise p) as [[|r]|]; try done.
  destruct (awaited p); [|done].
  unfold afterAwait. by destruct v as [[|c u]|], leaf.
Qed.

Lemma clock_fires t l st : clock (foldl (fireIfDue t) st l) = clock st.
Proof.
  revert st. induction l as [|pid l IH]; intros st; simpl; [done|].
  rewrite IH. unfold fireIfDue. destruct (due t pid st); [|done].
  unfold onTimeout. cbn [Notice clock]. by rewrite clock_resolve.
Qed.

Lemma clock_elapse dt s : clock (elapse dt s) = (clock s + dt)%N.
Proof. unfold elapse. by rewrite clock_fires. Qed.

Lemma notices_elapse dt s :
  exists n, notices (elapse dt s) = notices s ++ replicate n timedOut.
Proof.
  unfold elapse.
  destruct (notices_fires (clock s + dt) (seq 0 (length (processes s)))
              (setClock (clock s + dt) s)) as (n & H).
  by exists n.
Qed.

Lemma waiting_start s file :
  spawns s file -> waiting s file (fst (startPreviewAndGetUrl file s)) 0.
Proof.
  intros Hs. rewrite startPreviewAndGetUrl_spawned by done.
  unfold waiting. simpl.
  rewrite N.add_0_r, lookup_insert_eq, list_lookup_middle by done.
  repeat split. exists 0%nat. rewrite app_nil_r. split; [done|].
  unfold startupTimeout. lia.
Qed.

Lemma waiting_elapse s file st e dt :
  waiting s file st e -> waiting s file (elapse dt st) (e + dt).
Proof.
  intros (Hclock & Hreg & Hproc & n & Hnot & Hn).
  unfold waiting. rewrite clock_elapse, registry_elapse, Hclock.
  split; [lia|]. split; [done|].
  destruct (notices_elapse dt st) as (k & Hk).
  destruct (N.ltb_spec e startupTimeout) as [He|He].
  - destruct (N.ltb_spec (e + dt) startupTimeout) as [Hlate|Hlate].
    + split.
      * eapply elapse_early; [done | done | simpl; lia].
      * exists (n + k)%nat. split; [|lia].
        by rewrite Hk, Hnot, <- app_assoc, replicate_add.
    + destruct (elapse_fires dt st (length (processes s)) (started s file)
                  (clock s + startupTimeout)%N) as [Hp (m & Hm)];
        [done | done | done | lia |].
      split; [done|]. exists (n + S m)%nat. split; [|lia].
      by rewrite Hm, Hnot, <- app_assoc, replicate_add.
  - destruct (N.ltb_spec (e + dt) startupTimeout) as [Hlate|Hlate]; [lia|].
    split.
    + by eapply elapse_no_timer.
    + exists (n + k)%nat. split; [|lia].
      by rewrite Hk, Hnot, <- app_assoc, replicate_add.
Qed.

Lemma waiting_run s file actions st e :
  Forall silent actions -> waiting s file st e ->
  waiting s file (run st actions) (e + elapsed actions).
Proof.
  intros Hs. revert st e.
  induction Hs as [|a actions Ha _ IH]; intros st e Hw; simpl.
  - by rewrite N.add_0_r.
  - destruct a; try done; simpl in *.
    + rewrite onStdoutData_no_marker by done. by apply IH.
    + rewrite N.add_assoc. by apply IH, waiting_elapse.
Qed.

(** C1 (as amended). When [spawn] returns for [startPreviewAndGetUrl],
    and as long as nothing comes but output without a readiness marker and
    time: for less than 10000 ms the promise stays pending, the timer is
    armed and the ['error'] and ['close'] listeners are attached; once
    10000 ms have passed the timer callback has cleared the timer, removed
    the ['error'] and ['close'] listeners of the process (the ['data']
    listener of its standard output stays), resolved the promise with
    [null] and shown the notice "Preview startup timed out".  No [kill()]
    was called on the process, which is still entered in the registry
    under the path. *)
Theorem startup_timeout_resolves_null (s : Plugin) (file : TFile)
    (actions : list Action) :
  spawns s file ->
  Forall silent actions ->
  (startupTimeout <= elapsed actions)%N ->
  let pid := length (processes s) in
  let s1 := fst (startPreviewAndGetUrl file s) in
  let s3 := run s1 actions in
  snd (startPreviewAndGetUrl file s) = Spawned pid
  /\ (forall before, Forall silent before ->
       (elapsed before < startupTimeout)%N ->
       exists p, processes (run s1 before) !! pid = Some p
                 /\ promise p = Some Pending
                 /\ timeoutId p = Some (clock s + startupTimeout)%N
                 /\ errorListener p = true /\ closeListener p = true
                 /\ signals p = 0%nat)
  /\ (exists p, processes s3 !! pid = Some p
                /\ promise p = Some (Resolved None) /\ timeoutId p = None
                /\ errorListener p = false /\ closeListener p = false
                /\ dataListener p = true
                /\ killed p = false /\ signals p = 0%nat)
  /\ activePreviewProcesses s3 !! path file = Some pid
  /\ (exists n, notices s3 = notices s ++ replicate (S n) timedOut).
Proof.
  intros Hspawn Hsilent Hlate pid s1 s3.
  pose proof (waiting_start s file Hspawn) as Hstart.
  split; [|split; [|split; [|split]]].
  - by rewrite startPreviewAndGetUrl_spawned.
  - intros before Hb Hearly.
    destruct (waiting_run s file before s1 0 Hb Hstart) as (_ & _ & Hp & _).
    rewrite N.add_0_l in Hp.
    destruct (N.ltb_spec (elapsed before) startupTimeout); [|lia].
    eexists. split; [exact Hp | done].
  - destruct (waiting_run s file actions s1 0 Hsilent Hstart)
      as (_ & _ & Hp & _).
    rewrite N.add_0_l in Hp.
    destruct (N.ltb_spec (elapsed actions) startupTimeout); [lia|].
    eexists. split; [exact Hp | done].
  - by destruct (waiting_run s file actions s1 0 Hsilent Hstart)
      as (_ & Hreg & _).
  - destruct (waiting_run s file actions s1 0 Hsilent Hstart)
      as (_ & _ & _ & n & Hn & Hpos).
    rewrite N.add_0_l in Hpos. destruct n as [|n]; [by destruct Hpos|].
    by exists n.
Qed.

(** A start in the example vault; output arrives after three seconds, and
    seven more seconds pass. *)
Lemma startup_timeout_resolves_null_witness :
  let s := onload vaultHost DEFAULT_SETTINGS in
  let actions := [Elapse 3000; StdoutData 0 (js "Preparing to preview") true;
                  Elapse 7000] in
  spawns s doc
  /\ Forall silent actions
  /\ (startupTimeout <= elapsed actions)%N
  /\ notices (run (fst (startPreviewAndGetUrl doc s)) actions) = [timedOut]
  /\ exists p,
       processes (run (fst (startPreviewAndGetUrl doc s)) actions) !! 0%nat
       = Some p
       /\ promise p = Some (Resolved None) /\ timeoutId p = None
       /\ errorListener p = false /\ closeListener p = false
       /\ dataListener p = true
       /\ killed p = false /\ signals p = 0%nat.
Proof.
  split; [reflexivity|].
  split; [by repeat constructor|]. split; [vm_compute; discriminate|].
  split; [reflexivity|].
  apply (startup_timeout_resolves_null (onload vaultHost DEFAULT_SETTINGS) doc
           [Elapse 3000; StdoutData 0 (js "Preparing to preview") true;
            Elapse 7000]).
  - reflexivity.
  - by repeat constructor.
  - vm_compute; discriminate.
Defined.

(** C1, as stated, fails: when the timer fires the promise is resolved
    with [null] and the notice is shown, but the process has received no
    signal, not one. *)
Lemma startup_timeout_sends_no_signal :
  let s := run (onload vaultHost DEFAULT_SETTINGS)
               [StartPreviewAndGetUrl doc; Elapse 10000] in
  exists p, processes s !! 0%nat = Some p
            /\ promise p = Some (Resolved None)
            /\ notices s = [timedOut]
            /\ killed p = false
            /\ signals p = 0%nat
            /\ signals p <> 1%nat.
Proof. eexists. vm_compute. repeat split; discriminate. Qed.

Lemma length_fires t l st :
  length (processes (foldl (fireIfDue t) st l)) = length (processes st).
Proof.
  revert st. induction l as [|i l IH]; intros st; simpl; [done|].
  rewrite IH. unfold fireIfDue. destruct (due _ i st); [|done].
  by rewrite processes_onTimeout, length_alter.
Qed.

Lemma length_elapse dt s :
  length (processes (elapse dt s)) = length (processes s).
Proof. unfold elapse. by rewrite length_fires. Qed.

(** [startPreview] arms no timer: no amount of time changes the process
    it spawned. *)
Lemma startPreview_no_timeout (s : Plugin) (file : TFile) (dt : N) :
  activePreviewProcesses s !! path file = None ->
  let pid := length (processes s) in
  processes (elapse dt (startPreview file s)) !! pid
  = processes (startPreview file s) !! pid.
Proof.
  intros Hnone pid. destruct (spawns_dec file s) as [Hs|Hs].
  - rewrite startPreview_spawned by done.
    cbn [setRegistry setProcesses processes].
    rewrite list_lookup_middle by done.
    eapply elapse_no_timer; [|reflexivity].
    simpl. by rewrite list_lookup_middle.
  - rewrite startPreview_rejected by done.
    destruct (processes s !! pid) as [p|] eqn:E.
    + apply lookup_lt_Some in E. unfold pid in E. lia.
    + apply lookup_ge_None. apply lookup_ge_None in E.
      by rewrite length_elapse.
Qed.

End StartupTimeout.

(** ** Readiness *)

Section ReadinessOfASession.

Import Main.

Implicit Types (s st : Plugin) (p : ChildProcess) (pid : nat).

Lemma onStdoutData_promise pid output leaf s p pr :
  processes s !! pid = Some p -> dataListener p = true ->
  promise p = Some pr ->
  exists p', processes (onStdoutData pid output leaf s) !! pid = Some p'
             /\ dataListener p' = true
             /\ promise p' = Some (settle pr [output]).
Proof.
  intros Hp Hd Hpr. unfold onStdoutData, settle. rewrite Hp, Hd. simpl.
  destruct (readinessUrl output) as [url|].
  - rewrite processes_resolve. cbn [onProcess setProcesses processes].
    rewrite list_lookup_alter_eq, Hp. simpl.
    change (promise (cleanup p)) with (promise p). rewrite Hpr.
    destruct pr as [|v].
    + rewrite list_lookup_alter_eq, list_lookup_alter_eq, Hp. simpl.
      eexists. split; [done|]. by split.
    + rewrite list_lookup_alter_eq, Hp. simpl.
      eexists. split; [done|]. by split.
  - exists p. split; [done|]. split; [done|]. by destruct pr.
Qed.

Lemma settle_cons pr output chunks :
  settle (settle pr [output]) chunks = settle pr (output :: chunks).
Proof.
  destruct pr as [|v]; simpl; [|done].
  by destruct (readinessUrl output).
Qed.

Lemma chunks_promise pid (chunks : list (jsstring * bool)) s p pr :
  processes s !! pid = Some p -> dataListener p = true ->
  promise p = Some pr ->
  exists p',
    processes (foldl (fun st c => onStdoutData pid (fst c) (snd c) st) s chunks)
      !! pid = Some p'
    /\ dataListener p' = true
    /\ promise p' = Some (settle pr (chunks.*1)).
Proof.
  revert s p pr. induction chunks as [|[output leaf] chunks IH];
    intros s p pr Hp Hd Hpr; simpl.
  - exists p. split; [done|]. split; [done|]. by destruct pr.
  - destruct (onStdoutData_promise pid output leaf s p pr Hp Hd Hpr)
      as (p1 & Hp1 & Hd1 & Hpr1).
    destruct (IH _ _ _ Hp1 Hd1 Hpr1) as (p' & Hp' & Hd' & Hpr').
    exists p'. split; [done|]. split; [done|].
    by rewrite Hpr', settle_cons.
Qed.

(** C2 (as amended). The handler accepts a chunk of output exactly when
    it holds "Browse at", one or more white space characters and
    "http://" followed by at least one character that is no white space;
    what it extracts is "http://" with the longest run of such characters,
    at the leftmost occurrence.  On a process whose output is listened to,
    chunks act on the promise like this: a pending promise is resolved
    with the URL extracted from the first accepted chunk, and a promise
    that is already settled (by an earlier chunk, the timer or an
    ['error']) is left as it is.  So when [spawn] returned for
    [startPreviewAndGetUrl] and nothing but chunks arrived since, the
    promise is resolved with the URL of the first accepted chunk, and
    pending if there was none.  An "https://" URL is not accepted. *)
Theorem readiness_marker_http :
  (forall output, is_Some (readinessUrl output) <-> httpMarker output)
  /\ (forall output u,
        readinessUrl output = Some u <->
        exists pre ws body post,
          markerAt httpScheme output pre ws body post
          /\ stopsAt notWhiteSpace post
          /\ u = httpScheme ++ body
          /\ forall pre' ws' body' post',
               markerAt httpScheme output pre' ws' body' post' ->
               (length pre <= length pre')%nat)
  /\ (forall s pid p pr (chunks : list (jsstring * bool)),
        processes s !! pid = Some p -> dataListener p = true ->
        promise p = Some pr ->
        exists p',
          processes
            (foldl (fun st c => onStdoutData pid (fst c) (snd c) st) s chunks)
            !! pid = Some p'
          /\ dataListener p' = true
          /\ promise p' = Some (match pr with
                                | Pending =>
                                    match firstMarker (chunks.*1) with
                                    | Some url => Resolved (Some url)
                                    | None => Pending
                                    end
                                | Resolved v => Resolved v
                                end))
  /\ (forall s file (chunks : list (jsstring * bool)),
        spawns s file ->
        let pid := length (processes s) in
        let s1 := fst (startPreviewAndGetUrl file s) in
        exists p,
          processes
            (foldl (fun st c => onStdoutData pid (fst c) (snd c) st) s1 chunks)
            !! pid = Some p
          /\ promise p = Some (match firstMarker (chunks.*1) with
                                | Some url => Resolved (Some url)
                                | None => Pending
                                end)).
Proof.
  split; [exact readinessUrl_accepts|]. split; [exact readinessUrl_extracts|].
  split.
  - intros s pid p pr chunks Hp Hd Hpr.
    destruct (chunks_promise pid chunks s p pr Hp Hd Hpr)
      as (p' & Hp' & Hd' & Hpr').
    exists p'. split; [done|]. split; [done|]. by rewrite Hpr'.
  - intros s file chunks Hspawn pid s1.
    destruct (chunks_promise pid chunks s1 (started s file) Pending)
      as (p & Hp & _ & Hpr); [|done|done|].
    + unfold s1, pid. rewrite startPreviewAndGetUrl_spawned by done.
      simpl. by rewrite list_lookup_middle.
    + by exists p.
Qed.

(** The line of the specification's example is accepted, and a later
    marker does not replace the URL. *)
Lemma readiness_marker_http_witness :
  let s := onload vaultHost DEFAULT_SETTINGS in
  let s1 := fst (startPreviewAndGetUrl doc s) in
  httpMarker marker
  /\ spawns s doc
  /\ exists p,
       processes
         (foldl (fun st c => onStdoutData 0 (fst c) (snd c) st) s1
                [(js "Preparing to preview", true); (marker, true);
                 (js "Browse at http://localhost:7777/", true)])
         !! 0%nat = Some p
       /\ promise p = Some (Resolved (Some (js "http://localhost:4000/"))).
Proof.
  destruct readiness_marker_http as (Hacc & _ & _ & Hfirst). split; [|split].
  - apply Hacc. vm_compute. eauto.
  - reflexivity.
  - apply (Hfirst (onload vaultHost DEFAULT_SETTINGS) doc
             [(js "Preparing to preview", true); (marker, true);
              (js "Browse at http://localhost:7777/", true)]).
    reflexivity.
Defined.

(** C2, as stated, fails: a line with "Browse at" and an [https://] URL is
    a marker in the words of the specification and is not accepted.  Nor
    is it lines that are tested: a marker line that arrives in two chunks
    is not seen, though the line as a whole would be accepted. *)
Lemma readiness_rejects_https :
  specMarker (js "Browse at https://localhost:4000/")
  /\ readinessUrl (js "Browse at https://localhost:4000/") = None
  /\ firstMarker [js "Browse"; js " at http://localhost:4000/"] = None
  /\ readinessUrl (js "Browse" ++ js " at http://localhost:4000/")
     = Some (js "http://localhost:4000/").
Proof.
  split; [|by vm_compute].
  exists httpsScheme, [], (js " "), (js "localhost:4000/"), [].
  split; [by right|]. split; [reflexivity|].
  split; [done|]. split; [repeat constructor|].
  split; [done|]. repeat constructor.
Qed.

End ReadinessOfASession.

(** ** A process that closes before the marker *)

Section CloseBeforeMarker.

Lemma part001_no_marker pid output s :
  readinessUrl output = None -> Part001.onStdoutData pid output s = s.
Proof.
  intros H. unfold Part001.onStdoutData. rewrite H.
  destruct (Part001.processes s !! pid) as [p|]; [|done].
  by destruct (dataListener p).
Qed.

Lemma part001_no_markers pid (chunks : list jsstring) s :
  Forall (fun output => readinessUrl output = None) chunks ->
  foldl (fun st output => Part001.onStdoutData pid output st) s chunks = s.
Proof.
  intros H. induction H as [|c chunks Hc _ IH]; simpl; [done|].
  by rewrite part001_no_marker.
Qed.

Lemma part001_startPreview_spawned file s :
  Part001.activePreviewProcesses s !! path file = None -> spawns001 s file ->
  Part001.startPreview file s
  = Part001.Notice (js "Quarto preview started")
      (Part001.setRegistry
         (<[path file := length (Part001.processes s)]>
            (Part001.activePreviewProcesses s))
         (Part001.setProcesses
            (Part001.processes s
             ++ [attach (path file) true false true None None
                   (child (Part001.quartoPath (Part001.settings s))
                      [js "preview"; path file]
                      (dirname (Part001.host s)
                         (getFullPath (Part001.host s) (path file)))
                      true None)]) s)).
Proof.
  unfold spawns001, Part001.startPreview, spawn. by intros -> ->.
Qed.

Lemma part001_startPreview_rejected file s :
  Part001.activePreviewProcesses s !! path file = None -> ~ spawns001 s file ->
  Part001.startPreview file s
  = Part001.Notice (js "Failed to start Quarto preview") s.
Proof.
  unfold spawns001, Part001.startPreview, spawn. intros -> H.
  by destruct (spawnThrows _ _ _ _).
Qed.

Lemma spawns001_dec file s : spawns001 s file \/ ~ spawns001 s file.
Proof.
  unfold spawns001. destruct (spawnThrows _ _ _ _); [by right | by left].
Qed.

(** The session [startPreview] of [src/main.ts] set up, while nothing
    comes but output without the marker and time: it has no timer, so it
    stays as it was started, and entered. *)
Lemma external_waiting s file actions :
  Main.activePreviewProcesses s !! path file = None -> spawns s file ->
  Forall silent actions ->
  let st := Main.run (Main.startPreview file s) actions in
  Main.activePreviewProcesses st !! path file
  = Some (length (Main.processes s))
  /\ Main.processes st !! length (Main.processes s)
     = Some (startedExternal s file)
  /\ exists n, Main.notices st = Main.notices s ++ replicate n timedOut.
Proof.
  intros Hnone Hspawn Hs.
  rewrite startPreview_spawned by done.
  set (s1 := Main.setRegistry _ _).
  assert (H1 : Main.activePreviewProcesses s1 !! path file
               = Some (length (Main.processes s))
               /\ Main.processes s1 !! length (Main.processes s)
                  = Some (startedExternal s file)
               /\ exists n, Main.notices s1
                            = Main.notices s ++ replicate n timedOut).
  { unfold s1. simpl. rewrite lookup_insert_eq, list_lookup_middle by done.
    do 2 (split; [done|]). exists 0%nat. by rewrite app_nil_r. }
  clearbody s1. revert s1 H1.
  induction Hs as [|a actions Ha _ IH]; intros s1 H1; simpl; [done|].
  apply IH. destruct H1 as (Hreg & Hp & n & Hn).
  destruct a; try done; simpl in *.
  - rewrite onStdoutData_no_marker by done. eauto.
  - rewrite registry_elapse. split; [done|]. split.
    + by eapply elapse_no_timer.
    + destruct (notices_elapse dt s1) as (m & Hm). exists (n + m)%nat.
      by rewrite Hm, Hn, <- app_assoc, replicate_add.
Qed.

(** C3 (as amended). [spawn] returned, and the process closes, with any
    exit code, after nothing but output without the marker had come from
    it and, in [src/main.ts], time: less than 10000 ms after
    [startPreviewAndGetUrl], any amount after [startPreview].  Then the
    ['close'] listener removes the entry of the document from the
    registry.  No error is raised: in [src/main.ts] the promise of
    [startPreviewAndGetUrl] stays pending and the close shows no notice;
    in the second source a notice with the exit code is shown when the
    code is neither [null] nor [0]. *)
Theorem close_before_marker (code : option N) :
  (forall s file (actions : list Main.Action),
     spawns s file ->
     Forall silent actions ->
     (elapsed actions < Main.startupTimeout)%N ->
     let pid := length (Main.processes s) in
     let s2 := Main.run (fst (Main.startPreviewAndGetUrl file s)) actions in
     let s3 := Main.onClose pid code s2 in
     Main.activePreviewProcesses s2 !! path file = Some pid
     /\ Main.activePreviewProcesses s3 !! path file = None
     /\ (exists p, Main.processes s3 !! pid = Some p
                   /\ promise p = Some Pending /\ exited p = true)
     /\ Main.notices s3 = Main.notices s2)
  /\ (forall s file (actions : list Main.Action),
        Main.activePreviewProcesses s !! path file = None ->
        spawns s file ->
        Forall silent actions ->
        let pid := length (Main.processes s) in
        let s2 := Main.run (Main.startPreview file s) actions in
        let s3 := Main.onClose pid code s2 in
        Main.activePreviewProcesses s2 !! path file = Some pid
        /\ Main.activePreviewProcesses s3 !! path file = None
        /\ Main.notices s3 = Main.notices s2)
  /\ (forall s file (chunks : list jsstring),
        Forall (fun output => readinessUrl output = None) chunks ->
        Part001.activePreviewProcesses s !! path file = None ->
        spawns001 s file ->
        let pid := length (Part001.processes s) in
        let s2 := foldl (fun st output => Part001.onStdoutData pid output st)
                        (Part001.startPreview file s) chunks in
        let s3 := Part001.onClose pid code s2 in
        Part001.activePreviewProcesses s2 !! path file = Some pid
        /\ Part001.activePreviewProcesses s3 !! path file = None
        /\ Part001.notices s3
           = Part001.notices s ++ [js "Quarto preview started"]
             ++ exitNotice code).
Proof.
  split; [|split].
  - intros s file actions Hspawn Hsilent Hearly pid s2 s3.
    destruct (waiting_run s file actions _ 0 Hsilent
                (waiting_start s file Hspawn)) as (_ & Hreg & Hp & _).
    rewrite N.add_0_l in Hp.
    destruct (N.ltb_spec (elapsed actions) Main.startupTimeout); [|lia].
    fold s2 in Hreg, Hp. fold pid in Hreg, Hp. split; [done|].
    unfold s3, Main.onClose. rewrite Hp.
    cbn [started attach closeListener key Main.onProcess Main.setProcesses
         Main.setRegistry Main.activePreviewProcesses Main.processes
         Main.notices].
    rewrite lookup_delete_eq. split; [done|]. split; [|done].
    rewrite list_lookup_alter_eq, Hp. simpl. eauto.
  - intros s file actions Hnone Hspawn Hsilent pid s2 s3.
    destruct (external_waiting s file actions Hnone Hspawn Hsilent)
      as (Hreg & Hp & _).
    fold s2 in Hreg, Hp. fold pid in Hreg, Hp. split; [done|].
    unfold s3, Main.onClose. rewrite Hp.
    cbn [startedExternal attach closeListener key Main.onProcess
         Main.setProcesses Main.setRegistry Main.activePreviewProcesses
         Main.processes Main.notices].
    by rewrite lookup_delete_eq.
  - intros s file chunks Hchunks Hnone Hspawn pid s2 s3. unfold s3, s2.
    rewrite part001_no_markers by done.
    rewrite part001_startPreview_spawned by done.
    unfold Part001.onClose, Part001.onExit, pid.
    cbn [Part001.Notice Part001.setRegistry Part001.setProcesses
         Part001.processes Part001.activePreviewProcesses].
    rewrite lookup_insert_eq. split; [done|].
    rewrite list_lookup_middle by done.
    cbn [attach closeListener key].
    destruct code as [[|c]|]; simpl; rewrite lookup_delete_eq;
      (split; [done|]); by rewrite <- ?app_assoc.
Qed.

(** Exit code 1 after some rendering output and three seconds, in both
    sources. *)
Lemma close_before_marker_witness :
  let s := Main.onload vaultHost Main.DEFAULT_SETTINGS in
  let actions := [Main.StdoutData 0 (js "Preparing to preview") true;
                  Main.Elapse 3000] in
  let s3 := Main.onClose 0 (Some 1)
              (Main.run (fst (Main.startPreviewAndGetUrl doc s)) actions) in
  let t := Part001.onload vaultHost Part001.DEFAULT_SETTINGS in
  let t3 := Part001.onClose 0 (Some 1)
              (Part001.onStdoutData 0 (js "Preparing to preview")
                 (Part001.startPreview doc t)) in
  spawns s doc
  /\ Forall silent actions
  /\ (elapsed actions < Main.startupTimeout)%N
  /\ Main.activePreviewProcesses s3 !! path doc = None
  /\ Part001.activePreviewProcesses t !! path doc = None
  /\ spawns001 t doc
  /\ Part001.notices t3
     = [js "Quarto preview started";
        js "Quarto preview process exited with code 1"].
Proof.
  destruct (close_before_marker (Some 1)) as (HM & _ & HP).
  split; [reflexivity|]. split; [by repeat constructor|].
  split; [reflexivity|]. split; [|split; [|split]].
  - apply (HM (Main.onload vaultHost Main.DEFAULT_SETTINGS) doc
             [Main.StdoutData 0 (js "Preparing to preview") true;
              Main.Elapse 3000]);
      [reflexivity | by repeat constructor | reflexivity].
  - reflexivity.
  - reflexivity.
  - apply (HP (Part001.onload vaultHost Part001.DEFAULT_SETTINGS) doc
             [js "Preparing to preview"]);
      [repeat constructor | reflexivity | reflexivity].
Defined.

(** C3, as stated, fails: after the process closed with code 1 the start
    has not failed, its promise is pending, and nothing carries the exit
    code; in the second source exit code 0 leaves no trace at all. *)
Lemma close_raises_no_error :
  let s := Main.run (Main.onload vaultHost Main.DEFAULT_SETTINGS)
             [Main.StartPreviewAndGetUrl doc; Main.ProcessClose 0 (Some 1)] in
  let t := Part001.onClose 0 (Some 0)
             (Part001.startPreview doc
                (Part001.onload vaultHost Part001.DEFAULT_SETTINGS)) in
  (exists p, Main.processes s !! 0%nat = Some p /\ promise p = Some Pending)
  /\ Main.notices s = []
  /\ Part001.notices t = [js "Quarto preview started"].
Proof. split; [eexists; by vm_compute|]. by vm_compute. Qed.

End CloseBeforeMarker.

(** ** Starting twice, stopping twice *)

Section StartStop.

Import Main.

(** The guard of [startPreview]: for a path that has an entry it spawns
    no process and changes nothing. *)
Lemma startPreview_when_registered (s : Plugin) (file : TFile) :
  is_Some (activePreviewProcesses s !! path file) ->
  startPreview file s = s
  /\ length (processes (startPreview file s)) = length (processes s).
Proof.
  intros [pid H]. unfold startPreview. by rewrite H.
Qed.

(** C5 (the code departs from the claim). A session runs for the
    document and its endpoint is known.  [startPreview] finds the entry
    and does nothing.  [startPreviewAndGetUrl] has no such test: it spawns
    a second process, returns a new pending promise and enters the second
    process over the first.  The first process has no entry from then on:
    the next [stopPreview] calls [kill()] on the second only, and empties
    the registry. *)
Theorem second_start_spawns_again :
  let s := run (onload vaultHost DEFAULT_SETTINGS)
               [StartPreviewAndGetUrl doc; StdoutData 0 marker true] in
  let s' := fst (startPreviewAndGetUrl doc s) in
  activePreviewProcesses s !! path doc = Some 0%nat
  /\ (promise <$> processes s !! 0%nat)
     = Some (Some (Resolved (Some (js "http://localhost:4000/"))))
  /\ length (processes s) = 1%nat
  /\ startPreview doc s = s
  /\ length (processes s') = 2%nat
  /\ snd (startPreviewAndGetUrl doc s) = Spawned 1%nat
  /\ (promise <$> processes s' !! 1%nat) = Some (Some Pending)
  /\ activePreviewProcesses s' !! path doc = Some 1%nat
  /\ activePreviewProcesses (stopPreview doc s') = ∅
  /\ (signals <$> processes (stopPreview doc s')) = [0%nat; 1%nat]
  /\ (exited <$> processes (stopPreview doc s')) = [false; false].
Proof. by vm_compute. Qed.

(** C6. Calling [stopPreview] twice in a row leaves the plugin, registry
    and processes, as calling it once; the function is total, so the
    second call raises nothing.  On a path without an entry it does
    nothing. *)
Theorem stopPreview_idempotent (s : Plugin) (file : TFile) :
  stopPreview file (stopPreview file s) = stopPreview file s
  /\ (activePreviewProcesses s !! path file = None -> stopPreview file s = s).
Proof.
  split.
  - unfold stopPreview at 2 3.
    destruct (activePreviewProcesses s !! path file) as [pid|] eqn:E.
    + unfold stopPreview. simpl. by rewrite lookup_delete_eq.
    + unfold stopPreview. by rewrite E.
  - intros H. unfold stopPreview. by rewrite H.
Qed.

Lemma stopPreview_idempotent_witness :
  let s := onload vaultHost DEFAULT_SETTINGS in
  activePreviewProcesses s !! path doc = None /\ stopPreview doc s = s.
Proof.
  split; [reflexivity|].
  apply (stopPreview_idempotent (onload vaultHost DEFAULT_SETTINGS) doc).
  reflexivity.
Defined.

(** The stop of a running session sends its one signal; the second stop
    sends none. *)
Example stopPreview_twice_signals :
  let s := run (onload vaultHost DEFAULT_SETTINGS)
               [StartPreview doc; StopPreview doc; StopPreview doc] in
  (signals <$> processes s !! 0%nat) = Some 1%nat
  /\ activePreviewProcesses s !! path doc = None.
Proof. by vm_compute. Qed.

End StartStop.

(** ** Which files are previewed *)

Section QuartoFiles.

Import Main.

(** C9. [isQuartoFile] holds exactly for the extension ["qmd"], in lower
    case.  For a file with another extension the ribbon icon and the
    command show the notice "Current file is not a Quarto document" and do
    nothing else, and the ['file-open'] handler does nothing: no process
    is spawned and no entry is made. *)
Theorem isQuartoFile_qmd_only :
  (forall file, isQuartoFile file = true <-> extension file = js "qmd")
  /\ (forall p, isQuartoFile {| path := p; extension := js "QMD" |} = false)
  /\ (forall s file, extension file <> js "qmd" ->
        ribbonToggle (Some file) s = Notice notQuarto s
        /\ commandToggle (Some file) s = Notice notQuarto s
        /\ onFileOpen (Some file) s = s
        /\ activePreviewProcesses (Notice notQuarto s) = activePreviewProcesses s
        /\ activeWebViewers (Notice notQuarto s) = activeWebViewers s
        /\ processes (Notice notQuarto s) = processes s
        /\ notices (Notice notQuarto s) = notices s ++ [notQuarto]).
Proof.
  assert (Hiff : forall file, isQuartoFile file = true <-> extension file = js "qmd")
    by (intros file; apply bool_decide_eq_true).
  split; [exact Hiff|]. split; [done|].
  intros s file Hext.
  assert (Hq : isQuartoFile file = false).
  { destruct (isQuartoFile file) eqn:E; [|done]. by apply Hiff in E. }
  unfold ribbonToggle, commandToggle, onFileOpen. rewrite Hq.
  repeat split. by destruct (fileOpenRegistered s).
Qed.

Lemma isQuartoFile_qmd_only_witness :
  let file := {| path := js "notes/doc.QMD"; extension := js "QMD" |} in
  let s := onload vaultHost DEFAULT_SETTINGS in
  extension file <> js "qmd"
  /\ ribbonToggle (Some file) s = Notice notQuarto s.
Proof.
  split; [discriminate|].
  destruct isQuartoFile_qmd_only as (_ & _ & H).
  apply (H (onload vaultHost DEFAULT_SETTINGS)
           {| path := js "notes/doc.QMD"; extension := js "QMD" |}).
  discriminate.
Defined.

End QuartoFiles.

(** ** How the child is spawned *)

Section Spawn.

(** In [src/main.ts] both functions pass the full path of the document
    after the subcommand and run the child in the directory of that
    path. *)
Lemma main_spawn_arguments (s : Main.Plugin) (file : TFile) :
  spawns s file ->
  let filePath := getFullPath (Main.host s) (path file) in
  let pid := length (Main.processes s) in
  (exists p, Main.processes (fst (Main.startPreviewAndGetUrl file s)) !! pid
             = Some p
             /\ spawnfile p = Main.quartoPath (Main.settings s)
             /\ spawnargs p = [js "preview"; filePath]
             /\ cwd p = dirname (Main.host s) filePath)
  /\ (Main.activePreviewProcesses s !! path file = None ->
      exists p, Main.processes (Main.startPreview file s) !! pid = Some p
                /\ spawnfile p = Main.quartoPath (Main.settings s)
                /\ spawnargs p = [js "preview"; filePath]
                /\ cwd p = dirname (Main.host s) filePath).
Proof.
  intros Hs filePath pid. split.
  - rewrite startPreviewAndGetUrl_spawned by done. simpl.
    rewrite list_lookup_middle by done. eauto.
  - intros H. rewrite startPreview_spawned by done. simpl.
    rewrite list_lookup_middle by done. eauto.
Qed.

(** The second source passes [file.path] whatever the host. *)
Lemma part001_spawn_arguments (s : Part001.Plugin) (file : TFile) :
  Part001.activePreviewProcesses s !! path file = None ->
  spawns001 s file ->
  let filePath := getFullPath (Part001.host s) (path file) in
  exists p,
    Part001.processes (Part001.startPreview file s)
      !! length (Part001.processes s) = Some p
    /\ spawnargs p = [js "preview"; path file]
    /\ cwd p = dirname (Part001.host s) filePath.
Proof.
  intros H Hs filePath. rewrite part001_startPreview_spawned by done. simpl.
  rewrite list_lookup_middle by done. eauto.
Qed.

(** With an empty [quartoPath], which the settings tab can save, [spawn]
    throws.  In [src/main.ts] the plugin is left as it was, whichever
    function was to start the preview; the second source and the snapshot
    of the README catch the error and show a notice.  No process is
    entered. *)
Example start_with_empty_command :
  let st := {| Main.quartoPath := []; Main.autoPreview := false;
               Main.enableQmdLinking := false; Main.useWebViewer := true |} in
  let s := Main.onload vaultHost st in
  let t := Part001.onload vaultHost
             {| Part001.quartoPath := []; Part001.autoPreview := false |} in
  let r := Readme.startPreview doc
             {| Readme.host := vaultHost; Readme.processEnv := ∅;
                Readme.isFile := fun _ => true;
                Readme.settings :=
                  {| Readme.quartoPath := []; Readme.enableQmdLinking := true;
                     Readme.quartoTypst := [];
                     Readme.emitCompilationLogs := true |};
                Readme.activePreviewProcesses := ∅; Readme.processes := [];
                Readme.notices := [] |} in
  Main.startPreviewAndGetUrl doc s = (s, Main.Rejected)
  /\ Main.startPreview doc s = s
  /\ Main.ribbonToggle (Some doc) s = s
  /\ Part001.startPreview doc t
     = Part001.Notice (js "Failed to start Quarto preview") t
  /\ Readme.notices r = [js "Failed to start Quarto preview"]
  /\ Readme.processes r = []
  /\ Readme.activePreviewProcesses r = ∅.
Proof. by vm_compute. Qed.

(** C7, the second source at a document in a folder of the vault:
    [startPreview] hands the child the path inside the vault,
    [notes/doc.qmd], and not the absolute path [/vault/notes/doc.qmd],
    while the working directory is [/vault/notes]. *)
Theorem part001_spawns_with_vault_path :
  let s := Part001.startPreview doc
             (Part001.onload vaultHost Part001.DEFAULT_SETTINGS) in
  exists p,
    Part001.processes s !! 0%nat = Some p
    /\ getFullPath vaultHost (path doc) = js "/vault/notes/doc.qmd"
    /\ spawnargs p = [js "preview"; js "notes/doc.qmd"]
    /\ spawnargs p <> [js "preview"; getFullPath vaultHost (path doc)]
    /\ cwd p = js "/vault/notes".
Proof. eexists. vm_compute. repeat split. discriminate. Qed.

(** The same document in [src/main.ts]. *)
Example main_spawns_with_full_path :
  let s := Main.startPreview doc (Main.onload vaultHost Main.DEFAULT_SETTINGS) in
  exists p,
    Main.processes s !! 0%nat = Some p
    /\ spawnargs p = [js "preview"; js "/vault/notes/doc.qmd"]
    /\ cwd p = js "/vault/notes".
Proof. eexists. by vm_compute. Qed.

(** C8. The environment of every child that [spawn] returned is the
    inherited environment with the configured overrides laid over it, an
    override winning over an inherited variable of the same name; without
    overrides it is the inherited environment.  The snapshot of
    [README.md] configures one override, [QUARTO_TYPST]; [src/main.ts] and
    the second source configure none and give [spawn] no [env]. *)
Theorem spawn_environment :
  (forall s file,
     Readme.activePreviewProcesses s !! path file = None ->
     Readme.isFile s (path file) = true ->
     spawnsReadme s file ->
     exists p,
       Readme.processes (Readme.startPreview file s)
         !! length (Readme.processes s) = Some p
       /\ childEnvironment (Readme.processEnv s) p
          = Readme.environmentOverrides (Readme.settings s)
            ∪ Readme.processEnv s
       /\ (forall name,
             childEnvironment (Readme.processEnv s) p !! name
             = match Readme.environmentOverrides (Readme.settings s) !! name with
               | Some v => Some v
               | None => Readme.processEnv s !! name
               end)
       /\ (Readme.environmentOverrides (Readme.settings s) = ∅ ->
           childEnvironment (Readme.processEnv s) p = Readme.processEnv s))
  /\ (forall s file inherited,
        spawns s file ->
        exists p,
          Main.processes (fst (Main.startPreviewAndGetUrl file s))
            !! length (Main.processes s) = Some p
          /\ childEnvironment inherited p = inherited)
  /\ (forall s file inherited,
        Main.activePreviewProcesses s !! path file = None ->
        spawns s file ->
        exists p,
          Main.processes (Main.startPreview file s)
            !! length (Main.processes s) = Some p
          /\ childEnvironment inherited p = inherited)
  /\ (forall s file inherited,
        Part001.activePreviewProcesses s !! path file = None ->
        spawns001 s file ->
        exists p,
          Part001.processes (Part001.startPreview file s)
            !! length (Part001.processes s) = Some p
          /\ childEnvironment inherited p = inherited).
Proof.
  split; [|split; [|split]].
  - intros s file Hnone Hfile Hspawn.
    assert (E : Readme.envVars (Readme.settings s) (Readme.processEnv s)
                = Readme.environmentOverrides (Readme.settings s)
                  ∪ Readme.processEnv s).
    { unfold Readme.envVars, Readme.environmentOverrides.
      destruct (trim (Readme.quartoTypst (Readme.settings s))) as [|c v].
      - by rewrite (left_id_L ∅ (∪)).
      - by rewrite insert_union_singleton_l. }
    unfold Readme.startPreview, spawn. rewrite Hnone, Hfile.
    unfold spawnsReadme in Hspawn. rewrite Hspawn. simpl.
    rewrite list_lookup_middle by done.
    eexists. split; [done|]. unfold childEnvironment. simpl.
    split; [exact E|]. split.
    + intros name. rewrite E, lookup_union.
      destruct (Readme.environmentOverrides (Readme.settings s) !! name);
        by destruct (Readme.processEnv s !! name).
    + intros H0. by rewrite E, H0, (left_id_L ∅ (∪)).
  - intros s file inherited Hs.
    rewrite startPreviewAndGetUrl_spawned by done. simpl.
    rewrite list_lookup_middle by done. eauto.
  - intros s file inherited H Hs.
    rewrite startPreview_spawned by done. simpl.
    rewrite list_lookup_middle by done. eauto.
  - intros s file inherited H Hs.
    rewrite part001_startPreview_spawned by done. simpl.
    rewrite list_lookup_middle by done. eauto.
Qed.

(** The host defines [QUARTO_TYPST], the settings hold another value,
    surrounded by blanks: the child sees the trimmed setting, and [HOME]
    as inherited. *)
Lemma spawn_environment_witness :
  Readme.activePreviewProcesses typstPlugin !! path doc = None
  /\ Readme.isFile typstPlugin (path doc) = true
  /\ spawnsReadme typstPlugin doc
  /\ exists p,
       Readme.processes (Readme.startPreview doc typstPlugin) !! 0%nat = Some p
       /\ childEnvironment typstEnv p !! js "QUARTO_TYPST" = Some (js "/opt/typst")
       /\ childEnvironment typstEnv p !! js "HOME" = Some (js "/home/u").
Proof.
  split; [reflexivity|]. split; [reflexivity|]. split; [reflexivity|].
  destruct spawn_environment as (H & _).
  destruct (H typstPlugin doc eq_refl eq_refl eq_refl)
    as (p & Hp & _ & Hlook & _).
  exists p. split; [exact Hp|]. split.
  - etrans; [exact (Hlook (js "QUARTO_TYPST")) | reflexivity].
  - etrans; [exact (Hlook (js "HOME")) | reflexivity].
Defined.

End Spawn.

(** ** Settings *)

Section Settings.

Import Main.

(** C10. Whatever was saved, nothing, a part of the fields or all of them,
    [loadSettings] yields an object in which a field that was saved has
    the saved value and any other field has its default: [quartoPath]
    ['quarto'], [autoPreview] [false], [enableQmdLinking] [false],
    [useWebViewer] [true].  The four fields are always defined, and with
    nothing saved the settings are [DEFAULT_SETTINGS]. *)
Theorem loadSettings_defaults (data : option JsObject) :
  (forall field,
     loadSettings data !! field
     = match data ≫= (fun o => o !! field) with
       | Some v => Some v
       | None => toObject DEFAULT_SETTINGS !! field
       end)
  /\ toObject DEFAULT_SETTINGS !! js "quartoPath" = Some (JString (js "quarto"))
  /\ toObject DEFAULT_SETTINGS !! js "autoPreview" = Some (JBool false)
  /\ toObject DEFAULT_SETTINGS !! js "enableQmdLinking" = Some (JBool false)
  /\ toObject DEFAULT_SETTINGS !! js "useWebViewer" = Some (JBool true)
  /\ is_Some (loadSettings data !! js "quartoPath")
  /\ is_Some (loadSettings data !! js "autoPreview")
  /\ is_Some (loadSettings data !! js "enableQmdLinking")
  /\ is_Some (loadSettings data !! js "useWebViewer")
  /\ fromObject (loadSettings None) = Some DEFAULT_SETTINGS.
Proof.
  assert (H : forall field,
     loadSettings data !! field
     = match data ≫= (fun o => o !! field) with
       | Some v => Some v
       | None => toObject DEFAULT_SETTINGS !! field
       end).
  { intros field. unfold loadSettings, objectAssign. simpl.
    rewrite (right_id_L ∅ (∪)).
    destruct data as [o|]; simpl; [|done].
    rewrite lookup_union. destruct (o !! field); simpl; [|by rewrite (left_id_L None _)].
    by destruct (toObject DEFAULT_SETTINGS !! field). }
  split; [exact H|]. do 4 (split; [reflexivity|]).
  repeat split; try reflexivity; rewrite H; by destruct (data ≫= _).
Qed.

(** A settings file that holds the path only. *)
Example loadSettings_partial :
  let data := Some (<[js "quartoPath" := JString (js "/usr/local/bin/quarto")]> ∅) in
  fromObject (loadSettings data)
  = Some {| quartoPath := js "/usr/local/bin/quarto"; autoPreview := false;
            enableQmdLinking := false; useWebViewer := true |}.
Proof. reflexivity. Qed.

End Settings.

(** * Further properties of [src/main.ts] *)

(** ** What a run never undoes *)

Section Follows.

Import Main.

Implicit Types (s : Plugin) (p : ChildProcess) (pid : nat) (k : jsstring).

Lemma keeps_refl p : keeps p p.
Proof. by repeat split. Qed.

Lemma keeps_trans p1 p2 p3 : keeps p1 p2 -> keeps p2 p3 -> keeps p1 p3.
Proof.
  intros (A1 & A2 & A3 & A4 & A5) (B1 & B2 & B3 & B4 & B5).
  repeat split; try congruence. intros v H. by apply B5, A5.
Qed.

Lemma keeps_kill p : keeps p (kill p).
Proof. by repeat split. Qed.

Lemma keeps_killUnlessKilled p : keeps p (killUnlessKilled p).
Proof. unfold killUnlessKilled. destruct (killed p); by repeat split. Qed.

Lemma keeps_cleanup p : keeps p (cleanup p).
Proof. by repeat split. Qed.

Lemma keeps_exits p : keeps p (exits p).
Proof. by repeat split. Qed.

Lemma keeps_setAwaited p : keeps p (setAwaited p).
Proof. by repeat split. Qed.

Lemma keeps_setPromise pr p :
  promise p = Some Pending -> keeps p (setPromise pr p).
Proof. intros H. repeat split. intros v Hv. congruence. Qed.

Lemma follows_refl s : follows s s.
Proof.
  split; [done|]. split; [by left|]. intros pid p H.
  exists p. split; [done|]. split; [apply keeps_refl | done].
Qed.

Lemma follows_trans s1 s2 s3 : follows s1 s2 -> follows s2 s3 -> follows s1 s3.
Proof.
  intros (A1 & A2 & A3) (B1 & B2 & B3). split; [lia|]. split.
  - intros k pid H. destruct (B2 _ _ H) as [H2|H2]; [|right; lia].
    by apply A2.
  - intros pid p H. destruct (A3 _ _ H) as (p2 & H2 & K2 & S2).
    destruct (B3 _ _ H2) as (p3 & H3 & K3 & S3).
    exists p3. split; [done|]. split; [by eapply keeps_trans|].
    intros Hu. rewrite S3, S2; [done | done |].
    intros k Hk. destruct (A2 _ _ Hk) as [Hk1|Hk1]; [by apply (Hu k)|].
    apply lookup_lt_Some in H. lia.
Qed.

(** A method that leaves the signals alone, called on one process. *)
Lemma follows_onProcess pid f s :
  (forall p, processes s !! pid = Some p ->
             keeps p (f p) /\ signals (f p) = signals p) ->
  follows s (onProcess pid f s).
Proof.
  intros Hf. split; [by simpl; rewrite length_alter|]. split; [by left|].
  intros pid' p H. simpl. destruct (decide (pid = pid')) as [<-|Hne].
  - exists (f p). rewrite list_lookup_alter_eq, H.
    destruct (Hf p H) as [Hk Hs]. split; [done|]. split; [exact Hk | done].
  - exists p. rewrite list_lookup_alter_ne by done.
    split; [done|]. split; [apply keeps_refl | done].
Qed.

(** Nothing changed but the viewers, the leaves, the notices, the clock
    or the settings, and entries may have gone. *)
Lemma follows_same s s' :
  processes s' = processes s ->
  (forall k pid, activePreviewProcesses s' !! k = Some pid ->
                 activePreviewProcesses s !! k = Some pid) ->
  follows s s'.
Proof.
  intros Hp Hr. split; [by rewrite Hp|]. split; [by left; apply Hr|].
  intros pid p H. exists p. rewrite Hp.
  split; [done|]. split; [apply keeps_refl | done].
Qed.

Lemma follows_afterAwait k v leaf s : follows s (afterAwait k v leaf s).
Proof.
  apply follows_same; [apply processes_afterAwait|].
  intros k' pid. by rewrite registry_afterAwait.
Qed.

Lemma follows_resolve pid v leaf s : follows s (resolve pid v leaf s).
Proof.
  unfold resolve. destruct (processes s !! pid) as [p|] eqn:E;
    [|apply follows_refl].
  destruct (promise p) as [[|r]|] eqn:Ep; try apply follows_refl.
  assert (H : follows s (onProcess pid (setPromise (Resolved v)) s)).
  { apply follows_onProcess. intros q Hq.
    assert (q = p) as -> by congruence. split; [by apply keeps_setPromise|done]. }
  destruct (awaited p); [|done].
  eapply follows_trans; [exact H | apply follows_afterAwait].
Qed.

Lemma follows_cleanup pid s : follows s (onProcess pid cleanup s).
Proof. apply follows_onProcess. intros p _. split; [apply keeps_cleanup|done]. Qed.

Lemma follows_onStdoutData pid output leaf s :
  follows s (onStdoutData pid output leaf s).
Proof.
  unfold onStdoutData.
  destruct (processes s !! pid) as [p|]; [|apply follows_refl].
  destruct (dataListener p); [|apply follows_refl].
  destruct (readinessUrl output); [|apply follows_refl].
  eapply follows_trans; [apply follows_cleanup | apply follows_resolve].
Qed.

Lemma follows_onError pid s : follows s (onError pid s).
Proof.
  unfold onError.
  destruct (processes s !! pid) as [p|]; [|apply follows_refl].
  destruct (errorListener p); [|apply follows_refl].
  eapply follows_trans; [apply follows_cleanup | apply follows_resolve].
Qed.

Lemma follows_onExit pid s : follows s (onExit pid s).
Proof. apply follows_onProcess. intros p _. split; [apply keeps_exits|done]. Qed.

Lemma follows_onClose pid code s : follows s (onClose pid code s).
Proof.
  unfold onClose.
  destruct (processes s !! pid) as [p|]; [|apply follows_refl].
  destruct (closeListener p); [|apply follows_onExit].
  eapply follows_trans; [apply follows_onExit|].
  apply follows_same; [done|]. simpl. intros k pid' H.
  apply lookup_delete_Some in H. tauto.
Qed.

Lemma follows_onTimeout pid s : follows s (onTimeout pid s).
Proof.
  unfold onTimeout.
  eapply follows_trans; [apply follows_cleanup|].
  eapply follows_trans; [apply follows_resolve|].
  by apply follows_same.
Qed.

Lemma follows_fires t l s : follows s (foldl (fireIfDue t) s l).
Proof.
  revert s. induction l as [|pid l IH]; intros s; simpl; [apply follows_refl|].
  eapply follows_trans; [|apply IH]. unfold fireIfDue.
  destruct (due t pid s); [apply follows_onTimeout | apply follows_refl].
Qed.

Lemma follows_elapse dt s : follows s (elapse dt s).
Proof.
  unfold elapse. eapply follows_trans; [|apply follows_fires].
  by apply follows_same.
Qed.

(** Entering a process spawned now. *)
Lemma follows_register k p s :
  follows s
    (setRegistry (<[k := length (processes s)]> (activePreviewProcesses s))
       (setProcesses (processes s ++ [p]) s)).
Proof.
  split; [simpl; rewrite length_app; lia|]. split; simpl.
  - intros k' pid H. apply lookup_insert_Some in H as [[_ <-]|[_ H]];
      [right; lia | by left].
  - intros pid q H. exists q. split; [by apply lookup_app_l_Some|].
    split; [apply keeps_refl | done].
Qed.

Lemma follows_startPreview file s : follows s (startPreview file s).
Proof.
  unfold startPreview.
  destruct (activePreviewProcesses s !! path file); [apply follows_refl|].
  destruct (spawn _ _ _ _ _ _); [apply follows_register | apply follows_refl].
Qed.

Lemma follows_startPreviewAndGetUrl file s :
  follows s (fst (startPreviewAndGetUrl file s)).
Proof.
  unfold startPreviewAndGetUrl.
  destruct (spawn _ _ _ _ _ _); [apply follows_register | apply follows_refl].
Qed.

(** The sweep, seen from one process, in any state. *)
Lemma sweep_keeps (entries : list (jsstring * nat)) (ps : list ChildProcess)
    pid p :
  ps !! pid = Some p ->
  exists p',
    foldl (fun ps entry => alter killUnlessKilled (snd entry) ps) ps entries
      !! pid = Some p'
    /\ keeps p p' /\ (pid ∉ entries.*2 -> p' = p).
Proof.
  revert ps p. induction entries as [|[k pid'] entries IH]; intros ps p H; simpl.
  - exists p. split; [done|]. split; [apply keeps_refl | done].
  - destruct (decide (pid' = pid)) as [->|Hne].
    + destruct (IH (alter killUnlessKilled pid ps) (killUnlessKilled p))
        as (p' & Hp' & Hk & _); [by rewrite list_lookup_alter_eq, H|].
      exists p'. split; [done|]. split.
      * eapply keeps_trans; [apply keeps_killUnlessKilled | done].
      * intros Hout. exfalso. apply Hout. apply list_elem_of_here.
    + destruct (IH (alter killUnlessKilled pid' ps) p)
        as (p' & Hp' & Hk & Hout); [by rewrite list_lookup_alter_ne|].
      exists p'. split; [done|]. split; [done|].
      intros Hn. apply Hout. intros Hin. apply Hn.
      by apply list_elem_of_further.
Qed.

Lemma follows_stopPreview file s : follows s (stopPreview file s).
Proof.
  unfold stopPreview.
  destruct (activePreviewProcesses s !! path file) as [pid|] eqn:E;
    [|apply follows_refl].
  split; [by simpl; rewrite length_alter|]. split; simpl.
  - intros k pid' H. apply lookup_delete_Some in H. tauto.
  - intros pid' p H. destruct (decide (pid = pid')) as [<-|Hne].
    + exists (killUnlessKilled p). rewrite list_lookup_alter_eq, H.
      split; [done|]. split; [apply keeps_killUnlessKilled|].
      intros Hu. by destruct (Hu (path file)).
    + exists p. rewrite list_lookup_alter_ne by done.
      split; [done|]. split; [apply keeps_refl | done].
Qed.

Lemma follows_stopAllPreviews s : follows s (stopAllPreviews s).
Proof.
  split; [|split].
  - unfold stopAllPreviews. simpl.
    generalize (map_to_list (activePreviewProcesses s)).
    generalize (processes s). intros ps l. revert ps.
    induction l as [|e l IH]; intros ps; simpl; [done|].
    etrans; [|apply IH]. by rewrite length_alter.
  - simpl. intros k pid H. by rewrite lookup_empty in H.
  - intros pid p H. simpl.
    destruct (sweep_keeps (map_to_list (activePreviewProcesses s))
                (processes s) pid p H) as (p' & Hp' & Hk & Hout).
    exists p'. split; [done|]. split; [done|].
    intros Hu. rewrite Hout; [done|].
    intros Hin. apply list_elem_of_fmap in Hin as ([k pid'] & -> & Hin).
    apply elem_of_map_to_list in Hin. by destruct (Hu k).
Qed.

Lemma follows_toggleExternalPreview file s :
  follows s (toggleExternalPreview file s).
Proof.
  unfold toggleExternalPreview.
  destruct (activePreviewProcesses s !! path file);
    [apply follows_stopPreview | apply follows_startPreview].
Qed.

Lemma follows_toggleWebViewer file s : follows s (toggleWebViewer file s).
Proof.
  unfold toggleWebViewer.
  destruct (activeWebViewers s !! path file) as [leaf|].
  - eapply follows_trans; [|apply follows_stopPreview]. by apply follows_same.
  - pose proof (follows_startPreviewAndGetUrl file s) as H1.
    destruct (startPreviewAndGetUrl file s) as [s1 [pid|]]; [|done].
    eapply follows_trans; [exact H1|].
    apply follows_onProcess. intros p _. split; [apply keeps_setAwaited|done].
Qed.

Lemma follows_togglePreview file s : follows s (togglePreview file s).
Proof.
  unfold togglePreview.
  destruct (_ && _);
    [apply follows_toggleWebViewer | apply follows_toggleExternalPreview].
Qed.

Lemma follows_onunload s : follows s (onunload s).
Proof.
  unfold onunload.
  eapply follows_trans; [apply follows_stopAllPreviews|]. by apply follows_same.
Qed.

Lemma follows_step s a : follows s (step s a).
Proof.
  destruct a as [f|f|f| | | | | | | | | | | | | |]; simpl.
  - destruct f as [file|]; simpl; [|by apply follows_same].
    destruct (isQuartoFile file);
      [apply follows_togglePreview | by apply follows_same].
  - destruct f as [file|]; simpl; [|by apply follows_same].
    destruct (isQuartoFile file);
      [apply follows_togglePreview | by apply follows_same].
  - unfold onFileOpen. destruct (fileOpenRegistered s); [|apply follows_refl].
    destruct f as [file|]; [|apply follows_refl].
    destruct (isQuartoFile file);
      [apply follows_togglePreview | apply follows_refl].
  - apply follows_togglePreview.
  - apply follows_toggleWebViewer.
  - apply follows_toggleExternalPreview.
  - apply follows_startPreviewAndGetUrl.
  - apply follows_startPreview.
  - apply follows_stopPreview.
  - apply follows_stopAllPreviews.
  - apply follows_onunload.
  - by apply follows_same.
  - apply follows_onStdoutData.
  - apply follows_onError.
  - apply follows_onExit.
  - apply follows_onClose.
  - apply follows_elapse.
Qed.

Lemma follows_run actions s : follows s (run s actions).
Proof.
  revert s. induction actions as [|a actions IH]; intros s; simpl;
    [apply follows_refl|].
  eapply follows_trans; [apply follows_step | apply IH].
Qed.

End Follows.

(** ** A property of every process of the store, through every action *)

Section Store.

Import Main.

Variable P : ChildProcess -> Prop.

Hypothesis P_kill :
  forall p, P p -> killed p = false -> signals p = 0%nat -> P (kill p).
Hypothesis P_exits : forall p, P p -> P (exits p).
Hypothesis P_cleanup : forall p, P p -> P (cleanup p).
Hypothesis P_setPromise : forall pr p, P p -> P (setPromise pr p).
Hypothesis P_setAwaited : forall p, P p -> P (setAwaited p).
Hypothesis P_child :
  forall k data err close timer pr command args dir,
    P (attach k data err close timer pr (child command args dir false None)).

Implicit Types (s : Plugin) (pid : nat).

Lemma store_resolve pid v leaf s :
  Forall P (processes s) -> Forall P (processes (resolve pid v leaf s)).
Proof.
  intros H. rewrite processes_resolve.
  destruct (processes s !! pid) as [p|]; [|done].
  destruct (promise p) as [[|r]|]; try done.
  apply Forall_alter; [done|]. intros q _. apply P_setPromise.
Qed.

Lemma store_cleanup pid s :
  Forall P (processes s) -> Forall P (processes (onProcess pid cleanup s)).
Proof. intros H. simpl. apply Forall_alter; [done|]. intros q _. apply P_cleanup. Qed.

Lemma store_onExit pid s :
  Forall P (processes s) -> Forall P (processes (onExit pid s)).
Proof. intros H. simpl. apply Forall_alter; [done|]. intros q _. apply P_exits. Qed.

Lemma store_onTimeout pid s :
  Forall P (processes s) -> Forall P (processes (onTimeout pid s)).
Proof.
  intros H. unfold onTimeout. cbn [Notice processes].
  by apply store_resolve, store_cleanup.
Qed.

Lemma store_fires t l s :
  Forall P (processes s) -> Forall P (processes (foldl (fireIfDue t) s l)).
Proof.
  revert s. induction l as [|pid l IH]; intros s H; simpl; [done|].
  apply IH. unfold fireIfDue.
  destruct (due t pid s); [by apply store_onTimeout | done].
Qed.

(** A process that has an entry was never killed: the guarded [kill()] of
    [stopPreview] and of [stopAllPreviews] is a [kill()]. *)
Lemma store_stopAllPreviews s :
  consistent s ->
  Forall P (processes s) -> Forall P (processes (stopAllPreviews s)).
Proof.
  intros Hc H. apply Forall_lookup. intros pid q Hq.
  destruct (stopAllPreviews_sweep s pid Hc) as (_ & Hin & Hout).
  destruct (decide (pid ∈ (map_to_list (activePreviewProcesses s)).*2))
    as [Hreg|Hreg].
  - apply registered_elem in Hreg as (k & Hk).
    rewrite Hin in Hq by eauto. destruct Hc as [C1 _].
    destruct (C1 _ _ Hk) as (p & Hp & Hkl & Hs).
    rewrite Hp in Hq. simpl in Hq. injection Hq as <-.
    unfold killUnlessKilled. rewrite Hkl. apply P_kill; [|done|done].
    by eapply Forall_lookup_1.
  - rewrite Hout in Hq; [by eapply Forall_lookup_1|].
    intros k Hk. apply Hreg, registered_elem. eauto.
Qed.

Lemma store_stopPreview file s :
  consistent s ->
  Forall P (processes s) -> Forall P (processes (stopPreview file s)).
Proof.
  intros [C1 _] H. unfold stopPreview.
  destruct (activePreviewProcesses s !! path file) as [pid|] eqn:E; [|done].
  destruct (C1 _ _ E) as (p & Hp & Hkl & Hs).
  simpl. apply Forall_alter; [done|]. intros q Hq Pq.
  assert (q = p) as -> by congruence.
  unfold killUnlessKilled. rewrite Hkl. by apply P_kill.
Qed.

Lemma store_startPreview file s :
  Forall P (processes s) -> Forall P (processes (startPreview file s)).
Proof.
  intros H. unfold startPreview, spawn.
  destruct (activePreviewProcesses s !! path file); [done|].
  destruct (spawnThrows _ _ _ _); [done|].
  simpl. apply Forall_app. split; [done|]. constructor; [apply P_child | done].
Qed.

Lemma store_startPreviewAndGetUrl file s :
  Forall P (processes s) ->
  Forall P (processes (fst (startPreviewAndGetUrl file s))).
Proof.
  intros H. unfold startPreviewAndGetUrl, spawn.
  destruct (spawnThrows _ _ _ _); [done|].
  simpl. apply Forall_app.
  split; [done|]. constructor; [apply P_child | done].
Qed.

Lemma store_toggleWebViewer file s :
  consistent s ->
  Forall P (processes s) -> Forall P (processes (toggleWebViewer file s)).
Proof.
  intros Hc H. unfold toggleWebViewer.
  destruct (activeWebViewers s !! path file) as [leaf|].
  - apply store_stopPreview; [|done]. by destruct Hc.
  - pose proof (store_startPreviewAndGetUrl file s H) as H1.
    destruct (startPreviewAndGetUrl file s) as [s1 [pid|]]; [|done].
    simpl. apply Forall_alter; [done|]. intros q _. apply P_setAwaited.
Qed.

Lemma store_toggleExternalPreview file s :
  consistent s ->
  Forall P (processes s) -> Forall P (processes (toggleExternalPreview file s)).
Proof.
  intros Hc H. unfold toggleExternalPreview.
  destruct (activePreviewProcesses s !! path file);
    [by apply store_stopPreview | by apply store_startPreview].
Qed.

Lemma store_togglePreview file s :
  consistent s ->
  Forall P (processes s) -> Forall P (processes (togglePreview file s)).
Proof.
  intros Hc H. unfold togglePreview.
  destruct (_ && _);
    [by apply store_toggleWebViewer | by apply store_toggleExternalPreview].
Qed.

Lemma store_step s a :
  consistent s ->
  Forall P (processes s) -> Forall P (processes (step s a)).
Proof.
  intros Hc H. destruct a as [f|f|f| | | | | | | | | | | | | |]; simpl.
  - destruct f as [file|]; simpl; [|done].
    destruct (isQuartoFile file); [by apply store_togglePreview | done].
  - destruct f as [file|]; simpl; [|done].
    destruct (isQuartoFile file); [by apply store_togglePreview | done].
  - unfold onFileOpen. destruct (fileOpenRegistered s); [|done].
    destruct f as [file|]; [|done].
    destruct (isQuartoFile file); [by apply store_togglePreview | done].
  - by apply store_togglePreview.
  - by apply store_toggleWebViewer.
  - by apply store_toggleExternalPreview.
  - by apply store_startPreviewAndGetUrl.
  - by apply store_startPreview.
  - by apply store_stopPreview.
  - by apply store_stopAllPreviews.
  - by apply store_stopAllPreviews.
  - done.
  - unfold onStdoutData. destruct (processes s !! pid) as [p|]; [|done].
    destruct (dataListener p); [|done].
    destruct (readinessUrl output); [|done].
    by apply store_resolve, store_cleanup.
  - unfold onError. destruct (processes s !! pid) as [p|]; [|done].
    destruct (errorListener p); [|done].
    by apply store_resolve, store_cleanup.
  - by apply store_onExit.
  - unfold onClose. destruct (processes s !! pid) as [p|]; [|done].
    destruct (closeListener p); by apply store_onExit.
  - unfold elapse. by apply store_fires.
Qed.

Lemma store_run actions s :
  consistent s ->
  Forall P (processes s) -> Forall P (processes (run s actions)).
Proof.
  revert s. induction actions as [|a actions IH]; intros s Hc H; simpl; [done|].
  apply IH; [by apply consistent_step | by apply store_step].
Qed.

End Store.

Section Signals.

Import Main.

Lemma tidy_run actions s :
  consistent s ->
  Forall tidy (processes s) -> Forall tidy (processes (run s actions)).
Proof.
  apply store_run; try done.
  - intros p _ Hk Hs. unfold tidy. simpl. rewrite Hs. by split.
  - intros *. unfold tidy. simpl. split; [lia | done].
Qed.

(** X1. In every state the plugin reaches, whatever the toggles, stops,
    sweeps and events before, [kill()] has been called at most once on
    any process; it has been called once when the [killed] flag of the
    process is set, and not at all as long as the process has an entry in
    the registry. *)
Theorem no_second_signal (h : Host) (st : QmdPluginSettings)
    (actions : list Action) (pid : nat) (p : ChildProcess) :
  let s := run (onload h st) actions in
  processes s !! pid = Some p ->
  (signals p <= 1)%nat
  /\ (killed p = true -> signals p = 1%nat)
  /\ ((exists k, activePreviewProcesses s !! k = Some pid) ->
      signals p = 0%nat /\ killed p = false).
Proof.
  intros s Hp.
  assert (Ht : tidy p).
  { assert (H : Forall tidy (processes s))
      by (apply tidy_run; [apply consistent_onload | done]).
    rewrite Forall_lookup in H. by apply (H pid). }
  destruct Ht as [H1 H2]. split; [done|]. split; [done|].
  intros (k & Hk).
  destruct (consistent_run actions (onload h st) (consistent_onload h st))
    as [C1 _].
  destruct (C1 k pid Hk) as (q & Hq & Hkl & Hs). fold s in Hq.
  assert (q = p) as -> by congruence. done.
Qed.

Lemma no_second_signal_witness :
  let s := run (onload vaultHost DEFAULT_SETTINGS)
               [StartPreview doc; StopPreview doc; StartPreview doc;
                StopAllPreviews; StopPreview doc] in
  exists p, processes s !! 0%nat = Some p /\ (signals p <= 1)%nat.
Proof.
  eexists. split; [reflexivity|].
  eapply (no_second_signal vaultHost DEFAULT_SETTINGS
            [StartPreview doc; StopPreview doc; StartPreview doc;
             StopAllPreviews; StopPreview doc] 0%nat).
  reflexivity.
Defined.

(** X2. Once the promise of a process is settled, no later action changes
    its value, be it a later marker, the timer, an error or a stop; and
    the process stays in the store with the command, the arguments, the
    working directory and the document it was spawned for. *)
Theorem settled_promise_is_kept (s : Plugin) (actions : list Action)
    (pid : nat) (p : ChildProcess) (v : option jsstring) :
  processes s !! pid = Some p ->
  promise p = Some (Resolved v) ->
  exists p', processes (run s actions) !! pid = Some p'
             /\ promise p' = Some (Resolved v)
             /\ spawnfile p' = spawnfile p /\ spawnargs p' = spawnargs p
             /\ cwd p' = cwd p /\ key p' = key p.
Proof.
  intros Hp Hv. destruct (follows_run actions s) as (_ & _ & H).
  destruct (H pid p Hp) as (p' & Hp' & (K1 & K2 & K3 & K4 & K5) & _).
  exists p'. split; [done|]. split; [by apply K5 | done].
Qed.

Lemma settled_promise_is_kept_witness :
  let s := run (onload vaultHost DEFAULT_SETTINGS)
               [StartPreviewAndGetUrl doc; StdoutData 0 marker true] in
  let later := [StdoutData 0 (js "Browse at http://localhost:7777/") true;
                Elapse 20000; ProcessError 0; StopPreview doc] in
  exists p p',
    processes s !! 0%nat = Some p
    /\ promise p = Some (Resolved (Some (js "http://localhost:4000/")))
    /\ processes (run s later) !! 0%nat = Some p'
    /\ promise p' = Some (Resolved (Some (js "http://localhost:4000/"))).
Proof.
  eexists. 
  destruct (settled_promise_is_kept
              (run (onload vaultHost DEFAULT_SETTINGS)
                   [StartPreviewAndGetUrl doc; StdoutData 0 marker true])
              [StdoutData 0 (js "Browse at http://localhost:7777/") true;
               Elapse 20000; ProcessError 0; StopPreview doc]
              0%nat _ (Some (js "http://localhost:4000/")) eq_refl eq_refl)
    as (p' & Hp' & Hv & _).
  exists p'. split; [reflexivity|]. split; [reflexivity|]. by split.
Defined.

(** X3. When [spawn] returns, [startPreviewAndGetUrl] on a document that
    has an entry replaces the entry by the new process.  The process
    entered before is then out of reach of the plugin: whatever happens
    afterwards, no [stopPreview], no [stopAllPreviews] and no unload calls
    [kill()] on it. *)
Theorem replaced_process_is_never_signalled (h : Host)
    (st : QmdPluginSettings) (before after : list Action) (file : TFile)
    (pid0 : nat) :
  let s := run (onload h st) before in
  activePreviewProcesses s !! path file = Some pid0 ->
  spawns s file ->
  let s1 := fst (startPreviewAndGetUrl file s) in
  activePreviewProcesses s1 !! path file = Some (length (processes s))
  /\ pid0 <> length (processes s)
  /\ exists p', processes (run s1 after) !! pid0 = Some p'
                /\ signals p' = 0%nat /\ killed p' = false.
Proof.
  intros s Hreg Hspawn s1.
  destruct (consistent_run before (onload h st) (consistent_onload h st))
    as [C1 C2]. fold s in C1, C2.
  destruct (C1 _ _ Hreg) as (p & Hp & Hkl & Hs).
  assert (Hlt : (pid0 < length (processes s))%nat) by by eapply lookup_lt_Some.
  assert (E1 : s1 = setRegistry (<[path file := length (processes s)]>
                                   (activePreviewProcesses s))
                      (setProcesses (processes s ++ [started s file]) s))
    by (unfold s1; by rewrite startPreviewAndGetUrl_spawned).
  split; [by rewrite E1; simpl; rewrite lookup_insert_eq|]. split; [lia|].
  assert (Hp1 : processes s1 !! pid0 = Some p)
    by (rewrite E1; simpl; by apply lookup_app_l_Some).
  assert (Hu : unregistered s1 pid0).
  { intros k Hk. rewrite E1 in Hk. simpl in Hk.
    apply lookup_insert_Some in Hk as [[_ Hk]|[Hne Hk]]; [lia|].
    apply Hne. by apply (C2 _ _ pid0). }
  assert (Hc1 : consistent s1).
  { unfold s1. apply consistent_startPreviewAndGetUrl.
    apply consistent_run, consistent_onload. }
  destruct (follows_run after s1) as (_ & Hent & H).
  destruct (H pid0 p Hp1) as (p' & Hp' & _ & Hsig).
  exists p'. split; [done|]. split; [by rewrite Hsig|].
  assert (Ht : Forall tidy (processes (run s1 after))).
  { apply tidy_run; [done|]. unfold s1.
    apply store_startPreviewAndGetUrl.
    - intros *. unfold tidy. simpl. split; [lia | done].
    - apply tidy_run; [apply consistent_onload | done]. }
  rewrite Forall_lookup in Ht. destruct (Ht _ _ Hp') as [_ Hk].
  destruct (killed p') eqn:E; [|done].
  rewrite Hsig in Hk by done. specialize (Hk eq_refl). congruence.
Qed.

Lemma replaced_process_is_never_signalled_witness :
  let s := run (onload vaultHost DEFAULT_SETTINGS) [StartPreview doc] in
  let s1 := fst (startPreviewAndGetUrl doc s) in
  activePreviewProcesses s !! path doc = Some 0%nat
  /\ spawns s doc
  /\ exists p',
       processes (run s1 [StopPreview doc; StopAllPreviews; Unload])
         !! 0%nat = Some p'
       /\ signals p' = 0%nat /\ killed p' = false.
Proof.
  split; [reflexivity|]. split; [reflexivity|].
  apply (replaced_process_is_never_signalled vaultHost DEFAULT_SETTINGS
           [StartPreview doc] [StopPreview doc; StopAllPreviews; Unload]
           doc 0%nat); reflexivity.
Defined.

End Signals.

(** ** Toggling on and off *)

Section Toggling.

Import Main.

Implicit Types (s : Plugin) (p : ChildProcess) (pid : nat).

Lemma alter_last {A} (f : A -> A) (l : list A) (x : A) :
  alter f (length l) (l ++ [x]) = l ++ [f x].
Proof. induction l as [|y l IH]; simpl; [done|]. by f_equal. Qed.

Lemma readinessUrl_nonempty output url :
  readinessUrl output = Some url -> exists c u, url = c :: u.
Proof.
  unfold readinessUrl. destruct (includes output BrowseAt); [|done].
  destruct (regexMatch output) as [[|c u]|]; [done| |done].
  intros [= <-]. eauto.
Qed.

(** A chunk with the marker, for a process that listens and whose promise
    is pending. *)
Lemma marker_lookup pid output url leaf s p :
  processes s !! pid = Some p -> dataListener p = true ->
  promise p = Some Pending -> readinessUrl output = Some url ->
  processes (onStdoutData pid output leaf s) !! pid
  = Some (setPromise (Resolved (Some url)) (cleanup p)).
Proof.
  intros Hp Hd Hpr Hu. unfold onStdoutData. rewrite Hp, Hd, Hu.
  rewrite processes_resolve. cbn [onProcess setProcesses processes].
  rewrite list_lookup_alter_eq, Hp. simpl.
  change (promise (cleanup p)) with (promise p). rewrite Hpr.
  by rewrite !list_lookup_alter_eq, Hp.
Qed.

Lemma error_lookup pid s p :
  processes s !! pid = Some p -> errorListener p = true ->
  promise p = Some Pending ->
  processes (onError pid s) !! pid
  = Some (setPromise (Resolved None) (cleanup p)).
Proof.
  intros Hp Hd Hpr. unfold onError. rewrite Hp, Hd.
  rewrite processes_resolve. cbn [onProcess setProcesses processes].
  rewrite list_lookup_alter_eq, Hp. simpl.
  change (promise (cleanup p)) with (promise p). rewrite Hpr.
  by rewrite !list_lookup_alter_eq, Hp.
Qed.

Lemma onClose_deaf pid code s p :
  processes s !! pid = Some p -> closeListener p = false ->
  onClose pid code s = onExit pid s.
Proof. intros Hp Hc. unfold onClose. by rewrite Hp, Hc. Qed.

(** X4. Toggling the external preview twice for a document without an
    entry, when [spawn] returns: the first toggle spawns and enters a
    process, the second calls [kill()] on it, once, and removes the entry.
    The registry is as before, the store has one process more, and no
    notice is shown. *)
Theorem toggleExternalPreview_twice (s : Plugin) (file : TFile) :
  activePreviewProcesses s !! path file = None ->
  spawns s file ->
  let s1 := toggleExternalPreview file s in
  let s2 := toggleExternalPreview file s1 in
  activePreviewProcesses s1 !! path file = Some (length (processes s))
  /\ activePreviewProcesses s2 = activePreviewProcesses s
  /\ (exists p, processes s2 = processes s ++ [p]
                /\ signals p = 1%nat
                /\ spawnargs p
                   = [js "preview"; getFullPath (host s) (path file)])
  /\ notices s2 = notices s
  /\ activeWebViewers s2 = activeWebViewers s.
Proof.
  intros Hnone Hspawn s1 s2.
  assert (E1 : s1 = setRegistry (<[path file := length (processes s)]>
                                   (activePreviewProcesses s))
                      (setProcesses (processes s ++ [startedExternal s file])
                                    s)).
  { unfold s1, toggleExternalPreview. rewrite Hnone.
    by apply startPreview_spawned. }
  assert (H1 : activePreviewProcesses s1 !! path file
               = Some (length (processes s)))
    by (rewrite E1; simpl; by rewrite lookup_insert_eq).
  split; [done|].
  unfold s2, toggleExternalPreview, stopPreview. rewrite H1.
  rewrite E1. simpl.
  rewrite delete_insert_eq, delete_id by done. split; [done|].
  rewrite alter_last. split; [|done]. eexists. split; [done|]. done.
Qed.

Lemma toggleExternalPreview_twice_witness :
  let s := onload vaultHost DEFAULT_SETTINGS in
  activePreviewProcesses s !! path doc = None
  /\ spawns s doc
  /\ activePreviewProcesses
       (toggleExternalPreview doc (toggleExternalPreview doc s))
     = activePreviewProcesses s.
Proof.
  split; [reflexivity|]. split; [reflexivity|].
  apply (toggleExternalPreview_twice (onload vaultHost DEFAULT_SETTINGS) doc);
    reflexivity.
Defined.

(** X5. The web viewer, on and off, when [spawn] returns: for a document
    without a viewer, [toggleWebViewer] spawns and enters a process; when
    a chunk with the marker arrives and the workspace hands out a leaf,
    the leaf shows the extracted URL and is entered as the viewer of the
    document; the next [toggleWebViewer] detaches that leaf, removes the
    viewer and the entry and calls [kill()] on the process, once. *)
Theorem toggleWebViewer_on_and_off (s : Plugin) (file : TFile)
    (output url : jsstring) :
  activeWebViewers s !! path file = None ->
  readinessUrl output = Some url ->
  spawns s file ->
  let pid := length (processes s) in
  let leaf := length (leaves s) in
  let s1 := toggleWebViewer file s in
  let s2 := onStdoutData pid output true s1 in
  let s3 := toggleWebViewer file s2 in
  activePreviewProcesses s1 !! path file = Some pid
  /\ activeWebViewers s1 = activeWebViewers s
  /\ activeWebViewers s2 !! path file = Some leaf
  /\ leaves s2 = leaves s ++ [{| viewUrl := url; detached := false |}]
  /\ activePreviewProcesses s2 !! path file = Some pid
  /\ activeWebViewers s3 = activeWebViewers s
  /\ leaves s3 = leaves s ++ [{| viewUrl := url; detached := true |}]
  /\ activePreviewProcesses s3 !! path file = None
  /\ (exists p, processes s3 !! pid = Some p
                /\ signals p = 1%nat
                /\ promise p = Some (Resolved (Some url)))
  /\ notices s3 = notices s.
Proof.
  intros Hnone Hurl Hspawn pid leaf s1 s2 s3.
  destruct (readinessUrl_nonempty _ _ Hurl) as (c & u & ->).
  assert (E1 : s1 = onProcess pid setAwaited
                      (setRegistry (<[path file := pid]>
                                      (activePreviewProcesses s))
                         (setProcesses (processes s ++ [started s file]) s))).
  { unfold s1, toggleWebViewer. rewrite Hnone.
    by rewrite startPreviewAndGetUrl_spawned. }
  assert (P1 : processes s1 = processes s ++ [setAwaited (started s file)]).
  { rewrite E1. simpl. apply alter_last. }
  assert (L1 : processes s1 !! pid = Some (setAwaited (started s file)))
    by (rewrite P1; by apply list_lookup_middle).
  assert (E2 : s2 = afterAwait (path file) (Some (c :: u)) true
                      (onProcess pid (setPromise (Resolved (Some (c :: u))))
                         (onProcess pid cleanup s1))).
  { unfold s2, onStdoutData. rewrite L1. cbn [setAwaited dataListener].
    rewrite Hurl. unfold resolve. cbn [onProcess setProcesses processes].
    rewrite list_lookup_alter_eq, L1. reflexivity. }
  assert (V2 : activeWebViewers s2 !! path file = Some leaf).
  { rewrite E2, E1. simpl. by rewrite lookup_insert_eq. }
  split; [rewrite E1; simpl; by rewrite lookup_insert_eq|].
  split; [by rewrite E1|]. split; [done|].
  split; [by rewrite E2, E1|].
  split; [rewrite E2, E1; simpl; by rewrite lookup_insert_eq|].
  unfold s3, toggleWebViewer. rewrite V2. unfold stopPreview.
  rewrite E2, E1. simpl. rewrite lookup_insert_eq. simpl.
  rewrite !delete_insert_eq, lookup_delete_eq.
  split; [by rewrite delete_id|].
  unfold leaf, pid. rewrite alter_last.
  split; [done|]. split; [done|]. split; [|done].
  rewrite !list_lookup_alter_eq, list_lookup_middle by done.
  eexists. split; [reflexivity|]. done.
Qed.

Lemma toggleWebViewer_on_and_off_witness :
  let s := onload vaultHost DEFAULT_SETTINGS in
  activeWebViewers s !! path doc = None
  /\ readinessUrl marker = Some (js "http://localhost:4000/")
  /\ spawns s doc
  /\ leaves (toggleWebViewer doc
               (onStdoutData 0 marker true (toggleWebViewer doc s)))
     = [{| viewUrl := js "http://localhost:4000/"; detached := true |}].
Proof.
  split; [reflexivity|]. split; [reflexivity|]. split; [reflexivity|].
  apply (toggleWebViewer_on_and_off (onload vaultHost DEFAULT_SETTINGS) doc
           marker (js "http://localhost:4000/")); reflexivity.
Defined.

End Toggling.

Section AfterSettling.

Import Main.

Implicit Types (s : Plugin) (p : ChildProcess) (pid : nat).

(** X6. [spawn] returns; when the marker arrives and the workspace hands
    out no leaf, the notice "Failed to create preview pane" is shown and
    nothing is rolled back: the process keeps its entry, [kill()] is not
    called on it, its promise holds the URL, and no viewer is recorded.
    The next [toggleWebViewer] for the document therefore starts a second
    process instead of stopping the first. *)
Theorem toggleWebViewer_without_leaf (s : Plugin) (file : TFile)
    (output url : jsstring) :
  activeWebViewers s !! path file = None ->
  readinessUrl output = Some url ->
  spawns s file ->
  let pid := length (processes s) in
  let s2 := onStdoutData pid output false (toggleWebViewer file s) in
  let s3 := toggleWebViewer file s2 in
  notices s2 = notices s ++ [js "Failed to create preview pane"]
  /\ activeWebViewers s2 = activeWebViewers s
  /\ leaves s2 = leaves s
  /\ activePreviewProcesses s2 !! path file = Some pid
  /\ (exists p, processes s2 !! pid = Some p
                /\ promise p = Some (Resolved (Some url))
                /\ killed p = false /\ signals p = 0%nat)
  /\ length (processes s3) = S (S (length (processes s)))
  /\ activePreviewProcesses s3 !! path file = Some (S pid)
  /\ (exists p, processes s3 !! pid = Some p
                /\ killed p = false /\ signals p = 0%nat).
Proof.
  intros Hnone Hurl Hspawn pid s2 s3.
  destruct (readinessUrl_nonempty _ _ Hurl) as (c & u & ->).
  set (s1 := toggleWebViewer file s) in *.
  assert (E1 : s1 = onProcess pid setAwaited
                      (setRegistry (<[path file := pid]>
                                      (activePreviewProcesses s))
                         (setProcesses (processes s ++ [started s file]) s))).
  { unfold s1, toggleWebViewer. rewrite Hnone.
    by rewrite startPreviewAndGetUrl_spawned. }
  assert (L1 : processes s1 !! pid = Some (setAwaited (started s file))).
  { rewrite E1. simpl. unfold pid. rewrite alter_last.
    by apply list_lookup_middle. }
  assert (E2 : s2 = afterAwait (path file) (Some (c :: u)) false
                      (onProcess pid (setPromise (Resolved (Some (c :: u))))
                         (onProcess pid cleanup s1))).
  { unfold s2, onStdoutData. rewrite L1. cbn [setAwaited dataListener].
    rewrite Hurl. unfold resolve. cbn [onProcess setProcesses processes].
    rewrite list_lookup_alter_eq, L1. reflexivity. }
  assert (V2 : activeWebViewers s2 = activeWebViewers s) by by rewrite E2, E1.
  split; [by rewrite E2, E1|]. split; [done|]. split; [by rewrite E2, E1|].
  split; [rewrite E2, E1; simpl; by rewrite lookup_insert_eq|].
  assert (P2 : processes s2
               = processes s
                 ++ [setPromise (Resolved (Some (c :: u)))
                       (cleanup (setAwaited (started s file)))]).
  { rewrite E2, E1. simpl. unfold pid. by rewrite !alter_last. }
  split.
  { rewrite P2. unfold pid. rewrite list_lookup_middle by done.
    eexists. split; [reflexivity|]. done. }
  assert (Hspawn2 : spawns s2 file) by (by rewrite E2, E1).
  unfold s3, toggleWebViewer. rewrite V2, Hnone.
  rewrite startPreviewAndGetUrl_spawned by done. simpl.
  rewrite length_alter, length_app, P2, length_app. simpl.
  split; [lia|]. split.
  - rewrite lookup_insert_eq. f_equal. unfold pid. lia.
  - rewrite list_lookup_alter_ne by (unfold pid; lia).
    rewrite lookup_app_l by (rewrite length_app; simpl; unfold pid; lia).
    unfold pid. rewrite list_lookup_middle by done.
    eexists. split; [reflexivity|]. done.
Qed.

Lemma toggleWebViewer_without_leaf_witness :
  let s := onload vaultHost DEFAULT_SETTINGS in
  activeWebViewers s !! path doc = None
  /\ readinessUrl marker = Some (js "http://localhost:4000/")
  /\ spawns s doc
  /\ notices (onStdoutData 0 marker false (toggleWebViewer doc s))
     = [js "Failed to create preview pane"].
Proof.
  split; [reflexivity|]. split; [reflexivity|]. split; [reflexivity|].
  apply (toggleWebViewer_without_leaf (onload vaultHost DEFAULT_SETTINGS) doc
           marker (js "http://localhost:4000/")); reflexivity.
Defined.

(** X7. [spawn] returned; once the promise of [startPreviewAndGetUrl] is
    settled, by the marker, by an ['error'] event or by the timer, the
    ['close'] listener is gone with the others: when the process closes
    later, the plugin notes nothing but that it has ended, and its entry
    stays in the registry.  An ['error'] settles the promise with [null]
    without a notice. *)
Theorem entry_outlives_process (s : Plugin) (file : TFile) (code : option N) :
  spawns s file ->
  let pid := length (processes s) in
  let s1 := fst (startPreviewAndGetUrl file s) in
  (forall output leaf, is_Some (readinessUrl output) ->
     let s2 := onStdoutData pid output leaf s1 in
     onClose pid code s2 = onExit pid s2
     /\ activePreviewProcesses s2 !! path file = Some pid
     /\ activePreviewProcesses (onClose pid code s2) !! path file = Some pid)
  /\ (let s2 := onError pid s1 in
      onClose pid code s2 = onExit pid s2
      /\ activePreviewProcesses s2 !! path file = Some pid
      /\ activePreviewProcesses (onClose pid code s2) !! path file = Some pid
      /\ processes s2 !! pid
         = Some (setPromise (Resolved None) (cleanup (started s file)))
      /\ notices s2 = notices s)
  /\ (forall dt, (startupTimeout <= dt)%N ->
        let s2 := elapse dt s1 in
        onClose pid code s2 = onExit pid s2
        /\ activePreviewProcesses s2 !! path file = Some pid
        /\ activePreviewProcesses (onClose pid code s2) !! path file
           = Some pid).
Proof.
  intros Hspawn pid s1.
  assert (E1 : s1 = setRegistry (<[path file := pid]>
                                   (activePreviewProcesses s))
                      (setProcesses (processes s ++ [started s file]) s))
    by (unfold s1; by rewrite startPreviewAndGetUrl_spawned).
  assert (L1 : processes s1 !! pid = Some (started s file))
    by (rewrite E1; simpl; by apply list_lookup_middle).
  assert (R1 : activePreviewProcesses s1 !! path file = Some pid)
    by (rewrite E1; simpl; by rewrite lookup_insert_eq).
  assert (Hdeaf : forall s2 p, processes s2 !! pid = Some p ->
            closeListener p = false ->
            activePreviewProcesses s2 !! path file = Some pid ->
            onClose pid code s2 = onExit pid s2
            /\ activePreviewProcesses s2 !! path file = Some pid
            /\ activePreviewProcesses (onClose pid code s2) !! path file
               = Some pid).
  { intros s2 p Hp Hc Hr.
    assert (E : onClose pid code s2 = onExit pid s2)
      by by eapply onClose_deaf.
    split; [done|]. split; [done|]. by rewrite E. }
  split; [|split].
  - intros output leaf [url Hurl] s2.
    eapply Hdeaf; [by eapply marker_lookup | done |].
    unfold s2, onStdoutData. rewrite L1, Hurl. simpl.
    by rewrite registry_resolve.
  - assert (L2 : processes (onError pid s1) !! pid
                 = Some (setPromise (Resolved None) (cleanup (started s file))))
      by by apply error_lookup.
    assert (R2 : activePreviewProcesses (onError pid s1) !! path file
                 = Some pid).
    { unfold onError. rewrite L1. simpl. by rewrite registry_resolve. }
    destruct (Hdeaf _ _ L2 eq_refl R2) as (A & B & C).
    do 4 (split; [done|]).
    unfold onError. rewrite L1. simpl. rewrite notices_resolve_null.
    by rewrite E1.
  - intros dt Hdt s2.
    destruct (waiting_elapse s file s1 0 dt (waiting_start s file Hspawn))
      as (_ & Hreg & Hp & _).
    rewrite N.add_0_l in Hp.
    destruct (N.ltb_spec dt startupTimeout); [lia|].
    by eapply Hdeaf.
Qed.

Lemma entry_outlives_process_witness :
  let s := onload vaultHost DEFAULT_SETTINGS in
  let s1 := fst (startPreviewAndGetUrl doc s) in
  spawns s doc
  /\ is_Some (readinessUrl marker)
  /\ activePreviewProcesses
       (onClose 0 (Some 0) (onStdoutData 0 marker true s1)) !! path doc
     = Some 0%nat.
Proof.
  split; [reflexivity|]. split; [by eexists|].
  destruct (entry_outlives_process (onload vaultHost DEFAULT_SETTINGS) doc
              (Some 0) eq_refl) as (H & _).
  destruct (H marker true) as (_ & _ & Hr); [by eexists|]. exact Hr.
Defined.

End AfterSettling.

(** ** What a web viewer shows *)

Section Viewers.

Import Main.

Implicit Types (s : Plugin) (p : ChildProcess) (pid : nat) (k : jsstring).

(** The viewers and the leaves are as they were, the store has moved
    on. *)
Lemma shown_same s s' :
  shown s -> follows s s' ->
  activeWebViewers s' = activeWebViewers s -> leaves s' = leaves s ->
  shown s'.
Proof.
  intros [V1 V2] (_ & _ & F) Ev El. split.
  - intros k l H. rewrite Ev in H.
    destruct (V1 _ _ H) as (leaf & Hl & Hd & Ha & pid & p & Hp & Hk & Hpr).
    destruct (F _ _ Hp) as (p' & Hp' & (_ & _ & _ & K4 & K5) & _).
    exists leaf. rewrite El. do 3 (split; [done|]).
    exists pid, p'. split; [done|]. split; [congruence | by apply K5].
  - intros k1 k2 l. rewrite Ev. apply V2.
Qed.

Lemma viewers_resolve_null pid leaf s :
  activeWebViewers (resolve pid None leaf s) = activeWebViewers s
  /\ leaves (resolve pid None leaf s) = leaves s.
Proof.
  unfold resolve. destruct (processes s !! pid) as [p|]; [|done].
  destruct (promise p) as [[|r]|]; try done. by destruct (awaited p).
Qed.

Lemma viewers_onTimeout pid s :
  activeWebViewers (onTimeout pid s) = activeWebViewers s
  /\ leaves (onTimeout pid s) = leaves s.
Proof.
  unfold onTimeout. cbn [Notice activeWebViewers leaves].
  destruct (viewers_resolve_null pid false (onProcess pid cleanup s)) as [-> ->].
  done.
Qed.

Lemma viewers_fires t l s :
  activeWebViewers (foldl (fireIfDue t) s l) = activeWebViewers s
  /\ leaves (foldl (fireIfDue t) s l) = leaves s.
Proof.
  revert s. induction l as [|pid l IH]; intros s; simpl; [done|].
  destruct (IH (fireIfDue t s pid)) as [-> ->]. unfold fireIfDue.
  destruct (due t pid s); [apply viewers_onTimeout | done].
Qed.

(** The rest of [toggleWebViewer], for a URL that settled the promise of
    a process of the document. *)
Lemma shown_afterAwait k url leaf s pid p :
  shown s -> processes s !! pid = Some p -> key p = k ->
  promise p = Some (Resolved (Some url)) -> announced url ->
  shown (afterAwait k (Some url) leaf s).
Proof.
  intros [V1 V2] Hp Hk Hpr Ha. unfold afterAwait.
  destruct url as [|c u]; [done|]. destruct leaf; [|done].
  assert (Hlt : forall k' l, activeWebViewers s !! k' = Some l ->
                             (l < length (leaves s))%nat).
  { intros k' l H. destruct (V1 _ _ H) as (leaf & Hl & _).
    by apply lookup_lt_Some in Hl. }
  split; simpl.
  - intros k' l H. apply lookup_insert_Some in H as [[<- <-]|[Hne H]].
    + eexists. rewrite list_lookup_middle by done.
      split; [done|]. split; [done|]. split; [done|]. by exists pid, p.
    + destruct (V1 _ _ H) as (lf & Hl & Hrest).
      exists lf. split; [by apply lookup_app_l_Some | done].
  - intros k1 k2 l H1 H2.
    apply lookup_insert_Some in H1 as [[<- <-]|[Hne1 H1]];
      apply lookup_insert_Some in H2 as [[<- E]|[Hne2 H2]]; try done.
    + apply Hlt in H2. lia.
    + apply Hlt in H1. lia.
    + eauto.
Qed.

Lemma shown_resolve pid v leaf s :
  shown s -> (forall url, v = Some url -> announced url) ->
  shown (resolve pid v leaf s).
Proof.
  intros Hs Hv. unfold resolve.
  destruct (processes s !! pid) as [p|] eqn:E; [|done].
  destruct (promise p) as [[|r]|] eqn:Ep; try done.
  assert (H1 : shown (onProcess pid (setPromise (Resolved v)) s)).
  { apply (shown_same s); [done| |done|done].
    apply follows_onProcess. intros q Hq.
    assert (q = p) as -> by congruence.
    split; [by apply keeps_setPromise | done]. }
  destruct (awaited p); [|done].
  destruct v as [url|]; [|done].
  eapply shown_afterAwait; [done| | | |by apply Hv].
  - simpl. by rewrite list_lookup_alter_eq, E.
  - done.
  - done.
Qed.

Lemma shown_cleanup pid s : shown s -> shown (onProcess pid cleanup s).
Proof. intros H. by apply (shown_same s); [|apply follows_cleanup| |]. Qed.

Lemma shown_stopPreview file s : shown s -> shown (stopPreview file s).
Proof.
  intros H. apply (shown_same s); [done|apply follows_stopPreview| |];
    unfold stopPreview; by destruct (activePreviewProcesses s !! path file).
Qed.

Lemma shown_startPreview file s : shown s -> shown (startPreview file s).
Proof.
  intros H. apply (shown_same s); [done|apply follows_startPreview| |];
    unfold startPreview;
    (destruct (activePreviewProcesses s !! path file); [done|]);
    by destruct (spawn _ _ _ _ _ _).
Qed.

Lemma viewers_startPreviewAndGetUrl file s :
  activeWebViewers (fst (startPreviewAndGetUrl file s)) = activeWebViewers s
  /\ leaves (fst (startPreviewAndGetUrl file s)) = leaves s.
Proof. unfold startPreviewAndGetUrl. by destruct (spawn _ _ _ _ _ _). Qed.

Lemma shown_startPreviewAndGetUrl file s :
  shown s -> shown (fst (startPreviewAndGetUrl file s)).
Proof.
  intros H. destruct (viewers_startPreviewAndGetUrl file s) as [Ev El].
  by apply (shown_same s); [|apply follows_startPreviewAndGetUrl| |].
Qed.

Lemma shown_toggleExternalPreview file s :
  shown s -> shown (toggleExternalPreview file s).
Proof.
  intros H. unfold toggleExternalPreview.
  destruct (activePreviewProcesses s !! path file);
    [by apply shown_stopPreview | by apply shown_startPreview].
Qed.

Lemma shown_toggleWebViewer file s : shown s -> shown (toggleWebViewer file s).
Proof.
  intros Hs. unfold toggleWebViewer.
  destruct (activeWebViewers s !! path file) as [l|] eqn:E.
  - apply shown_stopPreview. destruct Hs as [V1 V2]. split; simpl.
    + intros k l' H. apply lookup_delete_Some in H as [Hne H].
      destruct (V1 _ _ H) as (leaf & Hl & Hrest).
      exists leaf. split; [|done].
      rewrite list_lookup_alter_ne; [done|].
      intros <-. apply Hne. by apply (V2 _ _ l).
    + intros k1 k2 l' H1 H2.
      apply lookup_delete_Some in H1 as [_ H1].
      apply lookup_delete_Some in H2 as [_ H2]. eauto.
  - pose proof (shown_startPreviewAndGetUrl file s Hs) as H1.
    destruct (startPreviewAndGetUrl file s) as [s1 [pid|]]; [|done].
    apply (shown_same s1); [done| |done|done].
    apply follows_onProcess. intros p _. split; [apply keeps_setAwaited|done].
Qed.

Lemma shown_togglePreview file s : shown s -> shown (togglePreview file s).
Proof.
  intros H. unfold togglePreview.
  destruct (_ && _);
    [by apply shown_toggleWebViewer | by apply shown_toggleExternalPreview].
Qed.

Lemma shown_step s a : shown s -> shown (step s a).
Proof.
  intros H. destruct a as [f|f|f| | | | | | | | | | | | | |]; simpl.
  - destruct f as [file|]; simpl; [|done].
    destruct (isQuartoFile file); [by apply shown_togglePreview | done].
  - destruct f as [file|]; simpl; [|done].
    destruct (isQuartoFile file); [by apply shown_togglePreview | done].
  - unfold onFileOpen. destruct (fileOpenRegistered s); [|done].
    destruct f as [file|]; [|done].
    destruct (isQuartoFile file); [by apply shown_togglePreview | done].
  - by apply shown_togglePreview.
  - by apply shown_toggleWebViewer.
  - by apply shown_toggleExternalPreview.
  - by apply shown_startPreviewAndGetUrl.
  - by apply shown_startPreview.
  - by apply shown_stopPreview.
  - by apply (shown_same s); [|apply follows_stopAllPreviews| |].
  - split; intros *; simpl; by rewrite lookup_empty.
  - done.
  - unfold onStdoutData. destruct (processes s !! pid) as [p|]; [|done].
    destruct (dataListener p); [|done].
    destruct (readinessUrl output) as [url|] eqn:Eu; [|done].
    apply shown_resolve; [by apply shown_cleanup|].
    intros url' [= <-]. by exists output.
  - unfold onError. destruct (processes s !! pid) as [p|]; [|done].
    destruct (errorListener p); [|done].
    apply shown_resolve; [by apply shown_cleanup | done].
  - by apply (shown_same s); [|apply follows_onExit| |].
  - by apply (shown_same s); [|apply follows_onClose|
      unfold onClose; destruct (processes s !! pid) as [p|];
        [destruct (closeListener p)|]..].
  - apply (shown_same s); [done|apply follows_elapse| |]; unfold elapse.
    + by destruct (viewers_fires (clock s + dt) (seq 0 (length (processes s)))
                     (setClock (clock s + dt) s)) as [-> _].
    + by destruct (viewers_fires (clock s + dt) (seq 0 (length (processes s)))
                     (setClock (clock s + dt) s)) as [_ ->].
Qed.

Lemma shown_run actions s : shown s -> shown (run s actions).
Proof.
  revert s. induction actions as [|a actions IH]; intros s H; simpl; [done|].
  by apply IH, shown_step.
Qed.

(** An extracted URL is "http://" and then a word. *)
Lemma announced_shape url :
  announced url ->
  exists body, url = httpScheme ++ body /\ body <> []
               /\ Forall (fun c => isWhiteSpace c = false) url.
Proof.
  intros (output & H).
  apply readinessUrl_extracts in H
    as (pre & ws & body & post & (_ & _ & _ & Hb & Hn) & _ & -> & _).
  exists body. split; [done|]. split; [done|].
  apply Forall_app. split; [by repeat constructor|].
  eapply Forall_impl; [exact Hn|]. intros c Hc. unfold notWhiteSpace in Hc.
  by destruct (isWhiteSpace c).
Qed.

(** X8. In every state the plugin reaches, a viewer recorded for a
    document is a leaf that has not been detached and that shows a URL
    which settled the promise of a process spawned for that very
    document; the URL is "http://" followed by at least one character and
    holds no white space. *)
Theorem viewer_shows_announced_url (h : Host) (st : QmdPluginSettings)
    (actions : list Action) (k : jsstring) (l : nat) :
  let s := run (onload h st) actions in
  activeWebViewers s !! k = Some l ->
  exists leaf,
    leaves s !! l = Some leaf /\ detached leaf = false
    /\ (exists body, viewUrl leaf = httpScheme ++ body /\ body <> []
                     /\ Forall (fun c => isWhiteSpace c = false)
                               (viewUrl leaf))
    /\ exists pid p,
         processes s !! pid = Some p /\ key p = k
         /\ promise p = Some (Resolved (Some (viewUrl leaf))).
Proof.
  intros s H.
  assert (Hs : shown s).
  { apply shown_run. split; intros *; simpl; by rewrite lookup_empty. }
  destruct Hs as [V1 _].
  destruct (V1 _ _ H) as (leaf & Hl & Hd & Ha & Hp).
  exists leaf. do 2 (split; [done|]). split; [by apply announced_shape | done].
Qed.

Lemma viewer_shows_announced_url_witness :
  let s := run (onload vaultHost DEFAULT_SETTINGS)
               [Ribbon (Some doc); StdoutData 0 marker true] in
  activeWebViewers s !! path doc = Some 0%nat
  /\ exists leaf, leaves s !! 0%nat = Some leaf /\ detached leaf = false.
Proof.
  split; [reflexivity|].
  destruct (viewer_shows_announced_url vaultHost DEFAULT_SETTINGS
              [Ribbon (Some doc); StdoutData 0 marker true] (path doc) 0%nat
              eq_refl) as (leaf & Hl & Hd & _).
  by exists leaf.
Defined.

End Viewers.

(** ** Settings, saved and loaded *)

Section SettingsRoundTrip.

Import Main.

Lemma loadSettings_lookup (data : option JsObject) (field : jsstring) :
  loadSettings data !! field
  = match data ≫= (fun o => o !! field) with
    | Some v => Some v
    | None => toObject DEFAULT_SETTINGS !! field
    end.
Proof.
  unfold loadSettings, objectAssign. simpl. rewrite (right_id_L ∅ (∪)).
  destruct data as [o|]; simpl; [|done].
  rewrite lookup_union.
  destruct (o !! field); simpl; [|by rewrite (left_id_L None _)].
  by destruct (toObject DEFAULT_SETTINGS !! field).
Qed.

Lemma fromObject_toObject st : fromObject (toObject st) = Some st.
Proof. by destruct st. Qed.

Lemma loadSettings_saved st : loadSettings (Some (saveSettings st)) = toObject st.
Proof.
  apply map_eq. intros field. rewrite loadSettings_lookup. simpl.
  unfold saveSettings.
  destruct (toObject st !! field) as [v|] eqn:E; [done|].
  unfold toObject in *.
  repeat (apply lookup_insert_None in E as [E ?]).
  by rewrite !lookup_insert_ne, lookup_empty.
Qed.

(** X9. What the settings tab saves is what the next load reads: for all
    settings, loading the saved object gives these settings back, also
    right after a change of the path, of the web viewer switch or of the
    auto preview switch, each of which touches its own field only.
    Loading is idempotent: what was loaded, saved as it is, loads to
    itself. *)
Theorem settings_round_trip :
  (forall st, fromObject (loadSettings (Some (saveSettings st))) = Some st)
  /\ (forall value s,
        let '(s', saved) := onQuartoPathChange value s in
        fromObject (loadSettings (Some saved)) = Some (settings s')
        /\ quartoPath (settings s') = value
        /\ autoPreview (settings s') = autoPreview (settings s)
        /\ enableQmdLinking (settings s') = enableQmdLinking (settings s)
        /\ useWebViewer (settings s') = useWebViewer (settings s))
  /\ (forall value s,
        let '(s', saved) := onUseWebViewerChange value s in
        fromObject (loadSettings (Some saved)) = Some (settings s')
        /\ useWebViewer (settings s') = value
        /\ quartoPath (settings s') = quartoPath (settings s)
        /\ autoPreview (settings s') = autoPreview (settings s)
        /\ enableQmdLinking (settings s') = enableQmdLinking (settings s))
  /\ (forall value s,
        let '(s', saved) := onAutoPreviewChange value s in
        fromObject (loadSettings (Some saved)) = Some (settings s')
        /\ autoPreview (settings s') = value
        /\ quartoPath (settings s') = quartoPath (settings s)
        /\ enableQmdLinking (settings s') = enableQmdLinking (settings s)
        /\ useWebViewer (settings s') = useWebViewer (settings s))
  /\ (forall data, loadSettings (Some (loadSettings data)) = loadSettings data).
Proof.
  assert (H : forall st, fromObject (loadSettings (Some (saveSettings st)))
                         = Some st)
    by (intros st; by rewrite loadSettings_saved, fromObject_toObject).
  split; [exact H|].
  split; [intros value s; simpl; by rewrite H|].
  split; [intros value s; simpl; by rewrite H|].
  split; [intros value s; simpl; by rewrite H|].
  intros data. apply map_eq. intros field.
  rewrite (loadSettings_lookup (Some _)). simpl.
  destruct (loadSettings data !! field) as [v|] eqn:E; [done|].
  rewrite loadSettings_lookup in E.
  by destruct (data ≫= _).
Qed.

End SettingsRoundTrip.

(** ** What is fixed when the plugin is loaded *)

Section Loaded.

Import Main.

Implicit Types (s : Plugin) (pid : nat).

Lemma loaded_resolve pid v leaf s :
  host (resolve pid v leaf s) = host s
  /\ fileOpenRegistered (resolve pid v leaf s) = fileOpenRegistered s.
Proof.
  unfold resolve. destruct (processes s !! pid) as [p|]; [|done].
  destruct (promise p) as [[|r]|]; try done.
  destruct (awaited p); [|done].
  unfold afterAwait. by destruct v as [[|c u]|], leaf.
Qed.

Lemma loaded_onTimeout pid s :
  host (onTimeout pid s) = host s
  /\ fileOpenRegistered (onTimeout pid s) = fileOpenRegistered s.
Proof.
  unfold onTimeout. cbn [Notice host fileOpenRegistered].
  by destruct (loaded_resolve pid None false (onProcess pid cleanup s))
    as [-> ->].
Qed.

Lemma loaded_fires t l s :
  host (foldl (fireIfDue t) s l) = host s
  /\ fileOpenRegistered (foldl (fireIfDue t) s l) = fileOpenRegistered s.
Proof.
  revert s. induction l as [|pid l IH]; intros s; simpl; [done|].
  destruct (IH (fireIfDue t s pid)) as [-> ->]. unfold fireIfDue.
  destruct (due t pid s); [apply loaded_onTimeout | done].
Qed.

Lemma loaded_stopPreview file s :
  host (stopPreview file s) = host s
  /\ fileOpenRegistered (stopPreview file s) = fileOpenRegistered s.
Proof.
  unfold stopPreview. by destruct (activePreviewProcesses s !! path file).
Qed.

Lemma loaded_startPreview file s :
  host (startPreview file s) = host s
  /\ fileOpenRegistered (startPreview file s) = fileOpenRegistered s.
Proof.
  unfold startPreview.
  destruct (activePreviewProcesses s !! path file); [done|].
  by destruct (spawn _ _ _ _ _ _).
Qed.

Lemma loaded_startPreviewAndGetUrl file s :
  host (fst (startPreviewAndGetUrl file s)) = host s
  /\ fileOpenRegistered (fst (startPreviewAndGetUrl file s))
     = fileOpenRegistered s.
Proof. unfold startPreviewAndGetUrl. by destruct (spawn _ _ _ _ _ _). Qed.

Lemma loaded_toggleWebViewer file s :
  host (toggleWebViewer file s) = host s
  /\ fileOpenRegistered (toggleWebViewer file s) = fileOpenRegistered s.
Proof.
  unfold toggleWebViewer.
  destruct (activeWebViewers s !! path file).
  - by destruct (loaded_stopPreview file
                   (setViewers (delete (path file) (activeWebViewers s))
                      (setLeaves (alter detach n (leaves s)) s))) as [-> ->].
  - pose proof (loaded_startPreviewAndGetUrl file s) as H.
    by destruct (startPreviewAndGetUrl file s) as [s1 [pid|]].
Qed.

Lemma loaded_togglePreview file s :
  host (togglePreview file s) = host s
  /\ fileOpenRegistered (togglePreview file s) = fileOpenRegistered s.
Proof.
  unfold togglePreview, toggleExternalPreview.
  destruct (_ && _).
  - apply loaded_toggleWebViewer.
  - destruct (activePreviewProcesses s !! path file);
      [apply loaded_stopPreview | apply loaded_startPreview].
Qed.

Lemma loaded_step s a :
  host (step s a) = host s
  /\ fileOpenRegistered (step s a) = fileOpenRegistered s.
Proof.
  destruct a as [f|f|f|f|f|f|f| | | | | | | | | |]; simpl; try done.
  - destruct f as [file|]; simpl; [|done].
    destruct (isQuartoFile file); [apply loaded_togglePreview | done].
  - destruct f as [file|]; simpl; [|done].
    destruct (isQuartoFile file); [apply loaded_togglePreview | done].
  - unfold onFileOpen. destruct (fileOpenRegistered s) eqn:E; [|done].
    destruct f as [file|]; [|done].
    destruct (isQuartoFile file); [|done].
    destruct (loaded_togglePreview file s) as [-> ->]. done.
  - apply loaded_togglePreview.
  - apply loaded_toggleWebViewer.
  - unfold toggleExternalPreview.
    destruct (activePreviewProcesses s !! path f);
      [apply loaded_stopPreview | apply loaded_startPreview].
  - apply loaded_startPreviewAndGetUrl.
  - apply loaded_startPreview.
  - apply loaded_stopPreview.
  - unfold onStdoutData. destruct (processes s !! pid) as [p|]; [|done].
    destruct (dataListener p); [|done].
    destruct (readinessUrl output); [|done].
    by destruct (loaded_resolve pid (Some l) rightLeaf (onProcess pid cleanup s))
      as [-> ->].
  - unfold onError. destruct (processes s !! pid) as [p|]; [|done].
    destruct (errorListener p); [|done].
    by destruct (loaded_resolve pid None false (onProcess pid cleanup s))
      as [-> ->].
  - unfold onClose. destruct (processes s !! pid) as [p|]; [|done].
    by destruct (closeListener p).
  - unfold elapse.
    by destruct (loaded_fires (clock s + dt) (seq 0 (length (processes s)))
                   (setClock (clock s + dt) s)) as [-> ->].
Qed.

Lemma loaded_run actions s :
  host (run s actions) = host s
  /\ fileOpenRegistered (run s actions) = fileOpenRegistered s.
Proof.
  revert s. induction actions as [|a actions IH]; intros s; simpl; [done|].
  destruct (IH (step s a)) as [-> ->]. apply loaded_step.
Qed.

(** X10. Whether files that are opened toggle their preview is decided
    when the plugin is loaded, by the auto preview setting of that
    moment: whatever happens afterwards, a change of the setting
    included, the ['file-open'] handler does nothing when the setting was
    off at load time, and toggles the preview of every Quarto file when
    it was on. *)
Theorem autoPreview_is_read_at_load (h : Host) (st : QmdPluginSettings)
    (actions : list Action) :
  let s := run (onload h st) actions in
  host s = h
  /\ fileOpenRegistered s = autoPreview st
  /\ (autoPreview st = false -> forall opened, onFileOpen opened s = s)
  /\ (autoPreview st = true -> forall file,
        isQuartoFile file = true ->
        onFileOpen (Some file) s = togglePreview file s).
Proof.
  intros s. destruct (loaded_run actions (onload h st)) as [Hh Hf].
  fold s in Hh, Hf. simpl in Hh, Hf.
  split; [done|]. split; [done|]. split.
  - intros Hoff opened. unfold onFileOpen. by rewrite Hf, Hoff.
  - intros Hon file Hq. unfold onFileOpen. by rewrite Hf, Hon, Hq.
Qed.

Lemma autoPreview_is_read_at_load_witness :
  let on := {| quartoPath := js "quarto"; autoPreview := true;
               enableQmdLinking := false; useWebViewer := true |} in
  let s := run (onload vaultHost DEFAULT_SETTINGS) [ChangeSettings on] in
  autoPreview DEFAULT_SETTINGS = false
  /\ autoPreview (settings s) = true
  /\ onFileOpen (Some doc) s = s.
Proof.
  split; [reflexivity|]. split; [reflexivity|].
  apply (autoPreview_is_read_at_load vaultHost DEFAULT_SETTINGS
           [ChangeSettings {| quartoPath := js "quarto"; autoPreview := true;
                              enableQmdLinking := false;
                              useWebViewer := true |}]).
  reflexivity.
Defined.

End Loaded.

(** ** A host without web viewer *)

Section Mobile.

Import Main.

Implicit Types (s : Plugin) (pid : nat).

Lemma unwatched_killUnlessKilled p : unwatched p -> unwatched (killUnlessKilled p).
Proof. unfold killUnlessKilled. by destruct (killed p). Qed.

Lemma fires_idle t l s :
  Forall unwatched (processes s) -> foldl (fireIfDue t) s l = s.
Proof.
  intros H. induction l as [|pid l IH]; simpl; [done|].
  assert (E : fireIfDue t s pid = s); [|by rewrite E].
  unfold fireIfDue, due. destruct (processes s !! pid) as [p|] eqn:Ep; [|done].
  rewrite Forall_lookup in H. destruct (H _ _ Ep) as (_ & _ & -> & _). done.
Qed.

Lemma plain_stopPreview file s : plain s -> plain (stopPreview file s).
Proof.
  intros (Hm & Hl & Hv & Hp & Hn). unfold stopPreview.
  destruct (activePreviewProcesses s !! path file) as [pid|]; [|done].
  repeat split; try done. simpl.
  apply Forall_alter; [done|]. intros p _. apply unwatched_killUnlessKilled.
Qed.

Lemma sweep_Forall (P : ChildProcess -> Prop)
    (entries : list (jsstring * nat)) (ps : list ChildProcess) :
  (forall p, P p -> P (killUnlessKilled p)) ->
  Forall P ps ->
  Forall P (foldl (fun ps entry => alter killUnlessKilled (snd entry) ps)
                  ps entries).
Proof.
  intros HP. revert ps.
  induction entries as [|e entries IH]; intros ps H; simpl; [done|].
  apply IH, Forall_alter; [done|]. intros q _. apply HP.
Qed.

Lemma plain_onExit pid s : plain s -> plain (onExit pid s).
Proof.
  intros (Hm & Hl & Hv & Hp & Hn). repeat split; try done. simpl.
  apply Forall_alter; [done|]. by intros p _.
Qed.

Lemma plain_startPreview file s : plain s -> plain (startPreview file s).
Proof.
  intros (Hm & Hl & Hv & Hp & Hn). unfold startPreview, spawn.
  destruct (activePreviewProcesses s !! path file); [done|].
  destruct (spawnThrows _ _ _ _); [done|].
  repeat split; try done. simpl.
  apply Forall_app. split; [done|]. by repeat constructor.
Qed.

Lemma plain_togglePreview file s : plain s -> plain (togglePreview file s).
Proof.
  intros H. pose proof H as (Hm & _). unfold togglePreview.
  rewrite Hm, andb_false_r. unfold toggleExternalPreview.
  destruct (activePreviewProcesses s !! path file);
    [by apply plain_stopPreview | by apply plain_startPreview].
Qed.

Lemma plain_Notice s : plain s -> plain (Notice notQuarto s).
Proof.
  intros (Hm & Hl & Hv & Hp & Hn). repeat split; try done. simpl.
  apply Forall_app. split; [done|]. by repeat constructor.
Qed.

Lemma plain_external s a : external a -> plain s -> plain (step s a).
Proof.
  intros Ha H. destruct a as [f|f|f| | | | | | | | | | | | | |]; try done; simpl.
  - destruct f as [file|]; simpl; [|by apply plain_Notice].
    destruct (isQuartoFile file);
      [by apply plain_togglePreview | by apply plain_Notice].
  - destruct f as [file|]; simpl; [|by apply plain_Notice].
    destruct (isQuartoFile file);
      [by apply plain_togglePreview | by apply plain_Notice].
  - unfold onFileOpen. destruct (fileOpenRegistered s); [|done].
    destruct f as [file|]; [|done].
    destruct (isQuartoFile file); [by apply plain_togglePreview | done].
  - destruct H as (Hm & Hl & Hv & Hp & Hn). unfold onunload. simpl.
    rewrite Hv, map_to_list_empty, Hl. simpl. repeat split; try done.
    apply sweep_Forall; [|done]. apply unwatched_killUnlessKilled.
  - destruct H as (Hm & Hl & Hv & Hp & Hn). unfold onStdoutData.
    destruct (processes s !! pid) as [p|] eqn:Ep; [|done].
    rewrite Forall_lookup in Hp. destruct (Hp _ _ Ep) as (-> & _).
    by repeat split; try done; apply Forall_lookup.
  - destruct H as (Hm & Hl & Hv & Hp & Hn). unfold onError.
    destruct (processes s !! pid) as [p|] eqn:Ep; [|done].
    rewrite Forall_lookup in Hp. destruct (Hp _ _ Ep) as (_ & -> & _).
    by repeat split; try done; apply Forall_lookup.
  - by apply plain_onExit.
  - pose proof (plain_onExit pid s H) as (Hm & Hl & Hv & Hp & Hn).
    unfold onClose. destruct (processes s !! pid) as [p|]; [|done].
    by destruct (closeListener p).
  - destruct H as (Hm & Hl & Hv & Hp & Hn). unfold elapse.
    by rewrite fires_idle.
Qed.

Lemma plain_run actions s :
  Forall external actions -> plain s -> plain (run s actions).
Proof.
  intros Ha. revert s. induction Ha as [|a actions Ha _ IH]; intros s H;
    simpl; [done|].
  by apply IH, plain_external.
Qed.

(** X11. On a mobile host, whatever the settings and whatever the user
    and the processes do, the plugin opens no web viewer; the processes
    it spawns have no timer, no promise and no listener on their output,
    so that output, the announced URL included, changes nothing; and the
    only notice the plugin ever shows is "Current file is not a Quarto
    document". *)
Theorem mobile_never_shows_the_url (h : Host) (st : QmdPluginSettings)
    (actions : list Action) :
  isMobile h = true ->
  Forall external actions ->
  let s := run (onload h st) actions in
  leaves s = [] /\ activeWebViewers s = ∅
  /\ Forall unwatched (processes s)
  /\ Forall (fun msg => msg = notQuarto) (notices s)
  /\ (forall pid output leaf, onStdoutData pid output leaf s = s).
Proof.
  intros Hm Ha s.
  assert (H : plain s).
  { apply plain_run; [done|]. repeat split; try done; constructor. }
  destruct H as (_ & Hl & Hv & Hp & Hn). do 4 (split; [done|]).
  intros pid output leaf. unfold onStdoutData.
  destruct (processes s !! pid) as [p|] eqn:Ep; [|done].
  rewrite Forall_lookup in Hp. by destruct (Hp _ _ Ep) as (-> & _).
Qed.

Lemma mobile_never_shows_the_url_witness :
  let phone := {| getFullPath := getFullPath vaultHost;
                  dirname := dirname vaultHost; isMobile := true;
                  refuses := refuses vaultHost |} in
  let actions := [Ribbon (Some doc); StdoutData 0 marker true; Elapse 20000;
                  Ribbon (Some doc2)] in
  isMobile phone = true
  /\ Forall external actions
  /\ leaves (run (onload phone DEFAULT_SETTINGS) actions) = []
  /\ notices (run (onload phone DEFAULT_SETTINGS) actions) = [].
Proof.
  split; [reflexivity|]. split; [by repeat constructor|].
  split; [|reflexivity].
  apply (mobile_never_shows_the_url
           {| getFullPath := getFullPath vaultHost;
              dirname := dirname vaultHost; isMobile := true;
              refuses := refuses vaultHost |}
           DEFAULT_SETTINGS
           [Ribbon (Some doc); StdoutData 0 marker true; Elapse 20000;
            Ribbon (Some doc2)]);
    [reflexivity | by repeat constructor].
Defined.

End Mobile.

(** * Further properties of the second source ([unnamed/part_001]) *)

Section Part001Registry.

Import Part001.

Implicit Types (s : Plugin) (pid : nat) (k : jsstring).

(** The loop of [stopAllPreviews], field by field. *)
Lemma stopEntries_registry (l : list (jsstring * nat)) s k :
  activePreviewProcesses (foldl stopEntry s l) !! k
  = if decide (k ∈ l.*1) then None else activePreviewProcesses s !! k.
Proof.
  revert s. induction l as [|[k' pid] l IH]; intros s; simpl; [done|].
  rewrite IH. simpl. destruct (decide (k = k')) as [->|Hne].
  - rewrite lookup_delete_eq.
    rewrite (decide_True (P := k' ∈ k' :: _)) by apply list_elem_of_here.
    by case_decide.
  - rewrite lookup_delete_ne by done.
    case_decide as H1; case_decide as H2; try done.
    + exfalso. apply H2. by apply list_elem_of_further.
    + exfalso. apply elem_of_cons in H2 as [->|H2]; done.
Qed.

Lemma stopEntries_processes (l : list (jsstring * nat)) s pid :
  NoDup (l.*2) ->
  processes (foldl stopEntry s l) !! pid
  = if decide (pid ∈ l.*2) then kill <$> processes s !! pid
    else processes s !! pid.
Proof.
  revert s. induction l as [|[k pid'] l IH]; intros s Hnd; simpl; [done|].
  apply NoDup_cons in Hnd as [Hnin Hnd]. rewrite IH by done. simpl.
  destruct (decide (pid' = pid)) as [->|Hne].
  - rewrite list_lookup_alter_eq.
    rewrite (decide_True (P := pid ∈ pid :: _)) by apply list_elem_of_here.
    by rewrite decide_False.
  - rewrite list_lookup_alter_ne by done.
    case_decide as H1; case_decide as H2; try done.
    + exfalso. apply H2. by apply list_elem_of_further.
    + exfalso. apply elem_of_cons in H2 as [->|H2]; done.
Qed.

Lemma stopEntries_notices (l : list (jsstring * nat)) s :
  notices (foldl stopEntry s l) = notices s.
Proof. revert s. induction l as [|e l IH]; intros s; simpl; [done|]. by rewrite IH. Qed.

Lemma stopEntries_empty s :
  activePreviewProcesses
    (foldl stopEntry s (map_to_list (activePreviewProcesses s))) = ∅.
Proof.
  apply map_eq. intros k. rewrite stopEntries_registry, lookup_empty.
  case_decide as H; [done|].
  destruct (activePreviewProcesses s !! k) as [pid|] eqn:E; [|done].
  exfalso. apply H. apply list_elem_of_fmap. exists (k, pid).
  split; [done|]. by apply elem_of_map_to_list.
Qed.

(** The size test of [stopAllPreviews] comes after the deletions: it
    never holds. *)
Lemma stopAllPreviews_loop s :
  stopAllPreviews s
  = foldl stopEntry s (map_to_list (activePreviewProcesses s)).
Proof. unfold stopAllPreviews. by rewrite stopEntries_empty, map_size_empty. Qed.

Lemma values_NoDup (m : gmap jsstring nat) :
  (forall k1 k2 pid, m !! k1 = Some pid -> m !! k2 = Some pid -> k1 = k2) ->
  NoDup ((map_to_list m).*2).
Proof.
  intros Hinj. apply NoDup_fmap_2_strong; [|apply NoDup_map_to_list].
  intros [k1 v1] [k2 v2] H1 H2 Hv. simpl in Hv. subst v2.
  apply elem_of_map_to_list in H1, H2. f_equal. by apply (Hinj _ _ v1).
Qed.

Lemma consistent001_onload h st : consistent001 (onload h st).
Proof. split; intros *; simpl; by rewrite lookup_empty. Qed.

Lemma consistent001_startPreview file s :
  consistent001 s -> consistent001 (startPreview file s).
Proof.
  intros [C1 C2]. unfold startPreview, spawn.
  destruct (activePreviewProcesses s !! path file) eqn:E; [done|].
  destruct (spawnThrows _ _ _ _); [done|].
  assert (Hlt : forall k' pid, activePreviewProcesses s !! k' = Some pid ->
                               (pid < length (processes s))%nat).
  { intros k' pid H. destruct (C1 _ _ H) as (q & Hq & _).
    by apply lookup_lt_Some in Hq. }
  split; simpl.
  - intros k' pid H. apply lookup_insert_Some in H as [[<- <-]|[Hne H]].
    + eexists. by rewrite list_lookup_middle.
    + destruct (C1 _ _ H) as (q & Hq & Hq').
      exists q. split; [by apply lookup_app_l_Some | done].
  - intros k1 k2 pid H1 H2.
    apply lookup_insert_Some in H1 as [[<- <-]|[Hne1 H1]];
      apply lookup_insert_Some in H2 as [[<- E2]|[Hne2 H2]]; try done.
    + apply Hlt in H2. lia.
    + apply Hlt in H1. lia.
    + eauto.
Qed.

Lemma consistent001_stopPreview file s :
  consistent001 s -> consistent001 (stopPreview file s).
Proof.
  intros [C1 C2]. unfold stopPreview.
  destruct (activePreviewProcesses s !! path file) as [pid|] eqn:E; [|done].
  split; simpl.
  - intros k pid' H. apply lookup_delete_Some in H as [Hne H].
    destruct (C1 _ _ H) as (q & Hq & Hq'). exists q. split; [|done].
    rewrite list_lookup_alter_ne; [done|].
    intros <-. apply Hne. by apply (C2 _ _ pid).
  - intros k1 k2 pid' H1 H2.
    apply lookup_delete_Some in H1 as [_ H1].
    apply lookup_delete_Some in H2 as [_ H2]. eauto.
Qed.

Lemma consistent001_onExit pid s :
  consistent001 s -> consistent001 (onExit pid s).
Proof.
  intros [C1 C2]. split; [|done]. simpl. intros k pid' Hk.
  destruct (C1 _ _ Hk) as (p & Hp & Hkl & Hs).
  destruct (decide (pid = pid')) as [<-|Hne].
  - exists (exits p). by rewrite list_lookup_alter_eq, Hp.
  - exists p. by rewrite list_lookup_alter_ne.
Qed.

Lemma consistent001_step s a : consistent001 s -> consistent001 (step s a).
Proof.
  intros H.
  destruct a as [f|f| |file|file|file|st|pid output|pid data|pid|pid code];
    simpl.
  - unfold toggleActive, togglePreview. destruct f as [file|]; [|done].
    destruct (isQuartoFile file); [|done].
    destruct (activePreviewProcesses s !! path file);
      [by apply consistent001_stopPreview | by apply consistent001_startPreview].
  - unfold onActiveLeafChange. destruct (autoPreview (settings s)); [|done].
    destruct f as [file|]; [|done].
    destruct (isQuartoFile file); [by apply consistent001_startPreview | done].
  - rewrite stopAllPreviews_loop. split; intros *; by rewrite stopEntries_empty, lookup_empty.
  - unfold togglePreview.
    destruct (activePreviewProcesses s !! path file);
      [by apply consistent001_stopPreview | by apply consistent001_startPreview].
  - by apply consistent001_startPreview.
  - by apply consistent001_stopPreview.
  - done.
  - unfold onStdoutData. destruct (processes s !! pid) as [p|]; [|done].
    destruct (dataListener p); [|done]. by destruct (readinessUrl output).
  - unfold onStderrData. destruct (processes s !! pid) as [p|]; [|done].
    by destruct (dataListener p).
  - by apply consistent001_onExit.
  - pose proof (consistent001_onExit pid s H) as H'.
    unfold onClose. destruct (processes s !! pid) as [p|]; [|done].
    destruct (closeListener p); [|done].
    destruct H' as [C1 C2]. split.
    + intros k pid' Hk. destruct code as [[|c]|];
        cbn [Notice setRegistry activePreviewProcesses processes] in *;
        apply lookup_delete_Some in Hk as [_ Hk]; eauto.
    + intros k1 k2 pid' H1 H2. destruct code as [[|c]|];
        cbn [Notice setRegistry activePreviewProcesses processes] in *;
        apply lookup_delete_Some in H1 as [_ H1];
        apply lookup_delete_Some in H2 as [_ H2]; eauto.
Qed.

Lemma consistent001_run actions s :
  consistent001 s -> consistent001 (run s actions).
Proof.
  revert s. induction actions as [|a actions IH]; intros s H; simpl; [done|].
  by apply IH, consistent001_step.
Qed.

(** X12. [stopAllPreviews] of the second source, in every state the
    plugin reaches: the registry is emptied, [kill()] has been called
    exactly once on every process that had an entry, the other processes
    are untouched, and no notice is shown.  The notice "All Quarto previews
    stopped" is never shown: the size of the map is tested when the map
    is already empty. *)
Theorem part001_stopAllPreviews_teardown (h : Host) (st : QmdPluginSettings)
    (actions : list Action) :
  let s := run (onload h st) actions in
  let s' := stopAllPreviews s in
  activePreviewProcesses s' = ∅
  /\ notices s' = notices s
  /\ (forall k pid, activePreviewProcesses s !! k = Some pid ->
        exists p', processes s' !! pid = Some p' /\ signals p' = 1%nat)
  /\ (forall pid, (forall k, activePreviewProcesses s !! k <> Some pid) ->
        processes s' !! pid = processes s !! pid).
Proof.
  intros s s'. unfold s'. rewrite stopAllPreviews_loop.
  destruct (consistent001_run actions (onload h st) (consistent001_onload h st))
    as [C1 C2]. fold s in C1, C2.
  split; [apply stopEntries_empty|]. split; [apply stopEntries_notices|].
  split.
  - intros k pid Hk. destruct (C1 _ _ Hk) as (p & Hp & _ & Hs).
    rewrite stopEntries_processes by by apply values_NoDup.
    rewrite decide_True.
    + rewrite Hp. simpl. eexists. split; [done|]. simpl. by rewrite Hs.
    + apply list_elem_of_fmap. exists (k, pid). split; [done|].
      by apply elem_of_map_to_list.
  - intros pid Hu. rewrite stopEntries_processes by by apply values_NoDup.
    rewrite decide_False; [done|].
    intros ([k pid'] & -> & Hin)%list_elem_of_fmap.
    apply elem_of_map_to_list in Hin. by apply (Hu k).
Qed.

Lemma part001_stopAllPreviews_teardown_witness :
  let s := run (onload vaultHost DEFAULT_SETTINGS)
               [StartPreview doc; StartPreview doc2] in
  activePreviewProcesses s !! path doc2 = Some 1%nat
  /\ (exists p', processes (stopAllPreviews s) !! 1%nat = Some p'
                 /\ signals p' = 1%nat)
  /\ notices (stopAllPreviews s)
     = [js "Quarto preview started"; js "Quarto preview started"].
Proof.
  split; [reflexivity|].
  destruct (part001_stopAllPreviews_teardown vaultHost DEFAULT_SETTINGS
              [StartPreview doc; StartPreview doc2]) as (_ & Hn & H & _).
  split; [exact (H (path doc2) 1%nat eq_refl)|].
  etrans; [exact Hn | reflexivity].
Defined.

End Part001Registry.

Section Part001Toggle.

Import Part001.

Implicit Types (s : Plugin) (pid : nat).

(** X13. [togglePreview] of the second source, twice, for a document
    without an entry, when [spawn] returns: a process is spawned and
    entered, then [kill()] is called on it and it is removed.  The
    registry is as before, the store has one process more, on which
    [kill()] was called once, and the notices "Quarto preview started" and
    "Quarto preview stopped" have been shown, in this order. *)
Theorem part001_togglePreview_twice (s : Plugin) (file : TFile) :
  activePreviewProcesses s !! path file = None ->
  spawns001 s file ->
  let s2 := togglePreview file (togglePreview file s) in
  activePreviewProcesses s2 = activePreviewProcesses s
  /\ (exists p, processes s2 = processes s ++ [p]
                /\ signals p = 1%nat /\ shell p = true)
  /\ notices s2
     = notices s ++ [js "Quarto preview started"; js "Quarto preview stopped"].
Proof.
  intros Hnone Hspawn s2.
  assert (E1 : togglePreview file s = startPreview file s)
    by (unfold togglePreview; by rewrite Hnone).
  unfold s2. rewrite E1, part001_startPreview_spawned by done.
  unfold togglePreview. simpl.
  rewrite lookup_insert_eq. unfold stopPreview. simpl.
  rewrite lookup_insert_eq. simpl.
  rewrite delete_insert_eq, delete_id by done. split; [done|].
  rewrite alter_last, <- app_assoc. split; [|done].
  eexists. split; [done|]. done.
Qed.

Lemma part001_togglePreview_twice_witness :
  let s := onload vaultHost DEFAULT_SETTINGS in
  activePreviewProcesses s !! path doc = None
  /\ spawns001 s doc
  /\ notices (togglePreview doc (togglePreview doc s))
     = [js "Quarto preview started"; js "Quarto preview stopped"].
Proof.
  split; [reflexivity|]. split; [reflexivity|].
  apply (part001_togglePreview_twice (onload vaultHost DEFAULT_SETTINGS) doc);
    reflexivity.
Defined.

(** X14. The second source reports the URL in a notice "Preview available
    at ..." for every chunk of standard output that carries a marker: a
    list of chunks gives one notice for each such chunk, in the order of
    arrival, and changes neither the registry nor the processes.  Nothing
    keeps the first URL. *)
Theorem part001_notice_per_marker (s : Plugin) (pid : nat) (p : ChildProcess)
    (chunks : list jsstring) :
  processes s !! pid = Some p ->
  dataListener p = true ->
  let s' := foldl (fun st output => onStdoutData pid output st) s chunks in
  notices s' = notices s ++ urlNotices chunks
  /\ processes s' = processes s
  /\ activePreviewProcesses s' = activePreviewProcesses s.
Proof.
  intros Hp Hd. cbv zeta. revert s Hp.
  induction chunks as [|output chunks IH]; intros s Hp.
  - cbn [foldl]. by rewrite app_nil_r.
  - cbn [foldl].
    assert (E : onStdoutData pid output s
                = match readinessUrl output with
                  | Some url => Notice (js "Preview available at " ++ url) s
                  | None => s
                  end)
      by (unfold onStdoutData; by rewrite Hp, Hd).
    assert (U : urlNotices (output :: chunks)
                = match readinessUrl output with
                  | Some url =>
                      (js "Preview available at " ++ url) :: urlNotices chunks
                  | None => urlNotices chunks
                  end)
      by (unfold urlNotices; cbn [omap list_omap];
          by destruct (readinessUrl output)).
    rewrite E, U. destruct (readinessUrl output) as [url|]; [|by apply IH].
    destruct (IH (Notice (js "Preview available at " ++ url) s) Hp)
      as (H1 & H2 & H3).
    rewrite H1, H2, H3. cbn [Notice notices processes activePreviewProcesses].
    by rewrite <- app_assoc.
Qed.

Lemma part001_notice_per_marker_witness :
  let s := startPreview doc (onload vaultHost DEFAULT_SETTINGS) in
  let chunks := [marker; js "Watching files for changes";
                 js "Browse at http://localhost:7777/"] in
  (exists p, processes s !! 0%nat = Some p /\ dataListener p = true)
  /\ notices (foldl (fun st output => onStdoutData 0 output st) s chunks)
     = [js "Quarto preview started";
        js "Preview available at http://localhost:4000/";
        js "Preview available at http://localhost:7777/"].
Proof.
  split; [eexists; split; reflexivity|].
  etrans.
  - eapply (part001_notice_per_marker
              (startPreview doc (onload vaultHost DEFAULT_SETTINGS)) 0%nat _
              [marker; js "Watching files for changes";
               js "Browse at http://localhost:7777/"]);
      reflexivity.
  - reflexivity.
Defined.

Lemma part001_startPreview_twice file s :
  activePreviewProcesses (startPreview file (startPreview file s))
  = activePreviewProcesses (startPreview file s)
  /\ processes (startPreview file (startPreview file s))
     = processes (startPreview file s)
  /\ (activePreviewProcesses s !! path file = None -> spawns001 s file ->
      startPreview file (startPreview file s) = startPreview file s).
Proof.
  destruct (activePreviewProcesses s !! path file) as [pid|] eqn:E.
  - assert (E1 : startPreview file s = s)
      by (unfold startPreview; by rewrite E).
    by rewrite !E1.
  - destruct (spawns001_dec file s) as [Hs|Hs].
    + rewrite (part001_startPreview_spawned file s E Hs).
      set (s1 := Notice _ _).
      assert (E1 : startPreview file s1 = s1).
      { unfold startPreview, s1. simpl. by rewrite lookup_insert_eq. }
      by rewrite E1.
    + rewrite (part001_startPreview_rejected file s E Hs).
      rewrite part001_startPreview_rejected; [|done|done]. done.
Qed.

(** X15. The ['active-leaf-change'] handler of the second source starts a
    preview and never stops one: it removes no entry; a second change to
    the same leaf leaves the registry and the processes as the first left
    them, and the whole plugin when the file had no entry and [spawn]
    returned; and with the auto preview setting off, as it is read when
    the event arrives, the handler does nothing. *)
Theorem part001_leaf_change_starts_once (s : Plugin) (viewFile : option TFile) :
  activePreviewProcesses
    (onActiveLeafChange viewFile (onActiveLeafChange viewFile s))
  = activePreviewProcesses (onActiveLeafChange viewFile s)
  /\ processes (onActiveLeafChange viewFile (onActiveLeafChange viewFile s))
     = processes (onActiveLeafChange viewFile s)
  /\ (forall file, viewFile = Some file ->
        activePreviewProcesses s !! path file = None -> spawns001 s file ->
        onActiveLeafChange viewFile (onActiveLeafChange viewFile s)
        = onActiveLeafChange viewFile s)
  /\ (forall k pid, activePreviewProcesses s !! k = Some pid ->
        activePreviewProcesses (onActiveLeafChange viewFile s) !! k = Some pid)
  /\ (forall st, autoPreview st = false ->
        onActiveLeafChange viewFile (setSettings st s) = setSettings st s).
Proof.
  assert (Hset : forall file, settings (startPreview file s) = settings s).
  { intros file. unfold startPreview, spawn.
    destruct (activePreviewProcesses s !! path file); [done|].
    by destruct (spawnThrows _ _ _ _). }
  assert (Hcases :
    onActiveLeafChange viewFile s = s
    \/ exists file, viewFile = Some file
         /\ onActiveLeafChange viewFile s = startPreview file s
         /\ onActiveLeafChange viewFile (startPreview file s)
            = startPreview file (startPreview file s)).
  { unfold onActiveLeafChange at 1 2.
    destruct (autoPreview (settings s)) eqn:Ea; [|by left].
    destruct viewFile as [file|]; [|by left].
    destruct (isQuartoFile file) eqn:Eq; [|by left].
    right. exists file. split; [done|]. split; [done|].
    unfold onActiveLeafChange. by rewrite Hset, Ea, Eq. }
  split; [|split; [|split; [|split]]].
  - destruct Hcases as [E|(file & _ & E1 & E2)]; [by rewrite !E|].
    rewrite E1, E2. apply part001_startPreview_twice.
  - destruct Hcases as [E|(file & _ & E1 & E2)]; [by rewrite !E|].
    rewrite E1, E2. apply part001_startPreview_twice.
  - intros file Hv Hnone Hspawn.
    destruct Hcases as [E|(file' & Hv' & E1 & E2)]; [by rewrite !E|].
    assert (file' = file) as -> by congruence.
    rewrite E1, E2. by apply part001_startPreview_twice.
  - intros k pid Hk. unfold onActiveLeafChange.
    destruct (autoPreview (settings s)); [|done].
    destruct viewFile as [file|]; [|done].
    destruct (isQuartoFile file); [|done]. unfold startPreview, spawn.
    destruct (activePreviewProcesses s !! path file) eqn:E; [done|].
    destruct (spawnThrows _ _ _ _); [done|].
    simpl. rewrite lookup_insert_ne; [done|]. intros <-. congruence.
  - intros st Hoff. unfold onActiveLeafChange. simpl. by rewrite Hoff.
Qed.

Lemma part001_leaf_change_starts_once_witness :
  let s := startPreview doc (onload vaultHost DEFAULT_SETTINGS) in
  activePreviewProcesses s !! path doc = Some 0%nat
  /\ activePreviewProcesses (onActiveLeafChange (Some doc2) s) !! path doc
     = Some 0%nat.
Proof.
  split; [reflexivity|].
  destruct (part001_leaf_change_starts_once
              (startPreview doc (onload vaultHost DEFAULT_SETTINGS))
              (Some doc2)) as (_ & _ & _ & H & _).
  apply H. reflexivity.
Defined.

End Part001Toggle.

(** ** Unloading *)

Section Unloading.

Import Main.

Implicit Types (s : Plugin) (pid : nat).

Lemma detach_lookup (entries : list (jsstring * nat)) (ls : list WorkspaceLeaf) l :
  foldl (fun ls entry => alter detach (snd entry) ls) ls entries !! l
  = (if decide (l ∈ entries.*2) then detach <$> ls !! l else ls !! l).
Proof.
  revert ls. induction entries as [|[k l'] entries IH]; intros ls; simpl.
  - reflexivity.
  - rewrite IH. destruct (decide (l' = l)) as [->|Hne].
    + rewrite list_lookup_alter_eq.
      rewrite (decide_True (P := l ∈ l :: _)) by apply list_elem_of_here.
      case_decide; [|done]. by destruct (ls !! l).
    + rewrite list_lookup_alter_ne by done.
      case_decide as H1; case_decide as H2; try done.
      * exfalso. apply H2. by apply list_elem_of_further.
      * exfalso. apply elem_of_cons in H2 as [->|H2]; done.
Qed.

(** X16. [onunload], in every state the plugin reaches: the registry and
    the map of viewers are emptied, [kill()] has been called exactly once
    on every process that had an entry, and every leaf that was recorded as a
    viewer is detached, still showing its URL; leaves that were not
    recorded are left as they are. *)
Theorem onunload_teardown (h : Host) (st : QmdPluginSettings)
    (actions : list Action) :
  let s := run (onload h st) actions in
  let s' := onunload s in
  activePreviewProcesses s' = ∅
  /\ activeWebViewers s' = ∅
  /\ (forall k pid, activePreviewProcesses s !! k = Some pid ->
        exists p', processes s' !! pid = Some p' /\ signals p' = 1%nat)
  /\ (forall k l, activeWebViewers s !! k = Some l ->
        exists leaf, leaves s !! l = Some leaf
                     /\ leaves s' !! l
                        = Some {| viewUrl := viewUrl leaf; detached := true |})
  /\ (forall l, (forall k, activeWebViewers s !! k <> Some l) ->
        leaves s' !! l = leaves s !! l).
Proof.
  intros s s'. split; [done|]. split; [done|]. split; [|split].
  - intros k pid Hk.
    destruct (consistent_run actions (onload h st) (consistent_onload h st))
      as [C1 _]. fold s in C1.
    destruct (C1 _ _ Hk) as (p & Hp & Hkil & Hs).
    destruct (stopAllPreviews_sweep s pid) as (_ & Hin & _);
      [apply consistent_run, consistent_onload|].
    unfold s', onunload. cbn [setViewers setLeaves processes].
    rewrite Hin by eauto. rewrite Hp. simpl.
    eexists. split; [done|]. unfold killUnlessKilled. rewrite Hkil. simpl.
    by rewrite Hs.
  - intros k l Hk.
    assert (Hs : shown s).
    { apply shown_run. split; intros *; simpl; by rewrite lookup_empty. }
    destruct Hs as [V1 _]. destruct (V1 _ _ Hk) as (leaf & Hl & _).
    exists leaf. split; [done|].
    unfold s', onunload. cbn [setViewers setLeaves leaves stopAllPreviews
      setRegistry setProcesses activeWebViewers].
    rewrite detach_lookup, decide_True.
    + by rewrite Hl.
    + apply list_elem_of_fmap. exists (k, l). split; [done|].
      by apply elem_of_map_to_list.
  - intros l Hu.
    unfold s', onunload. cbn [setViewers setLeaves leaves stopAllPreviews
      setRegistry setProcesses activeWebViewers].
    rewrite detach_lookup, decide_False; [done|].
    intros ([k l'] & -> & Hin)%list_elem_of_fmap.
    apply elem_of_map_to_list in Hin. by apply (Hu k).
Qed.

Lemma onunload_teardown_witness :
  let s := run (onload vaultHost DEFAULT_SETTINGS)
               [Ribbon (Some doc); StdoutData 0 marker true] in
  activeWebViewers s !! path doc = Some 0%nat
  /\ leaves (onunload s) !! 0%nat
     = Some {| viewUrl := js "http://localhost:4000/"; detached := true |}.
Proof.
  split; [reflexivity|].
  destruct (onunload_teardown vaultHost DEFAULT_SETTINGS
              [Ribbon (Some doc); StdoutData 0 marker true])
    as (_ & _ & _ & H & _).
  destruct (H (path doc) 0%nat eq_refl) as (leaf & Hl & Hl').
  etrans; [exact Hl'|].
  assert (E : leaf = {| viewUrl := js "http://localhost:4000/";
                        detached := false |})
    by (apply (inj Some); etrans; [symmetry; exact Hl | reflexivity]).
  by rewrite E.
Defined.

End Unloading.
